(** * The danmaku query service: a shallow embedding of the API server

    The service turns HTTP query parameters into one SQL statement per
    request, runs it against a single message table and shapes the rows
    into a JSON answer.  This development embeds the parameter
    normalisers, the statement builders and the endpoint handlers of
    the server source, together with the meaning SQLite gives to the
    statements they issue, and settles the properties stated for them.

    Conventions.
    - A JavaScript string is the list of its UTF-16 code units.  The
      store holds and compares texts as UTF-8, that is by code point:
      where it matters (LIKE, the order of texts) the units are first
      read as code points.
    - A JavaScript number is a double.  The numbers of the source come
      from parseInt, Math.min, Math.floor, a product and a difference;
      the model keeps an integer exactly up to 2^53; what the engine
      makes of a number beyond that (the text it writes, a rounded
      cutoff) is given by the world of the request.
    - A conversion to a string can throw; a handler's catch block then
      answers with status 500.
    - A handler returns its response together with the list of
      statements it handed to the database driver. *)

From Stdlib Require Import List ZArith NArith Bool Lia String Ascii.
From Stdlib Require Import Sorted Permutation.
From Stdlib Require DecimalPos DecimalZ.
Import ListNotations.

Local Open Scope Z_scope.

(* ===================================================================== *)
(** ** JavaScript strings and numbers *)
(* ===================================================================== *)

Module JS.

(** A code unit and a string of code units. *)
Definition char := N.
Definition jsstring := list char.

(** String literals of the source, as code units. *)
Definition js (s : string) : jsstring :=
  map N_of_ascii (list_ascii_of_string s).

Definition char_eqb (a b : char) : bool := N.eqb a b.

Definition jsstring_eq_dec : forall a b : jsstring, {a = b} + {a <> b} :=
  list_eq_dec N.eq_dec.

Fixpoint jsstring_eqb (a b : jsstring) : bool :=
  match a, b with
  | [], [] => true
  | x :: a', y :: b' => char_eqb x y && jsstring_eqb a' b'
  | _, _ => false
  end.

(** ECMAScript WhiteSpace and LineTerminator code points: the characters
    removed by String.prototype.trim and skipped by parseInt. *)
Definition is_ws (c : char) : bool :=
  let n := c in
  ((9 <=? n) && (n <=? 13))%N
  || (n =? 32)%N || (n =? 160)%N || (n =? 5760)%N
  || ((8192 <=? n) && (n <=? 8202))%N
  || (n =? 8232)%N || (n =? 8233)%N || (n =? 8239)%N
  || (n =? 8287)%N || (n =? 12288)%N || (n =? 65279)%N.

Fixpoint trimStart (s : jsstring) : jsstring :=
  match s with
  | c :: s' => if is_ws c then trimStart s' else s
  | [] => []
  end.

Definition trimEnd (s : jsstring) : jsstring := rev (trimStart (rev s)).

(** [s.trim()] *)
Definition trim (s : jsstring) : jsstring := trimEnd (trimStart s).

(** [s.split(sep)] for a one-character separator: never the empty list. *)
Fixpoint split (sep : char) (s : jsstring) : list jsstring :=
  match s with
  | [] => [[]]
  | c :: s' =>
      if char_eqb c sep then [] :: split sep s'
      else match split sep s' with
           | h :: t => (c :: h) :: t
           | [] => [[c]]
           end
  end.

(** [l.join(sep)] *)
Fixpoint join (sep : jsstring) (l : list jsstring) : jsstring :=
  match l with
  | [] => []
  | [x] => x
  | x :: l' => x ++ sep ++ join sep l'
  end.

(** The largest magnitude up to which every integer is a double:
    2^53. *)
Definition safe_integer : Z := 9007199254740992.

(** Numbers as the service meets them.  [Num z] is the integer [z],
    of magnitude at most 2^53, held exactly.  [Huge z] is the double
    that JavaScript reads from the decimal digits of the integer [z]
    beyond 2^53: it has the sign of [z] and a magnitude of at least
    2^53 (it may be infinite). *)
Inductive jsnum := NaN | Num (z : Z) | Huge (z : Z).

Definition digit_val (c : char) : option Z :=
  if ((48 <=? c) && (c <=? 57))%N then Some (Z.of_N (c - 48)) else None.

(** The values of the longest prefix of decimal digits. *)
Fixpoint leading_digits (s : jsstring) : list Z :=
  match s with
  | c :: s' =>
      match digit_val c with
      | Some d => d :: leading_digits s'
      | None => []
      end
  | [] => []
  end.

Definition digits_value (ds : list Z) : Z :=
  fold_left (fun acc d => 10 * acc + d) ds 0.

(** An optional sign in front of the digits. *)
Definition strip_sign (s : jsstring) : bool * jsstring :=
  match s with
  | 45%N :: r => (true, r)
  | 43%N :: r => (false, r)
  | _ => (false, s)
  end.

(** The double read from the digits of an integer. *)
Definition double_of (z : Z) : jsnum :=
  if Z.abs z <=? safe_integer then Num z else Huge z.

(** [parseInt(s, 10)]: leading white space is skipped, one sign is
    read, then the longest run of decimal digits; anything after it is
    ignored, and no digit at all gives NaN.  The digits denote an
    integer; the result is the double read from it. *)
Definition parseInt (s : jsstring) : jsnum :=
  let '(neg, r) := strip_sign (trimStart s) in
  match leading_digits r with
  | [] => NaN
  | ds => double_of ((if neg then -1 else 1) * digits_value ds)
  end.

Fixpoint uint_chars (u : Decimal.uint) : jsstring :=
  match u with
  | Decimal.Nil => []
  | Decimal.D0 u' => 48%N :: uint_chars u'
  | Decimal.D1 u' => 49%N :: uint_chars u'
  | Decimal.D2 u' => 50%N :: uint_chars u'
  | Decimal.D3 u' => 51%N :: uint_chars u'
  | Decimal.D4 u' => 52%N :: uint_chars u'
  | Decimal.D5 u' => 53%N :: uint_chars u'
  | Decimal.D6 u' => 54%N :: uint_chars u'
  | Decimal.D7 u' => 55%N :: uint_chars u'
  | Decimal.D8 u' => 56%N :: uint_chars u'
  | Decimal.D9 u' => 57%N :: uint_chars u'
  end.

(** Decimal text of an integer. *)
Definition Z_chars (z : Z) : jsstring :=
  match Z.to_int z with
  | Decimal.Pos u => uint_chars u
  | Decimal.Neg u => 45%N :: uint_chars u
  end.

(** [String(n)], as a template literal renders a number: an integer up
    to 2^53 is written with all its digits; [huge z] is the text of
    the double read from [z], which the engine writes in its own way
    (rounded, with an exponent from 10^21 on, or as Infinity). *)
Definition num_toString (huge : Z -> jsstring) (n : jsnum) : jsstring :=
  match n with
  | NaN => js "NaN"
  | Num z => Z_chars z
  | Huge z => huge z
  end.

(** [Math.min(a, b)] on integers. *)
Definition Math_min (a b : Z) : Z := Z.min a b.

(** The outcome of an evaluation that can throw. *)
Inductive completion (A : Type) :=
| Returned (a : A)
| Thrown (message : jsstring).
Arguments Returned {A} a.
Arguments Thrown {A} message.

End JS.

Import JS.

(* ===================================================================== *)
(** ** Request values (Express, query parser in its default setting) *)
(* ===================================================================== *)

Module Express.

(** A value of [req.query]: a string, an array (a repeated key) or a
    plain object (a bracketed key).  The parser lets a bracketed key
    shadow the methods of the prototype: the flag of an object tells
    whether it has a key [toString] of its own, as [?limit[toString]=x]
    gives.  An absent key is [None] at the place of use. *)
#[warnings="-register-all"]
Inductive qval :=
| QStr (s : jsstring)
| QArr (l : list qval)
| QObj (own_toString : bool).

Fixpoint all_some {A : Type} (l : list (option A)) : option (list A) :=
  match l with
  | [] => Some []
  | Some a :: l' => option_map (cons a) (all_some l')
  | None :: _ => None
  end.

(** [String(v)]: an array is its elements joined by commas, a plain
    object is the fixed text [[object Object]]; an object with a key
    [toString] of its own has no method to call, and the conversion
    throws a TypeError ([None]). *)
Fixpoint toString (v : qval) : option jsstring :=
  match v with
  | QStr s => Some s
  | QArr l => option_map (join (js ",")) (all_some (map toString l))
  | QObj own_toString =>
      if own_toString then None else Some (js "[object Object]")
  end.

Definition TypeError_primitive : jsstring :=
  js "Cannot convert object to primitive value".

(** A conversion to a string where the source has one. *)
Definition String_of (v : qval) : completion jsstring :=
  match toString v with
  | Some s => Returned s
  | None => Thrown TypeError_primitive
  end.

(** Truthiness: only [undefined] and the empty string are falsy here. *)
Definition truthy (o : option qval) : bool :=
  match o with
  | None => false
  | Some (QStr []) => false
  | Some _ => true
  end.

(** [o || d] with a string literal [d]. *)
Definition or_default (o : option qval) (d : jsstring) : qval :=
  match o with
  | Some v => if truthy o then v else QStr d
  | None => QStr d
  end.

(** [a ?? b] *)
Definition nullish (a b : option qval) : option qval :=
  match a with
  | Some _ => a
  | None => b
  end.

(** [parseInt(raw, 10)]: the argument is converted to a string first. *)
Definition parseInt10 (raw : qval) : completion jsnum :=
  match String_of raw with
  | Returned s => Returned (parseInt s)
  | Thrown m => Thrown m
  end.

(** The request fields the handlers read: [req.params.name] and the
    keys of [req.query]. *)
Record Request := {
  params_name : jsstring;
  query_limit : option qval;
  query_offset : option qval;
  query_hours : option qval;
  query_roomId : option qval;
  query_openId : option qval;
  query_uname : option qval;
  query_keyword : option qval;
  query_keywords : option qval;
  query_q : option qval
}.

(** A value handed to the driver as a statement parameter: an integer
    held exactly, a value of the query, or the result of arithmetic on
    doubles that is not exact: an integer all the same, or minus
    infinity ([None]). *)
Inductive jsval :=
| JNum (z : Z)
| JQuery (v : qval)
| JReal (r : option Z).

Definition JStr (s : jsstring) : jsval := JQuery (QStr s).

End Express.

Import Express.

(* ===================================================================== *)
(** ** The store: SQLite's reading of the statements the service issues *)
(* ===================================================================== *)

Module Sqlite.

(** Storage classes that occur in the message table and its queries.
    SQLite orders NULL before the numbers (INTEGER and REAL, by their
    value) and the numbers before TEXT.  A REAL occurs as a bound
    cutoff only, with an integer value or minus infinity ([None]). *)
Inductive value :=
| VNull
| VInt (z : Z)
| VReal (r : option Z)
| VText (s : jsstring).

(** Modelled from the spec: the schema of [danmaku_messages], which the
    ingestion path creates and which is not part of the sources.  The
    identifier, name, body and room columns hold NULL or TEXT;
    [timestamp] holds NULL or an INTEGER of epoch seconds; [created_at]
    is kept as the epoch second that [strftime('%s', created_at)]
    denotes ([None] where strftime yields NULL). *)
Record message := {
  id : Z;
  open_id : option jsstring;
  uname : option jsstring;
  msg : option jsstring;
  room_id : option jsstring;
  timestamp : option Z;
  created_at : option Z
}.

(** A result row of [db.all]. *)
Inductive row :=
| RMessage (m : message)                      (* SELECT * *)
| RCount (count : Z)                          (* ... AS count *)
| RTopUser (uname open_id : option jsstring) (messageCount : Z)
| ROther (cols : list (jsstring * value)).    (* any other row *)

(** What the driver reports to the callback of [db.all]. *)
Inductive outcome :=
| Rows (rows : list row)
| SqlError (message : jsstring).

(** *** Quoted identifiers

    The tokenizer reads a double-quoted identifier up to the first
    quote that is not followed by another quote; a doubled quote stands
    for one quote in the name.  A NUL character ends the statement
    text, which leaves the identifier unterminated: an illegal token. *)
Fixpoint scan_quoted (s : jsstring) : option (jsstring * jsstring) :=
  match s with
  | [] => None
  | c :: s' =>
      if (c =? 0)%N then None
      else if (c =? 34)%N then
        match s' with
        | d :: s'' =>
            if (d =? 34)%N then
              match scan_quoted s'' with
              | Some (name, rest) => Some (34%N :: name, rest)
              | None => None
              end
            else Some ([], s')
        | [] => Some ([], [])
        end
      else
        match scan_quoted s' with
        | Some (name, rest) => Some (c :: name, rest)
        | None => None
        end
  end.

(** The identifier named by a text that starts with a double quote, and
    the text that follows its closing quote. *)
Definition lex_quoted (s : jsstring) : option (jsstring * jsstring) :=
  match s with
  | c :: r => if (c =? 34)%N then scan_quoted r else None
  | [] => None
  end.

(** *** Texts as the store sees them

    A text reaches the store as UTF-8: a surrogate pair is one
    character, a surrogate on its own becomes U+FFFD. *)
Definition is_high (c : char) : bool := ((55296 <=? c) && (c <=? 56319))%N.
Definition is_low (c : char) : bool := ((56320 <=? c) && (c <=? 57343))%N.

Fixpoint code_points (s : jsstring) : list N :=
  match s with
  | [] => []
  | c :: r =>
      if is_high c then
        match r with
        | d :: r' =>
            if is_low d
            then (65536 + (c - 55296) * 1024 + (d - 56320))%N :: code_points r'
            else 65533%N :: code_points r
        | [] => [65533%N]
        end
      else if is_low c then 65533%N :: code_points r
      else c :: code_points r
  end.

(** The text up to its first NUL character. *)
Fixpoint upto_nul (s : list N) : list N :=
  match s with
  | [] => []
  | c :: r => if (c =? 0)%N then [] else c :: upto_nul r
  end.

(** What LIKE reads of a text, pattern or subject: its characters up
    to the first NUL. *)
Definition like_text (s : jsstring) : list N := upto_nul (code_points s).

(** *** LIKE

    [%] matches any run of characters, [_] any one character, every
    other character itself; letters A-Z and a-z match regardless of
    case.  No escape character is in force.  (The engine refuses a
    pattern of more than 50 000 bytes; the request line of a query is
    shorter than that.) *)
Definition fold_case (c : char) : char :=
  if ((65 <=? c) && (c <=? 90))%N then (c + 32)%N else c.

Fixpoint like (pat s : jsstring) : bool :=
  match pat with
  | [] => match s with [] => true | _ => false end
  | p :: pat' =>
      if (p =? 37)%N then
        (fix any (t : jsstring) : bool :=
           like pat' t ||
           match t with
           | [] => false
           | _ :: t' => any t'
           end) s
      else
        match s with
        | [] => false
        | c :: s' =>
            ((p =? 95)%N || (fold_case p =? fold_case c)%N) && like pat' s'
        end
  end.

(** *** Comparison of values *)
Fixpoint text_compare (a b : jsstring) : comparison :=
  match a, b with
  | [], [] => Eq
  | [], _ :: _ => Lt
  | _ :: _, [] => Gt
  | x :: a', y :: b' =>
      match (x ?= y)%N with
      | Eq => text_compare a' b'
      | c => c
      end
  end.

(** Numbers with minus infinity ([None]) below them. *)
Definition real_compare (a b : option Z) : comparison :=
  match a, b with
  | None, None => Eq
  | None, Some _ => Lt
  | Some _, None => Gt
  | Some x, Some y => x ?= y
  end.

(** The order used by ORDER BY and by comparisons: NULL, then the
    numbers by value, then texts, a text character by character. *)
Definition value_compare (a b : value) : comparison :=
  match a, b with
  | VNull, VNull => Eq
  | VNull, _ => Lt
  | _, VNull => Gt
  | VInt x, VInt y => x ?= y
  | VInt x, VReal r => real_compare (Some x) r
  | VReal r, VInt y => real_compare r (Some y)
  | VReal r, VReal s => real_compare r s
  | (VInt _ | VReal _), VText _ => Lt
  | VText _, (VInt _ | VReal _) => Gt
  | VText x, VText y => text_compare (code_points x) (code_points y)
  end.

(** [a >= b] as a WHERE condition: a comparison with NULL is not true;
    no operand has a column affinity, so the values are compared as
    they are stored. *)
Definition sql_ge (a b : value) : bool :=
  match a, b with
  | VNull, _ | _, VNull => false
  | _, _ => match value_compare a b with Lt => false | _ => true end
  end.

(** The text a value has when a TEXT column is compared with it (the
    service binds no REAL to such a comparison). *)
Definition as_text (v : value) : option jsstring :=
  match v with
  | VNull | VReal _ => None
  | VInt z => Some (Z_chars z)
  | VText s => Some s
  end.

(** Two texts are the same text in the store. *)
Definition same_text (a b : jsstring) : bool :=
  jsstring_eqb (code_points a) (code_points b).

(** [col = ?] on a TEXT column. *)
Definition sql_eq (col : option jsstring) (v : value) : bool :=
  match col, as_text v with
  | Some s, Some t => same_text s t
  | _, _ => false
  end.

(** [col LIKE ?]: pattern and subject are read up to their first NUL. *)
Definition sql_like (col : option jsstring) (v : value) : bool :=
  match col, as_text v with
  | Some s, Some pat => like (like_text pat) (like_text s)
  | _, _ => false
  end.

(** [COALESCE(timestamp, strftime('%s', created_at))]: the stored
    integer when there is one, else the TEXT that strftime returns. *)
Definition effective_expr (m : message) : value :=
  match timestamp m with
  | Some t => VInt t
  | None =>
      match created_at m with
      | Some e => VText (Z_chars e)
      | None => VNull
      end
  end.


(** *** Ordering and truncation *)
Section Ordering.
Context {A : Type} (gt : A -> A -> bool).

(** [x] is placed in front of the first element that is not greater
    than it. *)
Fixpoint insert_desc (x : A) (l : list A) : list A :=
  match l with
  | [] => [x]
  | y :: l' => if gt y x then y :: insert_desc x l' else x :: l
  end.

(** Descending order; rows that compare equal keep their order. *)
Definition sort_desc (l : list A) : list A :=
  fold_right insert_desc [] l.
End Ordering.

Definition is_Gt (c : comparison) : bool :=
  match c with Gt => true | _ => false end.

Definition is_Lt (c : comparison) : bool :=
  match c with Lt => true | _ => false end.

(** [ORDER BY COALESCE(timestamp, strftime('%s', created_at)) DESC] *)
Definition order_by_effective_desc (l : list message) : list message :=
  sort_desc (fun a b => is_Gt (value_compare (effective_expr a) (effective_expr b))) l.

(** [LIMIT n]: a negative bound means no bound. *)
Definition apply_limit {A : Type} (n : Z) (l : list A) : list A :=
  if n <? 0 then l else firstn (Z.to_nat n) l.

(** *** Aggregates *)
Fixpoint nonnull {A : Type} (l : list (option A)) : list A :=
  match l with
  | Some a :: l' => a :: nonnull l'
  | None :: l' => nonnull l'
  | [] => []
  end.

(** [COUNT(DISTINCT open_id)]: NULLs are not counted. *)
Definition count_distinct_open_id (l : list message) : Z :=
  Z.of_nat (List.length (nodup jsstring_eq_dec (nonnull (map open_id l)))).

(** The key of [GROUP BY open_id, uname]; NULL groups with NULL. *)
Definition group_key : Type := (option jsstring * option jsstring)%type.

Definition group_key_eq_dec : forall a b : group_key, {a = b} + {a <> b}.
Proof. repeat decide equality. Defined.

Definition key_of (m : message) : group_key := (open_id m, uname m).

Definition group_count (l : list message) (k : group_key) : Z :=
  Z.of_nat (count_occ group_key_eq_dec (map key_of l) k).

(** The order in which GROUP BY goes through its keys: by [open_id],
    then by [uname], NULL first. *)
Definition column_compare (a b : option jsstring) : comparison :=
  match a, b with
  | None, None => Eq
  | None, Some _ => Lt
  | Some _, None => Gt
  | Some x, Some y => text_compare (code_points x) (code_points y)
  end.

Definition key_compare (a b : group_key) : comparison :=
  match column_compare (fst a) (fst b) with
  | Eq => column_compare (snd a) (snd b)
  | c => c
  end.

Definition groups (l : list message) : list group_key :=
  sort_desc (fun a b => is_Lt (key_compare a b))
            (nodup group_key_eq_dec (map key_of l)).

(** One row per group, [ORDER BY messageCount DESC]; groups of equal
    count stay in the order of their keys. *)
Definition top_users (l : list message) : list row :=
  map (fun k => RTopUser (snd k) (fst k) (group_count l k))
      (sort_desc (fun a b => group_count l a >? group_count l b) (groups l)).

(** *** The statements of the service *)

(** The WHERE part of a message listing. *)
Inductive where_shape :=
| WAll                                  (* no WHERE *)
| WRoom                                 (* room_id = ? *)
| WOpenId                               (* open_id = ? *)
| WUname                                (* uname LIKE ? COLLATE NOCASE *)
| WKeywords (room : bool) (n : nat).    (* [room_id = ? AND] (msg LIKE ? ... OR ...), n+1 terms *)

Inductive statement :=
| SCountAll
| SCountUsers
| SCountUsersSince
| STopUsers
| SMessages (w : where_shape).

Fixpoint strip (p s : jsstring) : option jsstring :=
  match p with
  | [] => Some s
  | a :: p' =>
      match s with
      | b :: s' => if char_eqb a b then strip p' s' else None
      | [] => None
      end
  end.

Definition nl : jsstring := [10%N].
Definition line (t : jsstring) : jsstring := nl ++ js "            " ++ t.
Definition closing : jsstring := nl ++ js "        ".

Definition effective_text : jsstring :=
  js "COALESCE(timestamp, strftime('%s', created_at))".

Definition text_count_all : jsstring :=
  js "SELECT COUNT(*) AS count FROM danmaku_messages".
Definition text_count_users : jsstring :=
  js "SELECT COUNT(DISTINCT open_id) AS count FROM danmaku_messages".
Definition text_count_users_since : jsstring :=
  text_count_users ++ js " WHERE " ++ effective_text ++ js " >= ?".
Definition text_top_users : jsstring :=
  line (js "SELECT uname, open_id, COUNT(*) AS messageCount")
  ++ line (js "FROM danmaku_messages")
  ++ line (js "WHERE " ++ effective_text ++ js " >= ?")
  ++ line (js "GROUP BY open_id, uname")
  ++ line (js "ORDER BY messageCount DESC")
  ++ line (js "LIMIT ?")
  ++ closing.
Definition text_messages_head : jsstring :=
  line (js "SELECT *") ++ line (js "FROM danmaku_messages") ++ line [].
Definition text_messages_tail : jsstring :=
  line (js "ORDER BY " ++ effective_text ++ js " DESC")
  ++ line (js "LIMIT ?")
  ++ closing.
Definition text_like_msg : jsstring := js "msg LIKE ? COLLATE NOCASE".

(** The terms of a keyword group after the first, up to the closing
    parenthesis: their number. *)
Fixpoint read_terms (fuel : nat) (s : jsstring) : option nat :=
  match fuel with
  | O => None
  | S fuel' =>
      match strip (js " OR ") s with
      | Some r =>
          match strip text_like_msg r with
          | Some r' => option_map S (read_terms fuel' r')
          | None => None
          end
      | None =>
          if jsstring_eqb s (js ")" ++ text_messages_tail) then Some O else None
      end
  end.

Definition read_group (room : bool) (s : jsstring) : option where_shape :=
  match strip (js "(" ++ text_like_msg) s with
  | Some r => option_map (WKeywords room) (read_terms (S (List.length r)) r)
  | None => None
  end.

Definition read_where (s : jsstring) : option where_shape :=
  if jsstring_eqb s text_messages_tail then Some WAll
  else
    match strip (js "WHERE ") s with
    | None => None
    | Some r =>
        if jsstring_eqb r (js "room_id = ?" ++ text_messages_tail) then Some WRoom
        else if jsstring_eqb r (js "open_id = ?" ++ text_messages_tail) then Some WOpenId
        else if jsstring_eqb r (js "uname LIKE ? COLLATE NOCASE" ++ text_messages_tail)
        then Some WUname
        else
          match strip (js "room_id = ? AND ") r with
          | Some r' => read_group true r'
          | None => read_group false r
          end
    end.

(** The statement a text denotes, for the statement texts of the
    service over [danmaku_messages]. *)
Definition recognise (sql : jsstring) : option statement :=
  if jsstring_eqb sql text_count_all then Some SCountAll
  else if jsstring_eqb sql text_count_users then Some SCountUsers
  else if jsstring_eqb sql text_count_users_since then Some SCountUsersSince
  else if jsstring_eqb sql text_top_users then Some STopUsers
  else
    match strip text_messages_head sql with
    | Some r => option_map SMessages (read_where r)
    | None => None
    end.

(** The text the driver binds for a value of the query: a string as it
    is, every other object (an array as well) as the fixed text
    [[object Object]]. *)
Definition bound_text (v : qval) : jsstring :=
  match v with
  | QStr s => s
  | _ => js "[object Object]"
  end.

(** How the driver binds a JavaScript value: a number as a number, a
    value of the query as TEXT. *)
Definition bind (v : jsval) : value :=
  match v with
  | JNum z => VInt z
  | JQuery q => VText (bound_text q)
  | JReal r => VReal r
  end.

Definition listing (keep : message -> bool) (n : Z) (tbl : list message) : outcome :=
  Rows (map RMessage (apply_limit n (order_by_effective_desc (filter keep tbl)))).

(** The rows a statement yields on a table, given the bound values;
    [None] when the values do not fit the placeholders. *)
Definition eval (tbl : list message) (q : statement) (args : list value)
  : option outcome :=
  match q, args with
  | SCountAll, [] => Some (Rows [RCount (Z.of_nat (List.length tbl))])
  | SCountUsers, [] => Some (Rows [RCount (count_distinct_open_id tbl)])
  | SCountUsersSince, [c] =>
      Some (Rows [RCount (count_distinct_open_id
                            (filter (fun m => sql_ge (effective_expr m) c) tbl))])
  | STopUsers, [c; VInt n] =>
      Some (Rows (apply_limit n
                    (top_users (filter (fun m => sql_ge (effective_expr m) c) tbl))))
  | SMessages WAll, [VInt n] => Some (listing (fun _ => true) n tbl)
  | SMessages WRoom, [r; VInt n] =>
      Some (listing (fun m => sql_eq (room_id m) r) n tbl)
  | SMessages WOpenId, [o; VInt n] =>
      Some (listing (fun m => sql_eq (open_id m) o) n tbl)
  | SMessages WUname, [p; VInt n] =>
      Some (listing (fun m => sql_like (uname m) p) n tbl)
  | SMessages (WKeywords room k), _ =>
      match rev args with
      | VInt n :: front =>
          let vals := rev front in
          if room then
            match vals with
            | r :: pats =>
                if Nat.eqb (List.length pats) (S k) then
                  Some (listing (fun m => sql_eq (room_id m) r
                                         && existsb (sql_like (msg m)) pats) n tbl)
                else None
            | [] => None
            end
          else
            if Nat.eqb (List.length vals) (S k) then
              Some (listing (fun m => existsb (sql_like (msg m)) vals) n tbl)
            else None
      | _ => None
      end
  | _, _ => None
  end.

(** The engine: statements of the service over a message table get
    their rows from [eval]; every other statement (schema listing,
    table dump) is left to [other]. *)
Definition sqlite_all (other : jsstring -> list jsval -> outcome)
    (tbl : list message) (sql : jsstring) (params : list jsval) : outcome :=
  match recognise sql with
  | Some q =>
      match eval tbl q (map bind params) with
      | Some o => o
      | None => other sql params
      end
  | None => other sql params
  end.

End Sqlite.

Import Sqlite.

(* ===================================================================== *)
(** ** The server *)
(* ===================================================================== *)

Module Server.

(** What a request can observe of its surroundings: the environment,
    the file system, the database driver, the clock, and what the
    JavaScript engine makes of a number beyond the range in which its
    arithmetic is exact: the text it writes for it, and the cutoff it
    computes from it. *)
Record World := {
  env_DB_PATH : option jsstring;           (* process.env.DB_PATH *)
  cwd : jsstring;                          (* process.cwd() *)
  DEFAULT_DB_PATH : jsstring;              (* path.resolve(__dirname, '../danmaku.db') *)
  path_resolve : jsstring -> jsstring -> jsstring;
  existsSync : jsstring -> bool;           (* fs.existsSync *)
  db_all : jsstring -> jsstring -> list jsval -> outcome;  (* db.all on the file *)
  Date_now : Z;                            (* Date.now(), milliseconds *)
  huge_toString : Z -> jsstring;           (* String(n) for the double read from an integer beyond 2^53 *)
  inexact_cutoff : jsnum -> option Z       (* floor(Date.now() / 1000) - hours * 3600 where it is rounded *)
}.

(** A statement handed to the driver. *)
Record issued := {
  issued_path : jsstring;
  issued_sql : jsstring;
  issued_params : list jsval
}.

(** The JSON bodies the handlers send. *)
Inductive body :=
| BError (error : jsstring)                               (* { error } *)
| BDbNotFound (path : jsstring)                           (* { error: 'db not found', path } *)
| BTables (path : jsstring) (tables : list row)           (* { path, tables } *)
| BRows (rows : list row)                                 (* { rows } *)
| BTotalMessages (totalMessages : Z)
| BUniqueUsers (uniqueUsers : Z)
| BUniqueUsers24h (uniqueUsers24h : Z)
| BTopUsers (sinceHours : jsnum) (limit : Z) (topUsers : list row)
                                                          (* { sinceHours, limit, topUsers } *)
| BMessages (messages : list row) (limit : Z)             (* { messages, limit } *)
| BSearch (keywords : list jsstring) (limit : Z) (messages : list row).

Record response := {
  status : Z;
  json : body
}.

(** A settled promise. *)
Inductive settled (A : Type) :=
| Resolved (a : A)
| Rejected (message : jsstring).
Arguments Resolved {A} a.
Arguments Rejected {A} message.

(** [all(dbPath, sql, params)]: the promise and the statements run. *)
Definition all (w : World) (dbPath sql : jsstring) (params : list jsval)
  : settled (list row) * list issued :=
  if negb (existsSync w dbPath) then
    (Rejected (js "DB file not found: " ++ dbPath), [])
  else
    let log := [{| issued_path := dbPath; issued_sql := sql; issued_params := params |}] in
    match db_all w dbPath sql params with
    | SqlError m => (Rejected m, log)
    | Rows rows => (Resolved rows, log)
    end.

Definition resolveDbPath (w : World) : jsstring :=
  match env_DB_PATH w with
  | Some envPath =>
      match envPath with
      | [] => DEFAULT_DB_PATH w
      | _ => path_resolve w (cwd w) envPath
      end
  | None => DEFAULT_DB_PATH w
  end.

(** [parseLimit(raw, fallback, max)], for a maximum of at most 2^53 (the
    source passes 100, 200 and 500): a number beyond 2^53 is then above
    the maximum, or below zero. *)
Definition parseLimit (raw : qval) (fallback max : Z) : completion Z :=
  match parseInt10 raw with
  | Thrown m => Thrown m
  | Returned NaN => Returned fallback
  | Returned (Num parsed) =>
      Returned (if parsed <=? 0 then fallback else Math_min parsed max)
  | Returned (Huge parsed) =>
      Returned (if parsed <=? 0 then fallback else max)
  end.

Definition parseHours (raw : qval) (fallback : Z) : completion jsnum :=
  match parseInt10 raw with
  | Thrown m => Thrown m
  | Returned NaN => Returned (Num fallback)
  | Returned (Num parsed) =>
      Returned (if parsed <=? 0 then Num fallback else Num parsed)
  | Returned (Huge parsed) =>
      Returned (if parsed <=? 0 then Num fallback else Huge parsed)
  end.

Definition buildTimestampOrderClause : jsstring :=
  js "COALESCE(timestamp, strftime('%s', created_at))".

(** [res.json(b)] and [res.status(n).json(b)] *)
Definition ok (b : body) : response := {| status := 200; json := b |}.
Definition fail (n : Z) (b : body) : response := {| status := n; json := b |}.

(** The shared tail of the handlers: await the promise, answer with
    the rows, or with status 500 from the catch block. *)
Definition answer (p : settled (list row) * list issued) (k : list row -> body)
  : response * list issued :=
  match fst p with
  | Resolved rows => (ok (k rows), snd p)
  | Rejected m => (fail 500 (BError m), snd p)
  end.

(** An evaluation inside the try block of a handler, before any
    statement is run: when it throws, the catch block answers with
    status 500 and the message of the error. *)
Definition caught {A : Type} (c : completion A)
    (k : A -> response * list issued) : response * list issued :=
  match c with
  | Returned a => k a
  | Thrown m => (fail 500 (BError m), [])
  end.

Notation "'const' x ':=' c 'in' k" := (caught c (fun x => k))
  (at level 10, x name, c at level 100, k at level 200).

(** [rows?.[0]?.count || 0] *)
Definition first_count (rows : list row) : Z :=
  match rows with
  | RCount n :: _ => n
  | _ => 0
  end.

(** A template literal written over several lines, as in the source:
    each line is indented by twelve spaces, the closing quote by eight. *)
Definition nl : jsstring := [10%N].
Definition ln (t : jsstring) : jsstring := nl ++ js "            " ++ t.
Definition closing : jsstring := nl ++ js "        ".

(** GET /tables *)
Definition sql_tables : jsstring :=
  js "SELECT name, type FROM sqlite_master WHERE type IN ('table','view') AND name NOT LIKE 'sqlite_%' ORDER BY name".

Definition get_tables (w : World) (req : Request) : response * list issued :=
  let dbPath := resolveDbPath w in
  if negb (existsSync w dbPath) then (fail 404 (BDbNotFound dbPath), [])
  else answer (all w dbPath sql_tables []) (fun rows => BTables dbPath rows).

(** GET /table/:name *)
Definition safeName (name : jsstring) : jsstring :=
  flat_map (fun c => if char_eqb c 34%N then [34%N; 34%N] else [c]) name.

Definition sql_table (w : World) (name : jsstring) (limit offset : jsnum) : jsstring :=
  js "SELECT * FROM " ++ [34%N] ++ safeName name ++ [34%N]
  ++ js " LIMIT " ++ num_toString (huge_toString w) limit
  ++ js " OFFSET " ++ num_toString (huge_toString w) offset.

Definition get_table (w : World) (req : Request) : response * list issued :=
  let dbPath := resolveDbPath w in
  let name := params_name req in
  const limit := parseInt10 (or_default (query_limit req) (js "100")) in
  const offset := parseInt10 (or_default (query_offset req) (js "0")) in
  if negb (existsSync w dbPath) then (fail 404 (BDbNotFound dbPath), [])
  else answer (all w dbPath (sql_table w name limit offset) []) BRows.

(** GET /stats/history-count *)
Definition sql_history_count : jsstring :=
  js "SELECT COUNT(*) AS count FROM danmaku_messages".

Definition get_history_count (w : World) (req : Request) : response * list issued :=
  let dbPath := resolveDbPath w in
  answer (all w dbPath sql_history_count [])
         (fun rows => BTotalMessages (first_count rows)).

(** GET /stats/unique-users *)
Definition sql_unique_users : jsstring :=
  js "SELECT COUNT(DISTINCT open_id) AS count FROM danmaku_messages".

Definition get_unique_users (w : World) (req : Request) : response * list issued :=
  let dbPath := resolveDbPath w in
  answer (all w dbPath sql_unique_users [])
         (fun rows => BUniqueUsers (first_count rows)).

(** [Math.floor(Date.now() / 1000) - hours * 3600] for a number of
    hours whose product with 3600 is exact.  [Date.now()] is an
    integer time value, of magnitude at most 8.64e15: its quotient by
    1000 rounds to the right second, and the difference is exact. *)
Definition cutoff_of (w : World) (hours : Z) : Z :=
  Date_now w / 1000 - hours * 3600.

(** GET /stats/unique-users-24h *)
Definition sql_unique_users_24h : jsstring :=
  js "SELECT COUNT(DISTINCT open_id) AS count FROM danmaku_messages WHERE "
  ++ buildTimestampOrderClause ++ js " >= ?".

Definition get_unique_users_24h (w : World) (req : Request) : response * list issued :=
  let dbPath := resolveDbPath w in
  let hours := 24 in
  let cutoff := cutoff_of w hours in
  answer (all w dbPath sql_unique_users_24h [JNum cutoff])
         (fun rows => BUniqueUsers24h (first_count rows)).

(** GET /stats/top-users *)
Definition sql_top_users : jsstring :=
  ln (js "SELECT uname, open_id, COUNT(*) AS messageCount")
  ++ ln (js "FROM danmaku_messages")
  ++ ln (js "WHERE " ++ buildTimestampOrderClause ++ js " >= ?")
  ++ ln (js "GROUP BY open_id, uname")
  ++ ln (js "ORDER BY messageCount DESC")
  ++ ln (js "LIMIT ?")
  ++ closing.

Definition top_users_limit (req : Request) : completion Z :=
  parseLimit (or_default (query_limit req) (js "10")) 10 100.

Definition top_users_hours (req : Request) : completion jsnum :=
  parseHours (or_default (query_hours req) (js "24")) 24.

(** The largest product [hours * 3600] the model follows: 2^52, which
    leaves the difference with the clock within 2^53. *)
Definition exact_seconds : Z := 4503599627370496.

(** The cutoff of a window of [hours] hours, as the value bound: the
    integer of [cutoff_of] while the arithmetic on doubles is exact,
    beyond that the double that the engine computes. *)
Definition window_cutoff (w : World) (hours : jsnum) : jsval :=
  match hours with
  | Num h =>
      if h * 3600 <=? exact_seconds then JNum (cutoff_of w h)
      else JReal (inexact_cutoff w hours)
  | _ => JReal (inexact_cutoff w hours)
  end.

Definition get_top_users (w : World) (req : Request) : response * list issued :=
  let dbPath := resolveDbPath w in
  const limit := top_users_limit req in
  const hours := top_users_hours req in
  let cutoff := window_cutoff w hours in
  answer (all w dbPath sql_top_users [cutoff; JNum limit])
         (fun rows => BTopUsers hours limit rows).

(** The listing template shared by the three message endpoints. *)
Definition sql_messages (where_line : jsstring) : jsstring :=
  ln (js "SELECT *")
  ++ ln (js "FROM danmaku_messages")
  ++ ln where_line
  ++ ln (js "ORDER BY " ++ buildTimestampOrderClause ++ js " DESC")
  ++ ln (js "LIMIT ?")
  ++ closing.

(** GET /messages/recent *)
Definition recent_limit (req : Request) : completion Z :=
  parseLimit (or_default (query_limit req) (js "50")) 50 200.

Definition recent_clauses (req : Request) : list jsstring * list jsval :=
  match query_roomId req with
  | Some roomId =>
      if truthy (query_roomId req) then ([js "room_id = ?"], [JQuery roomId])
      else ([], [])
  | None => ([], [])
  end.

Definition recent_where (req : Request) : jsstring :=
  match fst (recent_clauses req) with
  | [] => []
  | clauses => js "WHERE " ++ join (js " AND ") clauses
  end.

Definition recent_sql (req : Request) : jsstring :=
  sql_messages (recent_where req).

Definition recent_params (req : Request) (limit : Z) : list jsval :=
  snd (recent_clauses req) ++ [JNum limit].

Definition get_messages_recent (w : World) (req : Request) : response * list issued :=
  let dbPath := resolveDbPath w in
  const limit := recent_limit req in
  answer (all w dbPath (recent_sql req) (recent_params req limit))
         (fun rows => BMessages rows limit).

(** GET /messages/by-user *)
Definition by_user_limit (req : Request) : completion Z :=
  parseLimit (or_default (query_limit req) (js "100")) 100 500.

(** [`%${uname}%`] *)
Definition uname_pattern (req : Request) : completion jsstring :=
  match query_uname req with
  | Some u =>
      match String_of u with
      | Returned t => Returned (js "%" ++ t ++ js "%")
      | Thrown m => Thrown m
      end
  | None => Returned (js "%" ++ js "undefined" ++ js "%")
  end.

(** The branch taken: the WHERE condition and its bound value. *)
Definition by_user_where (req : Request) : completion (jsstring * list jsval) :=
  let by_name :=
    match uname_pattern req with
    | Returned p => Returned (js "uname LIKE ? COLLATE NOCASE", [JStr p])
    | Thrown m => Thrown m
    end in
  match query_openId req with
  | Some openId =>
      if truthy (query_openId req) then Returned (js "open_id = ?", [JQuery openId])
      else by_name
  | None => by_name
  end.

Definition by_user_sql (where_ : jsstring) : jsstring :=
  sql_messages (js "WHERE " ++ where_).

Definition get_messages_by_user (w : World) (req : Request) : response * list issued :=
  let dbPath := resolveDbPath w in
  const limit := by_user_limit req in
  if negb (truthy (query_openId req)) && negb (truthy (query_uname req)) then
    (fail 400 (BError (js "Provide openId or uname query parameter.")), [])
  else
    const branch := by_user_where req in
    answer (all w dbPath (by_user_sql (fst branch)) (snd branch ++ [JNum limit]))
           (fun rows => BMessages rows limit).

(** GET /messages/search *)
Definition search_limit (req : Request) : completion Z :=
  parseLimit (or_default (query_limit req) (js "100")) 100 500.

Definition keywordsRaw (req : Request) : option qval :=
  nullish (query_keyword req) (nullish (query_keywords req) (query_q req)).

(** The entries before trimming: the array itself, or the string split
    on commas; anything else gives no entry. *)
Definition keyword_entries (raw : option qval) : list qval :=
  match raw with
  | Some (QArr l) => l
  | Some (QStr s) => map QStr (split 44%N s)
  | _ => []
  end.

(** [keywords.map((k) => k.trim())]: an entry that is not a string has
    no [trim] method and the call throws a TypeError ([None]). *)
Fixpoint map_trim (l : list qval) : option (list jsstring) :=
  match l with
  | [] => Some []
  | QStr s :: l' => option_map (cons (trim s)) (map_trim l')
  | _ :: _ => None
  end.

(** [.filter(Boolean)] on strings *)
Definition filter_nonempty (l : list jsstring) : list jsstring :=
  filter (fun k => match k with [] => false | _ => true end) l.

(** The normalised keyword list. *)
Definition normalize_keywords (raw : option qval) : option (list jsstring) :=
  option_map filter_nonempty (map_trim (keyword_entries raw)).

Definition search_where (roomId : option qval) (keywords : list jsstring) : jsstring :=
  let clauses := map (fun _ => js "msg LIKE ? COLLATE NOCASE") keywords in
  let where_ := js "(" ++ join (js " OR ") clauses ++ js ")" in
  if truthy roomId then js "room_id = ? AND " ++ where_ else where_.

Definition search_params (roomId : option qval) (keywords : list jsstring) (limit : Z)
  : list jsval :=
  let params := map (fun k => JStr (js "%" ++ k ++ js "%")) keywords in
  (match roomId with
   | Some r => if truthy roomId then [JQuery r] else []
   | None => []
   end) ++ params ++ [JNum limit].

Definition search_sql (roomId : option qval) (keywords : list jsstring) : jsstring :=
  sql_messages (js "WHERE " ++ search_where roomId keywords).

Definition get_messages_search (w : World) (req : Request) : response * list issued :=
  let dbPath := resolveDbPath w in
  const limit := search_limit req in
  match normalize_keywords (keywordsRaw req) with
  | None => (fail 500 (BError (js "k.trim is not a function")), [])
  | Some [] =>
      (fail 400 (BError (js "Provide at least one keyword via keyword, keywords, or q query param.")), [])
  | Some keywords =>
      let roomId := query_roomId req in
      answer (all w dbPath (search_sql roomId keywords)
                  (search_params roomId keywords limit))
             (fun rows => BSearch keywords limit rows)
  end.

(** The nine endpoints of the API router. *)
Inductive endpoint :=
| Tables | Table | HistoryCount | UniqueUsers | UniqueUsers24h
| TopUsers | MessagesRecent | MessagesByUser | MessagesSearch.

Definition handle (e : endpoint) : World -> Request -> response * list issued :=
  match e with
  | Tables => get_tables
  | Table => get_table
  | HistoryCount => get_history_count
  | UniqueUsers => get_unique_users
  | UniqueUsers24h => get_unique_users_24h
  | TopUsers => get_top_users
  | MessagesRecent => get_messages_recent
  | MessagesByUser => get_messages_by_user
  | MessagesSearch => get_messages_search
  end.

(** A world whose driver is the SQLite model over one message table. *)
Definition sqlite_world (w : World) (tbl : list message) : World :=
  {| env_DB_PATH := env_DB_PATH w;
     cwd := cwd w;
     DEFAULT_DB_PATH := DEFAULT_DB_PATH w;
     path_resolve := path_resolve w;
     existsSync := existsSync w;
     db_all := fun path => sqlite_all (db_all w path) tbl;
     Date_now := Date_now w;
     huge_toString := huge_toString w;
     inexact_cutoff := inexact_cutoff w |}.

End Server.

Import Server.

(* ===================================================================== *)
(** ** Vocabulary of the stated properties *)
(* ===================================================================== *)

(** The effective time of a message in epoch seconds: the timestamp if
    present, else the epoch second of [created_at]. *)
Definition effective_time (m : message) : option Z :=
  match timestamp m with
  | Some t => Some t
  | None => created_at m
  end.

(** [k] is a prefix of [s], letters A-Z and a-z compared without case. *)
Fixpoint ci_prefix (k s : jsstring) : bool :=
  match k, s with
  | [], _ => true
  | _ :: _, [] => false
  | a :: k', b :: s' => (fold_case a =? fold_case b)%N && ci_prefix k' s'
  end.

(** [k] occurs in [s] as a case-insensitive substring. *)
Fixpoint ci_substring (k s : jsstring) : bool :=
  ci_prefix k s ||
  match s with
  | [] => false
  | _ :: s' => ci_substring k s'
  end.

Definition contains_ci (k : jsstring) (col : option jsstring) : bool :=
  match col with
  | Some s => ci_substring k s
  | None => false
  end.

(** No LIKE wildcard ([%] or [_]) occurs in [k]. *)
Definition wildcard_free (k : jsstring) : bool :=
  forallb (fun c => negb ((c =? 37)%N || (c =? 95)%N)) k.

(** A text that a LIKE pattern takes literally: it holds no wildcard
    ([%] or [_]) and no NUL character. *)
Definition literal (k : jsstring) : bool :=
  forallb (fun c => negb ((c =? 37)%N || (c =? 95)%N || (c =? 0)%N)) k.

(** The column holds [k] as a substring, character by character and
    without regard to the case of A-Z, in what the store reads of it
    (the text up to a NUL character, if it has one). *)
Definition contains_text (k : jsstring) (col : option jsstring) : bool :=
  match col with
  | Some s => ci_substring (code_points k) (like_text s)
  | None => false
  end.

(** The text of a statement shape: nothing but the shape goes into it. *)
Definition render_where (w : where_shape) : jsstring :=
  match w with
  | WAll => []
  | WRoom => js "WHERE room_id = ?"
  | WOpenId => js "WHERE open_id = ?"
  | WUname => js "WHERE uname LIKE ? COLLATE NOCASE"
  | WKeywords room n =>
      js "WHERE " ++ (if room then js "room_id = ? AND " else [])
      ++ js "(" ++ join (js " OR ") (repeat text_like_msg (S n)) ++ js ")"
  end.

Definition render (q : statement) : jsstring :=
  match q with
  | SCountAll => text_count_all
  | SCountUsers => text_count_users
  | SCountUsersSince => text_count_users_since
  | STopUsers => text_top_users
  | SMessages w => text_messages_head ++ render_where w ++ text_messages_tail
  end.

(** The text that follows the first term of a keyword group of [n+1]
    terms. *)
Definition more_terms (n : nat) : jsstring :=
  List.concat (repeat (js " OR " ++ text_like_msg) n) ++ js ")" ++ text_messages_tail.

(** The number of [?] placeholders of a statement shape. *)
Definition placeholders (q : statement) : nat :=
  match q with
  | SCountAll | SCountUsers => 0
  | SCountUsersSince => 1
  | STopUsers => 2
  | SMessages WAll => 1
  | SMessages (WRoom | WOpenId | WUname) => 2
  | SMessages (WKeywords room n) => (if room then 1 else 0) + S n + 1
  end.

(** Occurrences of the character [?] in a text. *)
Definition question_marks (s : jsstring) : nat :=
  count_occ N.eq_dec s 63%N.

(** The rows a response carries. *)
Definition rows_sent (r : response) : list row :=
  match json r with
  | BTables _ rows | BRows rows | BTopUsers _ _ rows
  | BMessages rows _ | BSearch _ _ rows => rows
  | _ => []
  end.

Definition set_uname (u : option qval) (req : Request) : Request :=
  {| params_name := params_name req;
     query_limit := query_limit req;
     query_offset := query_offset req;
     query_hours := query_hours req;
     query_roomId := query_roomId req;
     query_openId := query_openId req;
     query_uname := u;
     query_keyword := query_keyword req;
     query_keywords := query_keywords req;
     query_q := query_q req |}.

(** The value of a query key when it is given and not empty. *)
Definition supplied (o : option qval) : list qval :=
  match o with
  | Some v => if truthy o then [v] else []
  | None => []
  end.

(** A column holds the text the driver binds for a value of the
    query. *)
Definition column_is (col : option jsstring) (v : qval) : bool :=
  match col with
  | Some s => same_text s (bound_text v)
  | None => false
  end.

(** [roomId] scoping as a condition on a message. *)
Definition room_matches (roomId : option qval) (m : message) : bool :=
  match roomId with
  | Some r => if truthy roomId then column_is (room_id m) r else true
  | None => true
  end.

(** The keyword condition of GET /messages/search as the engine
    evaluates it. *)
Definition search_matches (roomId : option qval) (keywords : list jsstring)
    (m : message) : bool :=
  room_matches roomId m
  && existsb (fun k => sql_like (msg m) (VText (js "%" ++ k ++ js "%"))) keywords.

(** The number a run of decimal digits denotes. *)
Definition decimal (ds : jsstring) : Z :=
  fold_left (fun acc c => 10 * acc + (Z.of_N c - 48)) ds 0.

Definition is_digit (c : char) : bool := ((48 <=? c) && (c <=? 57))%N.

Definition starts_with (p : char -> bool) (s : jsstring) : bool :=
  match s with
  | c :: _ => p c
  | [] => false
  end.

(** A text that does not go on with a digit. *)
Definition no_digit_ahead (rest : jsstring) : bool :=
  negb (starts_with is_digit rest).

(** The sign a text starts with: none, [+] or [-]. *)
Inductive sign := Unsigned | Plus | Minus.

Definition sign_text (s : sign) : jsstring :=
  match s with
  | Unsigned => []
  | Plus => js "+"
  | Minus => js "-"
  end.

Definition signed (s : sign) (n : Z) : Z :=
  match s with
  | Minus => - n
  | _ => n
  end.

(** After white space and the sign [sg], the text [rest] does not
    start a number: it does not go on with a digit, nor, where no sign
    was read, with more white space or a sign. *)
Definition no_number_ahead (sg : sign) (rest : jsstring) : bool :=
  no_digit_ahead rest
  && match sg with
     | Unsigned =>
         negb (starts_with (fun c => is_ws c || (c =? 43)%N || (c =? 45)%N) rest)
     | _ => true
     end.

(** The limit a number gives: the fallback when it is not positive,
    else the number, capped at the maximum. *)
Definition clamp (fallback max n : Z) : Z :=
  if n <=? 0 then fallback else Z.min n max.

(** How a limit is read off the request.  An absent or empty input
    gives the fallback.  Of a text, what counts is its start: white
    space, a sign, and the longest run of decimal digits, whatever
    follows; the number these denote is clamped, and a text that does
    not start this way gives the fallback.  The limit is positive and
    at most the maximum in every case. *)
Definition reads_limit (limit_of : Request -> completion Z) (fallback max : Z)
  : Prop :=
  (forall req, truthy (query_limit req) = false ->
               limit_of req = Returned fallback)
  /\ (forall req v ws sg ds rest,
         query_limit req = Some v ->
         toString v = Some (ws ++ sign_text sg ++ ds ++ rest) ->
         forallb is_ws ws = true ->
         ds <> [] -> forallb is_digit ds = true ->
         no_digit_ahead rest = true ->
         limit_of req = Returned (clamp fallback max (signed sg (decimal ds))))
  /\ (forall req v ws sg rest,
         query_limit req = Some v ->
         toString v = Some (ws ++ sign_text sg ++ rest) ->
         forallb is_ws ws = true ->
         no_number_ahead sg rest = true ->
         limit_of req = Returned fallback)
  /\ (forall req limit, limit_of req = Returned limit -> 0 < limit <= max).

(** A limit or an offset given in the plainest way: not at all, which
    stands for the default, or as the decimal text of an integer of
    magnitude up to 2^53. *)
Definition plain_number (o : option qval) (default n : Z) : Prop :=
  (o = None /\ n = default)
  \/ (o = Some (QStr (Z_chars n)) /\ Z.abs n <= safe_integer).

(** The window count as stated: distinct senders among the messages whose
    effective time is at least [now - hours * 3600]. *)
Definition in_window (now hours : Z) (m : message) : bool :=
  match effective_time m with
  | Some t => now - hours * 3600 <=? t
  | None => false
  end.

Definition window_unique_users (now hours : Z) (tbl : list message) : Z :=
  count_distinct_open_id (filter (in_window now hours) tbl).

(** The statement an endpoint hands to the driver, text and bound
    values.  The two schema endpoints issue a text without bound
    values; the table dump writes the doubled name and the two parsed
    numbers into it.  Every other endpoint issues the text of a
    statement shape, in which nothing of the request occurs, and binds
    the values of the request: the cutoff and the limit as numbers,
    roomId and openId as they came, each name or keyword between two
    [%]. *)
Definition statement_form (e : endpoint) (w : World) (req : Request) (i : issued)
  : Prop :=
  match e with
  | Tables => issued_sql i = sql_tables /\ issued_params i = []
  | Table =>
      exists limit offset,
        parseInt10 (or_default (query_limit req) (js "100")) = Returned limit
        /\ parseInt10 (or_default (query_offset req) (js "0")) = Returned offset
        /\ issued_sql i
           = js "SELECT * FROM " ++ [34%N] ++ safeName (params_name req) ++ [34%N]
             ++ js " LIMIT " ++ num_toString (huge_toString w) limit
             ++ js " OFFSET " ++ num_toString (huge_toString w) offset
        /\ issued_params i = []
  | HistoryCount => issued_sql i = render SCountAll /\ issued_params i = []
  | UniqueUsers => issued_sql i = render SCountUsers /\ issued_params i = []
  | UniqueUsers24h =>
      issued_sql i = render SCountUsersSince
      /\ issued_params i = [JNum (Date_now w / 1000 - 24 * 3600)]
  | TopUsers =>
      exists limit hours,
        top_users_limit req = Returned limit
        /\ top_users_hours req = Returned hours
        /\ issued_sql i = render STopUsers
        /\ issued_params i = [window_cutoff w hours; JNum limit]
  | MessagesRecent =>
      exists limit,
        recent_limit req = Returned limit
        /\ issued_sql i
           = render (SMessages (if truthy (query_roomId req) then WRoom else WAll))
        /\ issued_params i
           = map JQuery (supplied (query_roomId req)) ++ [JNum limit]
  | MessagesByUser =>
      exists limit,
        by_user_limit req = Returned limit
        /\ ((exists v, supplied (query_openId req) = [v]
                       /\ issued_sql i = render (SMessages WOpenId)
                       /\ issued_params i = [JQuery v; JNum limit])
            \/ (exists u t, supplied (query_openId req) = []
                            /\ supplied (query_uname req) = [u]
                            /\ toString u = Some t
                            /\ issued_sql i = render (SMessages WUname)
                            /\ issued_params i
                               = [JStr (js "%" ++ t ++ js "%"); JNum limit]))
  | MessagesSearch =>
      exists limit k ks,
        search_limit req = Returned limit
        /\ normalize_keywords (keywordsRaw req) = Some (k :: ks)
        /\ issued_sql i
           = render (SMessages (WKeywords (truthy (query_roomId req))
                                          (List.length ks)))
        /\ issued_params i
           = map JQuery (supplied (query_roomId req))
             ++ map (fun x => JStr (js "%" ++ x ++ js "%")) (k :: ks)
             ++ [JNum limit]
  end.

(** The row of a sender group. *)
Definition top_row (l : list message) (k : group_key) : row :=
  RTopUser (snd k) (fst k) (group_count l k).

(** *** Sample data *)

Definition a_request : Request :=
  {| params_name := js "danmaku_messages";
     query_limit := None; query_offset := None; query_hours := None;
     query_roomId := None; query_openId := None; query_uname := None;
     query_keyword := None; query_keywords := None; query_q := None |}.

(** A query string that is given. *)
Definition given (s : string) : option string := Some s.

Definition opt (s : option string) : option qval :=
  option_map (fun t => QStr (js t)) s.

(** A request with the given query strings. *)
Definition a_query (limit offset hours roomId openId uname keyword : option string)
  : Request :=
  {| params_name := js "danmaku_messages";
     query_limit := opt limit; query_offset := opt offset;
     query_hours := opt hours; query_roomId := opt roomId;
     query_openId := opt openId; query_uname := opt uname;
     query_keyword := opt keyword; query_keywords := None; query_q := None |}.

(** A request with the given value under [limit] and nothing else. *)
Definition with_limit (v : qval) : Request :=
  {| params_name := js "danmaku_messages";
     query_limit := Some v; query_offset := None; query_hours := None;
     query_roomId := None; query_openId := None; query_uname := None;
     query_keyword := None; query_keywords := None; query_q := None |}.

(** A world with the store in place, or without it.  (The sample
    requests hold no number beyond 2^53: what the engine makes of such
    a number plays no part.) *)
Definition a_world (store_present : bool) (now_ms : Z) : World :=
  {| env_DB_PATH := None;
     cwd := js "/srv/app";
     DEFAULT_DB_PATH := js "/srv/danmaku.db";
     path_resolve := fun _ p => p;
     existsSync := fun _ => store_present;
     db_all := fun _ _ _ => SqlError (js "SQLITE_ERROR: no such table");
     Date_now := now_ms;
     huge_toString := fun _ => js "Infinity";
     inexact_cutoff := fun _ => None |}.

Definition a_message (i : Z) (sender body : string) (ts created : option Z) : message :=
  {| id := i;
     open_id := Some (js sender);
     uname := Some (js sender);
     msg := Some (js body);
     room_id := Some (js "7");
     timestamp := ts;
     created_at := created |}.

(* ===================================================================== *)
(** ** The dashboard's user search (the caller of GET /messages/by-user) *)
(* ===================================================================== *)

Module Dashboard.

(** The query [handleUserSearch] sends for the two input fields, or
    [None] when it sets the input error and sends nothing.  Both
    fields are trimmed; the query carries [limit=200] and either
    [openId] or [uname].  The query string written by URLSearchParams
    and its reading by the server's query parser are taken to be
    inverse to each other, so the server sees these values. *)
Definition handleUserSearch (searchOpenId searchUname : jsstring) : option Request :=
  let trimmedOpenId := trim searchOpenId in
  let trimmedUname := trim searchUname in
  match trimmedOpenId, trimmedUname with
  | [], [] => None
  | [], _ :: _ =>
      Some {| params_name := [];
              query_limit := Some (QStr (js "200")); query_offset := None;
              query_hours := None; query_roomId := None;
              query_openId := None;
              query_uname := Some (QStr trimmedUname);
              query_keyword := None; query_keywords := None; query_q := None |}
  | _ :: _, _ =>
      Some {| params_name := [];
              query_limit := Some (QStr (js "200")); query_offset := None;
              query_hours := None; query_roomId := None;
              query_openId := Some (QStr trimmedOpenId);
              query_uname := None;
              query_keyword := None; query_keywords := None; query_q := None |}
  end.

End Dashboard.

Import Dashboard.

(* ===================================================================== *)
(** ** Further vocabulary *)
(* ===================================================================== *)

(** The digits of a decimal number, most significant first. *)
Fixpoint uint_digits (u : Decimal.uint) : list Z :=
  match u with
  | Decimal.Nil => []
  | Decimal.D0 u' => 0 :: uint_digits u'
  | Decimal.D1 u' => 1 :: uint_digits u'
  | Decimal.D2 u' => 2 :: uint_digits u'
  | Decimal.D3 u' => 3 :: uint_digits u'
  | Decimal.D4 u' => 4 :: uint_digits u'
  | Decimal.D5 u' => 5 :: uint_digits u'
  | Decimal.D6 u' => 6 :: uint_digits u'
  | Decimal.D7 u' => 7 :: uint_digits u'
  | Decimal.D8 u' => 8 :: uint_digits u'
  | Decimal.D9 u' => 9 :: uint_digits u'
  end.

(** A request with other values under [keywords] and [q]. *)
Definition set_keywords_q (a b : option qval) (req : Request) : Request :=
  {| params_name := params_name req;
     query_limit := query_limit req;
     query_offset := query_offset req;
     query_hours := query_hours req;
     query_roomId := query_roomId req;
     query_openId := query_openId req;
     query_uname := query_uname req;
     query_keyword := query_keyword req;
     query_keywords := a;
     query_q := b |}.

(** The [messageCount] of a row, and the counts of a list of rows added
    up. *)
Definition message_count (r : row) : Z :=
  match r with
  | RTopUser _ _ n => n
  | _ => 0
  end.

Definition total_count (rows : list row) : Z :=
  fold_right (fun r acc => message_count r + acc) 0 rows.

(** A keyword as the normaliser leaves it: not empty, and not changed
    by trimming. *)
Definition normal_keyword (k : jsstring) : Prop := k <> [] /\ trim k = k.

(** The listing relation of two messages: the first is at least as
    recent as the second, both having an effective time. *)
Definition at_least_as_recent (a b : message) : Prop :=
  match effective_time a, effective_time b with
  | Some ta, Some tb => tb <= ta
  | _, _ => False
  end.

(** A world whose driver answers every statement the same way. *)
Definition a_driver_world (o : outcome) : World :=
  {| env_DB_PATH := Some (js "data/chat.db");
     cwd := js "/srv/app";
     DEFAULT_DB_PATH := js "/srv/danmaku.db";
     path_resolve := fun d p => d ++ js "/" ++ p;
     existsSync := fun _ => true;
     db_all := fun _ _ _ => o;
     Date_now := 1000000000;
     huge_toString := fun _ => js "Infinity";
     inexact_cutoff := fun _ => None |}.

#[local] Arguments N.eqb : simpl never.
#[local] Arguments N.leb : simpl never.
#[local] Arguments Z.mul : simpl never.
#[local] Arguments Z.add : simpl never.
#[local] Arguments Z.sub : simpl never.
#[local] Arguments Z.div : simpl never.
#[local] Arguments Z.leb : simpl never.
#[local] Arguments Z.ltb : simpl never.
(* ===================================================================== *)
(** ** Strings: basic facts *)
(* ===================================================================== *)


Lemma jsstring_eqb_refl (a : jsstring) : jsstring_eqb a a = true.
Proof.
  induction a as [|c a IH]; simpl; [reflexivity|].
  unfold char_eqb. now rewrite N.eqb_refl.
Qed.

Lemma jsstring_eqb_eq (a b : jsstring) : jsstring_eqb a b = true <-> a = b.
Proof.
  split.
  - revert b. induction a as [|x a IH]; intros [|y b]; simpl; try discriminate; auto.
    unfold char_eqb. intros H. apply andb_true_iff in H as [Hx Hab].
    apply N.eqb_eq in Hx. subst. f_equal. now apply IH.
  - intros ->. apply jsstring_eqb_refl.
Qed.

Lemma strip_app (p s : jsstring) : strip p (p ++ s) = Some s.
Proof.
  induction p as [|c p IH]; simpl; [reflexivity|].
  unfold char_eqb. now rewrite N.eqb_refl.
Qed.

Lemma safeName_app (a b : jsstring) : safeName (a ++ b) = safeName a ++ safeName b.
Proof. unfold safeName. apply flat_map_app. Qed.

Lemma safeName_no_quote (s : jsstring) :
  existsb (N.eqb 34) s = false -> safeName s = s.
Proof.
  induction s as [|c s IH]; simpl; [reflexivity|].
  intros H. apply orb_false_iff in H as [Hc Hs].
  unfold char_eqb. rewrite N.eqb_sym, Hc. simpl. now rewrite IH.
Qed.

(** The tokenizer reads back what [safeName] wrote, whatever follows the
    closing quote, as long as that is not one more quote. *)
Lemma scan_quoted_safeName (name tail : jsstring) :
  hd 0%N tail <> 34%N ->
  scan_quoted (safeName name ++ 34%N :: tail)
  = if existsb (N.eqb 0) name then None else Some (name, tail).
Proof.
  intros Htail. induction name as [|c name IH].
  - simpl. destruct tail as [|d tail']; [reflexivity|].
    simpl in Htail. apply N.eqb_neq in Htail. now rewrite Htail.
  - change (safeName (c :: name))
      with ((if char_eqb c 34%N then [34%N; 34%N] else [c]) ++ safeName name).
    unfold char_eqb. destruct (N.eqb_spec c 34) as [->|Hq].
    + simpl. rewrite IH. simpl. now destruct (existsb (N.eqb 0) name).
    + destruct (N.eqb_spec c 0) as [->|Hz].
      * reflexivity.
      * simpl. apply N.eqb_neq in Hz, Hq. rewrite Hz, Hq, IH.
        rewrite N.eqb_sym, Hz. simpl. now destruct (existsb (N.eqb 0) name).
Qed.

(** *** split, trim *)

Lemma split_nonempty (sep : char) (s : jsstring) : split sep s <> [].
Proof.
  induction s as [|c s IH]; simpl; [discriminate|].
  destruct (char_eqb c sep); [discriminate|].
  destruct (split sep s); [contradiction|discriminate].
Qed.

Lemma join_cons_cons (sep x y : jsstring) (l : list jsstring) :
  join sep (x :: y :: l) = x ++ sep ++ join sep (y :: l).
Proof. reflexivity. Qed.

(** Splitting loses nothing: joining the entries with the separator
    gives the text back. *)
Lemma join_split (sep : char) (s : jsstring) : join [sep] (split sep s) = s.
Proof.
  induction s as [|c s IH]; [reflexivity|].
  simpl split. unfold char_eqb. destruct (N.eqb_spec c sep) as [->|Hc].
  - pose proof (split_nonempty sep s) as Hne.
    destruct (split sep s) as [|h t]; [contradiction|].
    rewrite join_cons_cons, IH. reflexivity.
  - pose proof (split_nonempty sep s) as Hne.
    destruct (split sep s) as [|h t]; [contradiction|].
    destruct t as [|h' t].
    + simpl in *. now rewrite IH.
    + rewrite join_cons_cons. rewrite join_cons_cons in IH.
      rewrite <- IH. reflexivity.
Qed.

(** No entry contains the separator. *)
Lemma split_no_sep (sep : char) (s : jsstring) :
  Forall (fun e => ~ In sep e) (split sep s).
Proof.
  induction s as [|c s IH]; simpl.
  - constructor; [intros []|constructor].
  - unfold char_eqb. destruct (N.eqb_spec c sep) as [->|Hc].
    + constructor; [intros []|assumption].
    + destruct (split sep s) as [|h t]; [repeat constructor; intros [?|[]]; congruence|].
      inversion IH; subst. constructor; [|assumption].
      intros [?|?]; [congruence|contradiction].
Qed.

Lemma trimStart_spec (s : jsstring) :
  exists a, s = a ++ trimStart s /\ forallb is_ws a = true
            /\ (forall c, hd_error (trimStart s) = Some c -> is_ws c = false).
Proof.
  induction s as [|c s (a & Ha & Hws & Hhd)].
  - exists []. repeat split. discriminate.
  - simpl. destruct (is_ws c) eqn:Hc.
    + exists (c :: a). simpl. rewrite Hc, Hws. repeat split; [congruence|assumption].
    + exists []. repeat split. simpl. now intros ? [= <-].
Qed.

(** What [trim] returns: the text between a run of white space at the
    start and one at the end, itself neither starting nor ending with
    white space. *)
Lemma trim_spec (s : jsstring) :
  exists a b, s = a ++ trim s ++ b
    /\ forallb is_ws a = true /\ forallb is_ws b = true
    /\ (forall c, hd_error (trim s) = Some c -> is_ws c = false)
    /\ (forall c, hd_error (rev (trim s)) = Some c -> is_ws c = false).
Proof.
  destruct (trimStart_spec s) as (a & Ha & Hwa & Hhd).
  destruct (trimStart_spec (rev (trimStart s))) as (b & Hb & Hwb & Hlast).
  unfold trim, trimEnd.
  set (t := trimStart s) in *. set (u := trimStart (rev t)) in *.
  assert (Ht : t = rev u ++ rev b).
  { rewrite <- rev_app_distr, <- Hb. now rewrite rev_involutive. }
  exists a, (rev b). repeat split.
  - rewrite Ha at 1. now rewrite Ht.
  - assumption.
  - rewrite forallb_forall in *. intros x Hx. apply Hwb. now apply in_rev.
  - intros c Hc. destruct (rev u) as [|x r] eqn:E; [discriminate|].
    simpl in Hc. injection Hc as ->.
    apply Hhd. rewrite Ht. reflexivity.
  - intros c Hc. rewrite rev_involutive in Hc. now apply Hlast.
Qed.

Lemma map_trim_strings (l : list jsstring) :
  map_trim (map QStr l) = Some (map trim l).
Proof. induction l as [|s l IH]; simpl; [reflexivity|now rewrite IH]. Qed.

(* ===================================================================== *)
(** ** The statement texts and their reading *)
(* ===================================================================== *)

Lemma sql_messages_text (where_line : jsstring) :
  sql_messages where_line = text_messages_head ++ where_line ++ text_messages_tail.
Proof. reflexivity. Qed.

Lemma recognise_messages (x : jsstring) :
  recognise (text_messages_head ++ x) = option_map SMessages (read_where x).
Proof. reflexivity. Qed.

Lemma read_where_group (room : bool) (y : jsstring) :
  read_where (js "WHERE " ++ (if room then js "room_id = ? AND " else [])
              ++ (js "(" ++ text_like_msg) ++ y)
  = option_map (WKeywords room) (read_terms (S (List.length y)) y).
Proof. destruct room; reflexivity. Qed.

Lemma join_repeat (sep x : jsstring) (n : nat) :
  join sep (repeat x (S n)) = x ++ List.concat (repeat (sep ++ x) n).
Proof.
  induction n as [|n IH].
  - simpl. now rewrite app_nil_r.
  - change (repeat x (S (S n))) with (x :: x :: repeat x n).
    rewrite join_cons_cons.
    change (x :: repeat x n) with (repeat x (S n)). rewrite IH.
    simpl. now rewrite <- !app_assoc.
Qed.

Lemma more_terms_S (n : nat) :
  more_terms (S n) = js " OR " ++ text_like_msg ++ more_terms n.
Proof.
  unfold more_terms.
  change (repeat (js " OR " ++ text_like_msg) (S n))
    with ((js " OR " ++ text_like_msg) :: repeat (js " OR " ++ text_like_msg) n).
  rewrite concat_cons, <- !app_assoc. reflexivity.
Qed.

Lemma more_terms_length (n : nat) : (n <= List.length (more_terms n))%nat.
Proof.
  induction n as [|n IH]; [apply Nat.le_0_l|].
  rewrite more_terms_S, !length_app.
  change (List.length (js " OR ")) with 4%nat.
  lia.
Qed.

Lemma read_terms_S (fuel : nat) (s : jsstring) :
  read_terms (S fuel) s =
  match strip (js " OR ") s with
  | Some r =>
      match strip text_like_msg r with
      | Some r' => option_map S (read_terms fuel r')
      | None => None
      end
  | None => if jsstring_eqb s (js ")" ++ text_messages_tail) then Some O else None
  end.
Proof. reflexivity. Qed.

Lemma read_terms_more (n fuel : nat) :
  (n < fuel)%nat -> read_terms fuel (more_terms n) = Some n.
Proof.
  revert fuel. induction n as [|n IH]; intros [|fuel] H; try lia.
  - reflexivity.
  - rewrite read_terms_S, more_terms_S, !strip_app, IH by lia. reflexivity.
Qed.

Lemma render_keywords (room : bool) (n : nat) :
  render_where (WKeywords room n) ++ text_messages_tail
  = js "WHERE " ++ (if room then js "room_id = ? AND " else [])
    ++ (js "(" ++ text_like_msg) ++ more_terms n.
Proof.
  unfold render_where, more_terms. rewrite join_repeat.
  now rewrite <- !app_assoc.
Qed.

(** Reading a statement text gives back the shape it was written from. *)
Lemma recognise_render (q : statement) : recognise (render q) = Some q.
Proof.
  destruct q as [| | | |w]; try reflexivity.
  unfold render. rewrite recognise_messages.
  destruct w as [| | | |room n]; try reflexivity.
  rewrite render_keywords, read_where_group, read_terms_more; [reflexivity|].
  pose proof (more_terms_length n). lia.
Qed.

Lemma recent_sql_render (req : Request) :
  recent_sql req
  = render (SMessages (if truthy (query_roomId req) then WRoom else WAll)).
Proof.
  unfold recent_sql, recent_where, recent_clauses. rewrite sql_messages_text.
  destruct (query_roomId req) as [v|]; [|reflexivity].
  destruct (truthy (Some v)); reflexivity.
Qed.

Lemma by_user_sql_render :
  by_user_sql (js "open_id = ?") = render (SMessages WOpenId)
  /\ by_user_sql (js "uname LIKE ? COLLATE NOCASE") = render (SMessages WUname).
Proof. split; reflexivity. Qed.

Lemma search_sql_render (roomId : option qval) (k : jsstring) (ks : list jsstring) :
  search_sql roomId (k :: ks)
  = render (SMessages (WKeywords (truthy roomId) (List.length ks))).
Proof.
  unfold search_sql, search_where. rewrite sql_messages_text.
  unfold render, render_where. f_equal.
  assert (E : map (fun _ : jsstring => js "msg LIKE ? COLLATE NOCASE") (k :: ks)
              = repeat text_like_msg (S (List.length ks))).
  { simpl. f_equal. induction ks as [|x ks IH]; simpl; [reflexivity|now rewrite IH]. }
  rewrite E. destruct (truthy roomId); now rewrite <- ?app_assoc.
Qed.

(** *** Running a statement on the SQLite world *)

Lemma sqlite_all_render (other : jsstring -> list jsval -> outcome)
    (tbl : list message) (q : statement) (params : list jsval) (o : outcome) :
  eval tbl q (map bind params) = Some o ->
  sqlite_all other tbl (render q) params = o.
Proof. intros H. unfold sqlite_all. now rewrite recognise_render, H. Qed.

Lemma all_sqlite (w : World) (tbl : list message) (path : jsstring)
    (q : statement) (params : list jsval) (rows : list row) :
  existsSync w path = true ->
  eval tbl q (map bind params) = Some (Rows rows) ->
  all (sqlite_world w tbl) path (render q) params
  = (Resolved rows,
     [{| issued_path := path; issued_sql := render q; issued_params := params |}]).
Proof.
  intros He Hq. unfold all. simpl. rewrite He. simpl.
  now rewrite (sqlite_all_render _ _ _ _ _ Hq).
Qed.

Lemma all_missing (w : World) (path sql : jsstring) (params : list jsval) :
  existsSync w path = false ->
  all w path sql params = (Rejected (js "DB file not found: " ++ path), []).
Proof. intros H. unfold all. now rewrite H. Qed.

Lemma resolveDbPath_sqlite (w : World) (tbl : list message) :
  resolveDbPath (sqlite_world w tbl) = resolveDbPath w.
Proof. reflexivity. Qed.

(* ===================================================================== *)
(** ** Ordering, truncation and pattern matching in the engine *)
(* ===================================================================== *)

Section SortFacts.
Context {A : Type} (gt : A -> A -> bool).

Lemma insert_desc_perm (x : A) (l : list A) :
  Permutation (insert_desc gt x l) (x :: l).
Proof.
  induction l as [|y l IH]; simpl; [reflexivity|].
  destruct (gt y x); [|reflexivity].
  rewrite IH. apply perm_swap.
Qed.

Lemma sort_desc_perm (l : list A) : Permutation (sort_desc gt l) l.
Proof.
  induction l as [|x l IH]; simpl; [reflexivity|].
  rewrite insert_desc_perm. now constructor.
Qed.

Lemma sort_desc_In (l : list A) (x : A) : In x (sort_desc gt l) <-> In x l.
Proof.
  split; apply Permutation_in; [|symmetry]; apply sort_desc_perm.
Qed.
End SortFacts.

Section SortByInteger.
Context {A : Type} (f : A -> Z).

Lemma insert_desc_sorted (x : A) (l : list A) :
  StronglySorted (fun a b => f b <= f a) l ->
  StronglySorted (fun a b => f b <= f a) (insert_desc (fun a b => f a >? f b) x l).
Proof.
  induction 1 as [|y l Hs IH Hy]; simpl.
  - repeat constructor.
  - destruct (Z.gtb_spec (f y) (f x)) as [Hgt|Hle].
    + constructor; [assumption|].
      rewrite Forall_forall in *. intros z Hz.
      apply (Permutation_in _ (insert_desc_perm _ x l)) in Hz.
      destruct Hz as [<-|Hz]; [lia|now apply Hy].
    + constructor; [now constructor|].
      constructor; [assumption|].
      rewrite Forall_forall in *. intros z Hz. specialize (Hy z Hz). lia.
Qed.

Lemma sort_desc_sorted (l : list A) :
  StronglySorted (fun a b => f b <= f a) (sort_desc (fun a b => f a >? f b) l).
Proof.
  induction l as [|x l IH]; simpl; [constructor|].
  now apply insert_desc_sorted.
Qed.
End SortByInteger.

Lemma insert_desc_ext {A : Type} (g1 g2 : A -> A -> bool) (x : A) (l : list A) :
  (forall y, In y l -> g1 y x = g2 y x) ->
  insert_desc g1 x l = insert_desc g2 x l.
Proof.
  induction l as [|y l IH]; intros H; simpl; [reflexivity|].
  rewrite (H y (or_introl eq_refl)).
  destruct (g2 y x); [|reflexivity].
  f_equal. apply IH. intros z Hz. apply H. now right.
Qed.

Lemma sort_desc_ext {A : Type} (g1 g2 : A -> A -> bool) (l : list A) :
  (forall a b, In a l -> In b l -> g1 a b = g2 a b) ->
  sort_desc g1 l = sort_desc g2 l.
Proof.
  induction l as [|x l IH]; intros H; simpl; [reflexivity|].
  rewrite IH by (intros; apply H; now right).
  apply insert_desc_ext. intros y Hy.
  apply H; [right; now apply (sort_desc_In g2)|now left].
Qed.

Lemma apply_limit_firstn {A : Type} (n : Z) (l : list A) :
  0 <= n -> apply_limit n l = firstn (Z.to_nat n) l.
Proof.
  intros H. unfold apply_limit.
  destruct (Z.ltb_spec n 0); [lia|reflexivity].
Qed.

Lemma apply_limit_length {A : Type} (n : Z) (l : list A) :
  0 <= n -> Z.of_nat (List.length (apply_limit n l)) <= n.
Proof.
  intros H. rewrite apply_limit_firstn, length_firstn by assumption. lia.
Qed.

(** *** LIKE *)

Lemma like_percent (p s : jsstring) :
  like (37%N :: p) s
  = like p s || match s with [] => false | _ :: t => like (37%N :: p) t end.
Proof. destruct s; reflexivity. Qed.

Lemma like_plain (c : char) (p s : jsstring) :
  (c =? 37)%N = false ->
  like (c :: p) s
  = match s with
    | [] => false
    | d :: s' => ((c =? 95)%N || (fold_case c =? fold_case d)%N) && like p s'
    end.
Proof. intros H. simpl. now rewrite H. Qed.

Lemma like_any (s : jsstring) : like [37%N] s = true.
Proof.
  induction s as [|c s IH]; [reflexivity|].
  rewrite like_percent. rewrite IH. apply orb_true_r.
Qed.

Lemma like_prefix (k s : jsstring) :
  wildcard_free k = true -> like (k ++ [37%N]) s = ci_prefix k s.
Proof.
  revert s. induction k as [|c k IH]; intros s Hk.
  - simpl app. rewrite like_any. now destruct s.
  - simpl in Hk. apply andb_true_iff in Hk as [Hc Hk].
    apply negb_true_iff, orb_false_iff in Hc as [H37 H95].
    simpl app. rewrite like_plain by assumption.
    destruct s as [|d s]; [reflexivity|].
    rewrite H95, IH by assumption. reflexivity.
Qed.

(** With no wildcard in [k], the pattern [%k%] matches exactly the
    texts that contain [k], letters compared without case. *)
Lemma like_substring (k s : jsstring) :
  wildcard_free k = true ->
  like (js "%" ++ k ++ js "%") s = ci_substring k s.
Proof.
  intros Hk. change (js "%" ++ k ++ js "%") with (37%N :: k ++ [37%N]).
  induction s as [|c s IH].
  - rewrite like_percent, like_prefix by assumption. reflexivity.
  - rewrite like_percent, like_prefix, IH by assumption. reflexivity.
Qed.

(** *** Limits *)

Lemma parseLimit_range (raw : qval) (fallback max limit : Z) :
  0 < fallback <= max ->
  parseLimit raw fallback max = Returned limit -> 0 < limit <= max.
Proof.
  intros H. unfold parseLimit, Math_min.
  destruct (parseInt10 raw) as [[|n|n]|m]; intros [= <-]; try assumption;
    destruct (Z.leb_spec n 0); lia.
Qed.

Lemma parseInt10_default_empty (d : jsstring) (o : option qval) :
  truthy o = false -> or_default o d = QStr d.
Proof.
  unfold or_default. destruct o as [v|]; [|reflexivity]. now intros ->.
Qed.

Lemma or_default_truthy (d : jsstring) (v : qval) :
  truthy (Some v) = true -> or_default (Some v) d = v.
Proof. unfold or_default. now intros ->. Qed.

(* ===================================================================== *)

(* ===================================================================== *)
(** ** The handlers on the SQLite world *)
(* ===================================================================== *)

Lemma all_log (w : World) (path sql : jsstring) (params : list jsval) :
  snd (all w path sql params)
  = if existsSync w path
    then [{| issued_path := path; issued_sql := sql; issued_params := params |}]
    else [].
Proof.
  unfold all. destruct (existsSync w path); simpl; [|reflexivity].
  now destruct (db_all w path sql params).
Qed.

Lemma answer_log (p : settled (list row) * list issued) (k : list row -> body) :
  snd (answer p k) = snd p.
Proof. unfold answer. now destruct (fst p). Qed.

Lemma answer_missing (w : World) (path sql : jsstring) (params : list jsval)
    (k : list row -> body) :
  existsSync w path = false ->
  answer (all w path sql params) k
  = (fail 500 (BError (js "DB file not found: " ++ path)), []).
Proof. intros H. now rewrite (all_missing _ _ _ _ H). Qed.

Lemma answer_sqlite (w : World) (tbl : list message) (path : jsstring)
    (q : statement) (params : list jsval) (rows : list row) (k : list row -> body) :
  existsSync w path = true ->
  eval tbl q (map bind params) = Some (Rows rows) ->
  answer (all (sqlite_world w tbl) path (render q) params) k
  = (ok (k rows),
     [{| issued_path := path; issued_sql := render q; issued_params := params |}]).
Proof. intros He Hq. now rewrite (all_sqlite _ _ _ _ _ _ He Hq). Qed.

Lemma supplied_some (o : option qval) (v : qval) :
  supplied o = [v] -> o = Some v /\ truthy o = true.
Proof.
  unfold supplied. destruct o as [x|]; [|discriminate].
  destruct (truthy (Some x)); [|discriminate]. now intros [= ->].
Qed.

Lemma supplied_none (o : option qval) : supplied o = [] -> truthy o = false.
Proof.
  unfold supplied. destruct o as [x|]; [|reflexivity].
  now destruct (truthy (Some x)).
Qed.

Lemma supplied_truthy (o : option qval) :
  truthy o = true -> exists v, o = Some v /\ supplied o = [v].
Proof.
  unfold supplied. destruct o as [x|]; [|discriminate].
  intros ->. now exists x.
Qed.

Lemma supplied_falsy (o : option qval) : truthy o = false -> supplied o = [].
Proof. unfold supplied. destruct o as [x|]; [now intros ->|reflexivity]. Qed.

Lemma room_matches_sql (roomId : qval) (m : message) :
  truthy (Some roomId) = true ->
  sql_eq (room_id m) (VText (bound_text roomId)) = room_matches (Some roomId) m.
Proof. intros H. unfold room_matches. rewrite H. reflexivity. Qed.

Lemma room_matches_falsy (roomId : option qval) (m : message) :
  truthy roomId = false -> room_matches roomId m = true.
Proof. unfold room_matches. destruct roomId; [now intros ->|reflexivity]. Qed.

(** GET /messages/recent with the store in place. *)
Lemma recent_on_sqlite (w : World) (tbl : list message) (req : Request) (limit : Z) :
  existsSync w (resolveDbPath w) = true ->
  recent_limit req = Returned limit ->
  get_messages_recent (sqlite_world w tbl) req
  = (ok (BMessages
           (map RMessage
              (apply_limit limit
                 (order_by_effective_desc
                    (filter (room_matches (query_roomId req)) tbl))))
           limit),
     [{| issued_path := resolveDbPath w;
         issued_sql := recent_sql req;
         issued_params := recent_params req limit |}]).
Proof.
  intros He Hl. unfold get_messages_recent. rewrite Hl. cbn [caught].
  rewrite resolveDbPath_sqlite, recent_sql_render.
  unfold recent_params, recent_clauses.
  destruct (query_roomId req) as [v|] eqn:Ev.
  - destruct (truthy (Some v)) eqn:Ht; cbn [snd app].
    + erewrite answer_sqlite; [|assumption|reflexivity].
      unfold listing. erewrite filter_ext; [reflexivity|].
      intros m. now apply room_matches_sql.
    + erewrite answer_sqlite; [|assumption|reflexivity].
      unfold listing. erewrite filter_ext; [reflexivity|].
      intros m. symmetry. now apply room_matches_falsy.
  - cbn [snd app truthy].
    erewrite answer_sqlite; [|assumption|reflexivity].
    reflexivity.
Qed.

(** GET /messages/by-user with the store in place: the branch by
    identifier. *)
Lemma by_user_open_id_on_sqlite (w : World) (tbl : list message) (req : Request)
    (v : qval) (limit : Z) :
  existsSync w (resolveDbPath w) = true ->
  by_user_limit req = Returned limit ->
  supplied (query_openId req) = [v] ->
  get_messages_by_user (sqlite_world w tbl) req
  = (ok (BMessages
           (map RMessage
              (apply_limit limit
                 (order_by_effective_desc
                    (filter (fun m => column_is (open_id m) v) tbl))))
           limit),
     [{| issued_path := resolveDbPath w;
         issued_sql := render (SMessages WOpenId);
         issued_params := [JQuery v; JNum limit] |}]).
Proof.
  intros He Hl Hv. apply supplied_some in Hv as [Hv Ht].
  unfold get_messages_by_user, by_user_where. rewrite Hl. cbn [caught].
  rewrite Ht, Hv. cbn [negb andb caught fst snd app].
  rewrite resolveDbPath_sqlite, (proj1 by_user_sql_render).
  erewrite answer_sqlite; [|assumption|reflexivity].
  reflexivity.
Qed.

(** The branch by name. *)
Lemma by_user_uname_on_sqlite (w : World) (tbl : list message) (req : Request)
    (u : qval) (t : jsstring) (limit : Z) :
  existsSync w (resolveDbPath w) = true ->
  by_user_limit req = Returned limit ->
  supplied (query_openId req) = [] ->
  supplied (query_uname req) = [u] ->
  toString u = Some t ->
  get_messages_by_user (sqlite_world w tbl) req
  = (ok (BMessages
           (map RMessage
              (apply_limit limit
                 (order_by_effective_desc
                    (filter (fun m => sql_like (uname m)
                                        (VText (js "%" ++ t ++ js "%"))) tbl))))
           limit),
     [{| issued_path := resolveDbPath w;
         issued_sql := render (SMessages WUname);
         issued_params := [JStr (js "%" ++ t ++ js "%"); JNum limit] |}]).
Proof.
  intros He Hl Ho Hu Ht. apply supplied_none in Ho.
  apply supplied_some in Hu as [Hu Htu].
  unfold get_messages_by_user. rewrite Hl. cbn [caught].
  rewrite Ho, Htu. cbn [negb andb].
  assert (Hw : by_user_where req
               = Returned (js "uname LIKE ? COLLATE NOCASE",
                           [JStr (js "%" ++ t ++ js "%")])).
  { unfold by_user_where, uname_pattern, String_of. rewrite Hu, Ht.
    destruct (query_openId req) as [o|]; [|reflexivity]. now rewrite Ho. }
  rewrite Hw. cbn [caught fst snd app].
  rewrite resolveDbPath_sqlite, (proj2 by_user_sql_render).
  erewrite answer_sqlite; [|assumption|reflexivity].
  reflexivity.
Qed.

(** GET /stats/top-users with the store in place. *)
Lemma top_users_on_sqlite (w : World) (tbl : list message) (req : Request)
    (limit : Z) (hours : jsnum) :
  existsSync w (resolveDbPath w) = true ->
  top_users_limit req = Returned limit ->
  top_users_hours req = Returned hours ->
  get_top_users (sqlite_world w tbl) req
  = (ok (BTopUsers hours limit
           (apply_limit limit
              (top_users
                 (filter (fun m => sql_ge (effective_expr m)
                                     (bind (window_cutoff w hours)))
                         tbl)))),
     [{| issued_path := resolveDbPath w;
         issued_sql := sql_top_users;
         issued_params := [window_cutoff w hours; JNum limit] |}]).
Proof.
  intros He Hl Hh. unfold get_top_users. rewrite Hl, Hh. cbn [caught].
  rewrite resolveDbPath_sqlite.
  change sql_top_users with (render STopUsers).
  change (window_cutoff (sqlite_world w tbl) hours) with (window_cutoff w hours).
  erewrite answer_sqlite; [|assumption|reflexivity].
  reflexivity.
Qed.

(** The cutoff of a window that the arithmetic keeps exact. *)
Lemma window_cutoff_exact (w : World) (hours : Z) :
  hours * 3600 <= exact_seconds ->
  window_cutoff w (Num hours) = JNum (cutoff_of w hours).
Proof.
  intros H. unfold window_cutoff.
  now destruct (Z.leb_spec (hours * 3600) exact_seconds); [|lia].
Qed.

Lemma unique_users_24h_on_sqlite (w : World) (tbl : list message) (req : Request) :
  existsSync w (resolveDbPath w) = true ->
  get_unique_users_24h (sqlite_world w tbl) req
  = (ok (BUniqueUsers24h
           (count_distinct_open_id
              (filter (fun m => sql_ge (effective_expr m) (VInt (cutoff_of w 24)))
                      tbl))),
     [{| issued_path := resolveDbPath w;
         issued_sql := sql_unique_users_24h;
         issued_params := [JNum (cutoff_of w 24)] |}]).
Proof.
  intros He. unfold get_unique_users_24h. rewrite resolveDbPath_sqlite.
  change sql_unique_users_24h with (render SCountUsersSince).
  change (cutoff_of (sqlite_world w tbl) 24) with (cutoff_of w 24).
  rewrite (answer_sqlite w tbl _ SCountUsersSince [JNum (cutoff_of w 24)]
             _ _ He eq_refl).
  reflexivity.
Qed.

Lemma search_params_bound (roomId : option qval) (ks : list jsstring) (limit : Z) :
  map bind (search_params roomId ks limit)
  = map (fun v => VText (bound_text v)) (supplied roomId)
    ++ map (fun k => VText (js "%" ++ k ++ js "%")) ks
    ++ [VInt limit].
Proof.
  unfold search_params. rewrite !map_app, map_map. f_equal.
  unfold supplied. destruct roomId as [r|]; [|reflexivity].
  now destruct (truthy (Some r)).
Qed.

Lemma search_eval (tbl : list message) (roomId : option qval)
    (k : jsstring) (ks : list jsstring) (limit : Z) :
  eval tbl (SMessages (WKeywords (truthy roomId) (List.length ks)))
       (map (fun v => VText (bound_text v)) (supplied roomId)
        ++ map (fun k => VText (js "%" ++ k ++ js "%")) (k :: ks)
        ++ [VInt limit])
  = Some (listing (search_matches roomId (k :: ks)) limit tbl).
Proof.
  unfold eval.
  rewrite app_assoc, rev_unit, rev_involutive.
  set (pats := map (fun k0 => VText (js "%" ++ k0 ++ js "%")) (k :: ks)).
  assert (Hlen : List.length pats = S (List.length ks)).
  { unfold pats. now rewrite length_map. }
  assert (Hex : forall m, existsb (sql_like (msg m)) pats
                = existsb (fun k0 => sql_like (msg m) (VText (js "%" ++ k0 ++ js "%")))
                          (k :: ks)).
  { intros m. unfold pats.
    generalize (k :: ks). intros l.
    induction l as [|x l IH]; [reflexivity|].
    cbn [existsb map]. rewrite IH. reflexivity. }
  unfold supplied.
  destruct roomId as [r|].
  - destruct (truthy (Some r)) eqn:Ht.
    + cbn [map app]. rewrite Hlen, Nat.eqb_refl. unfold listing.
      erewrite filter_ext; [reflexivity|].
      intros m. unfold search_matches.
      now rewrite <- (room_matches_sql r m Ht), Hex.
    + cbn [map app]. rewrite Hlen, Nat.eqb_refl. unfold listing.
      erewrite filter_ext; [reflexivity|].
      intros m. unfold search_matches.
      now rewrite room_matches_falsy, Hex.
  - cbn [map app truthy]. rewrite Hlen, Nat.eqb_refl. unfold listing.
    erewrite filter_ext; [reflexivity|].
    intros m. unfold search_matches. now rewrite Hex.
Qed.

Lemma search_on_sqlite (w : World) (tbl : list message) (req : Request)
    (k : jsstring) (ks : list jsstring) (limit : Z) :
  existsSync w (resolveDbPath w) = true ->
  search_limit req = Returned limit ->
  normalize_keywords (keywordsRaw req) = Some (k :: ks) ->
  get_messages_search (sqlite_world w tbl) req
  = (ok (BSearch (k :: ks) limit
           (map RMessage
              (apply_limit limit
                 (order_by_effective_desc
                    (filter (search_matches (query_roomId req) (k :: ks)) tbl))))),
     [{| issued_path := resolveDbPath w;
         issued_sql := search_sql (query_roomId req) (k :: ks);
         issued_params := search_params (query_roomId req) (k :: ks) limit |}]).
Proof.
  intros He Hl Hk. unfold get_messages_search. rewrite Hl. cbn [caught].
  rewrite Hk, resolveDbPath_sqlite.
  rewrite search_sql_render.
  erewrite answer_sqlite; [reflexivity|assumption|].
  rewrite search_params_bound. apply search_eval.
Qed.

(* ===================================================================== *)
(** ** Texts as the store sees them *)
(* ===================================================================== *)

(** Induction along the way [code_points] reads a text. *)
Lemma code_points_ind (P : jsstring -> Prop) :
  P [] ->
  (forall c, is_high c = true -> P [c]) ->
  (forall c d r, is_high c = true -> is_low d = true -> P r -> P (c :: d :: r)) ->
  (forall c d r, is_high c = true -> is_low d = false -> P (d :: r) ->
                 P (c :: d :: r)) ->
  (forall c r, is_high c = false -> P r -> P (c :: r)) ->
  forall s, P s.
Proof.
  intros Hnil Hone Hpair Hlone Hplain s.
  assert (H : forall n s, (List.length s <= n)%nat -> P s).
  { clear s. induction n as [|n IH]; intros s Hs.
    - destruct s; [exact Hnil|simpl in Hs; lia].
    - destruct s as [|c r]; [exact Hnil|].
      destruct (is_high c) eqn:Hc.
      + destruct r as [|d r']; [now apply Hone|].
        destruct (is_low d) eqn:Hd.
        * apply Hpair; try assumption. apply IH. simpl in Hs. lia.
        * apply Hlone; try assumption. apply IH. simpl in Hs. simpl. lia.
      + apply Hplain; [assumption|]. apply IH. simpl in Hs. lia. }
  now apply (H (List.length s)).
Qed.

(** Reading code points keeps a property that holds of the units, of
    U+FFFD and of every character beyond the Basic Multilingual
    Plane. *)
Lemma code_points_forallb (f : N -> bool) (k : jsstring) :
  f 65533%N = true ->
  (forall c, (65536 <= c)%N -> f c = true) ->
  forallb f k = true -> forallb f (code_points k) = true.
Proof.
  intros Hr Ha. induction k as [|c Hc|c d r Hc Hd IH|c d r Hc Hd IH|c r Hc IH]
    using code_points_ind; intros Hk.
  - reflexivity.
  - cbn [code_points]. rewrite Hc. cbn [forallb]. now rewrite Hr.
  - cbn [code_points]. rewrite Hc, Hd. cbn [forallb] in *.
    apply andb_true_iff in Hk as [_ Hk]. apply andb_true_iff in Hk as [_ Hk].
    rewrite (IH Hk), andb_true_r. apply Ha. lia.
  - change (code_points (c :: d :: r))
      with (if is_high c
            then if is_low d
                 then (65536 + (c - 55296) * 1024 + (d - 56320))%N :: code_points r
                 else 65533%N :: code_points (d :: r)
            else if is_low c then 65533%N :: code_points (d :: r)
                 else c :: code_points (d :: r)).
    rewrite Hc, Hd. cbn [forallb] in Hk. apply andb_true_iff in Hk as [_ Hk].
    cbn [forallb]. rewrite Hr. cbn [andb]. now apply IH.
  - change (code_points (c :: r))
      with (if is_high c
            then match r with
                 | d :: r' =>
                     if is_low d
                     then (65536 + (c - 55296) * 1024 + (d - 56320))%N :: code_points r'
                     else 65533%N :: code_points r
                 | [] => [65533%N]
                 end
            else if is_low c then 65533%N :: code_points r
                 else c :: code_points r).
    rewrite Hc. cbn [forallb] in Hk. apply andb_true_iff in Hk as [Hfc Hk].
    destruct (is_low c); cbn [forallb]; rewrite (IH Hk), andb_true_r;
      [exact Hr|exact Hfc].
Qed.

(** A text is read the same way in front of a text that does not start
    with the second half of a pair. *)
Lemma code_points_app (k r : jsstring) :
  starts_with is_low r = false ->
  code_points (k ++ r) = code_points k ++ code_points r.
Proof.
  intros Hr. induction k as [|c Hc|c d k Hc Hd IH|c d k Hc Hd IH|c k Hc IH]
    using code_points_ind.
  - reflexivity.
  - cbn [app code_points]. rewrite Hc.
    destruct r as [|d r']; [reflexivity|].
    cbn [starts_with] in Hr. rewrite Hr. reflexivity.
  - cbn [app code_points]. rewrite Hc, Hd. cbn [app]. now rewrite IH.
  - change ((c :: d :: k) ++ r) with (c :: (d :: k) ++ r).
    change (code_points (c :: d :: k))
      with (if is_high c
            then if is_low d
                 then (65536 + (c - 55296) * 1024 + (d - 56320))%N :: code_points k
                 else 65533%N :: code_points (d :: k)
            else if is_low c then 65533%N :: code_points (d :: k)
                 else c :: code_points (d :: k)).
    change (code_points (c :: (d :: k) ++ r))
      with (if is_high c
            then if is_low d
                 then (65536 + (c - 55296) * 1024 + (d - 56320))%N
                      :: code_points (k ++ r)
                 else 65533%N :: code_points ((d :: k) ++ r)
            else if is_low c then 65533%N :: code_points ((d :: k) ++ r)
                 else c :: code_points ((d :: k) ++ r)).
    rewrite Hc, Hd, IH. reflexivity.
  - destruct k as [|d k'].
    + cbn [app] in *.
      change (code_points [c]) with (if is_high c then [65533%N]
                                     else if is_low c then [65533%N] else [c]).
      change (code_points (c :: r))
        with (if is_high c
              then match r with
                   | d :: r' =>
                       if is_low d
                       then (65536 + (c - 55296) * 1024 + (d - 56320))%N
                            :: code_points r'
                       else 65533%N :: code_points r
                   | [] => [65533%N]
                   end
              else if is_low c then 65533%N :: code_points r
                   else c :: code_points r).
      rewrite Hc. now destruct (is_low c).
    + change ((c :: d :: k') ++ r) with (c :: (d :: k') ++ r).
      change (code_points (c :: (d :: k') ++ r))
        with (if is_high c
              then if is_low d
                   then (65536 + (c - 55296) * 1024 + (d - 56320))%N
                        :: code_points (k' ++ r)
                   else 65533%N :: code_points ((d :: k') ++ r)
              else if is_low c then 65533%N :: code_points ((d :: k') ++ r)
                   else c :: code_points ((d :: k') ++ r)).
      change (code_points (c :: d :: k'))
        with (if is_high c
              then if is_low d
                   then (65536 + (c - 55296) * 1024 + (d - 56320))%N
                        :: code_points k'
                   else 65533%N :: code_points (d :: k')
              else if is_low c then 65533%N :: code_points (d :: k')
                   else c :: code_points (d :: k')).
      rewrite Hc, IH. now destruct (is_low c).
Qed.

Lemma upto_nul_id (s : list N) :
  forallb (fun c => negb (c =? 0)%N) s = true -> upto_nul s = s.
Proof.
  induction s as [|c s IH]; [reflexivity|].
  cbn [forallb upto_nul]. intros H. apply andb_true_iff in H as [Hc Hs].
  apply negb_true_iff in Hc. rewrite Hc. now rewrite IH.
Qed.

Lemma upto_nul_app (s r : list N) :
  forallb (fun c => negb (c =? 0)%N) s = true ->
  upto_nul (s ++ r) = s ++ upto_nul r.
Proof.
  induction s as [|c s IH]; [reflexivity|].
  cbn [forallb upto_nul app]. intros H. apply andb_true_iff in H as [Hc Hs].
  apply negb_true_iff in Hc. rewrite Hc. now rewrite IH.
Qed.

Lemma forallb_impl {A : Type} (f g : A -> bool) (l : list A) :
  (forall a, f a = true -> g a = true) -> forallb f l = true -> forallb g l = true.
Proof.
  intros H. induction l as [|a l IH]; [reflexivity|].
  cbn [forallb]. intros Hl. apply andb_true_iff in Hl as [Ha Hl].
  now rewrite (H a Ha), IH.
Qed.

(** The pattern around a literal text, as LIKE reads it. *)
Lemma like_text_pattern (k : jsstring) :
  literal k = true ->
  like_text (js "%" ++ k ++ js "%") = 37%N :: code_points k ++ [37%N]
  /\ wildcard_free (code_points k) = true.
Proof.
  intros Hk. unfold literal in Hk.
  assert (Hcp : forallb (fun c => negb ((c =? 37)%N || (c =? 95)%N || (c =? 0)%N))
                        (code_points k) = true).
  { apply code_points_forallb; [reflexivity| |exact Hk].
    intros c Hc. apply negb_true_iff.
    repeat (apply orb_false_iff; split); apply N.eqb_neq; lia. }
  split.
  - unfold like_text. change (js "%" ++ k ++ js "%") with (37%N :: (k ++ [37%N])).
    change (code_points (37%N :: (k ++ [37%N])))
      with (37%N :: code_points (k ++ [37%N])).
    rewrite code_points_app by reflexivity.
    change (code_points [37%N]) with [37%N].
    cbn [upto_nul]. change (37 =? 0)%N with false. cbv iota. f_equal.
    rewrite upto_nul_app; [reflexivity|].
    revert Hcp. apply forallb_impl. intros a Ha.
    apply negb_true_iff in Ha. apply orb_false_iff in Ha as [_ Ha].
    now rewrite Ha.
  - revert Hcp. apply forallb_impl. intros a Ha.
    apply negb_true_iff in Ha. apply orb_false_iff in Ha as [Ha _].
    now rewrite Ha.
Qed.

(** With a literal text [k], the pattern [%k%] matches exactly the
    columns that contain [k]. *)
Lemma sql_like_contains (k : jsstring) (col : option jsstring) :
  literal k = true ->
  sql_like col (VText (js "%" ++ k ++ js "%")) = contains_text k col.
Proof.
  intros Hk. destruct col as [s|]; [|reflexivity].
  unfold sql_like, contains_text, as_text.
  destruct (like_text_pattern k Hk) as [-> Hw].
  now apply (like_substring (code_points k)).
Qed.

(* ===================================================================== *)
(** ** Numbers as parseInt reads them *)
(* ===================================================================== *)

Lemma trimStart_ws (ws s : jsstring) :
  forallb is_ws ws = true -> trimStart (ws ++ s) = trimStart s.
Proof.
  induction ws as [|c ws IH]; [reflexivity|].
  cbn [forallb app trimStart]. intros H. apply andb_true_iff in H as [-> H].
  now apply IH.
Qed.

Lemma is_digit_val (c : char) :
  is_digit c = true -> digit_val c = Some (Z.of_N c - 48).
Proof.
  unfold is_digit, digit_val. intros H. rewrite H. f_equal.
  apply andb_true_iff in H as [H _]. apply N.leb_le in H. lia.
Qed.

Lemma not_digit_val (c : char) : is_digit c = false -> digit_val c = None.
Proof. unfold is_digit, digit_val. now intros ->. Qed.

Lemma is_digit_plain (c : char) :
  is_digit c = true -> is_ws c = false /\ c <> 45%N /\ c <> 43%N.
Proof.
  unfold is_digit. intros H. apply andb_true_iff in H as [H1 H2].
  apply N.leb_le in H1. apply N.leb_le in H2.
  split; [|split; lia].
  unfold is_ws.
  repeat match goal with
         | |- _ || _ = false => apply orb_false_iff; split
         | |- _ && _ = false => apply andb_false_iff
         end;
    try (apply N.eqb_neq; lia);
    try (right; apply N.leb_gt; lia);
    try (left; apply N.leb_gt; lia).
Qed.

Lemma leading_digits_run (ds rest : jsstring) :
  forallb is_digit ds = true -> no_digit_ahead rest = true ->
  leading_digits (ds ++ rest) = map (fun c => Z.of_N c - 48) ds.
Proof.
  intros Hds Hrest. induction ds as [|c ds IH].
  - destruct rest as [|c rest]; [reflexivity|].
    unfold no_digit_ahead in Hrest. cbn [starts_with] in Hrest.
    apply negb_true_iff in Hrest. cbn [app leading_digits].
    now rewrite (not_digit_val c Hrest).
  - cbn [forallb] in Hds. apply andb_true_iff in Hds as [Hc Hds].
    cbn [app leading_digits map]. rewrite (is_digit_val c Hc). now rewrite IH.
Qed.

Lemma digits_value_decimal (ds : jsstring) :
  digits_value (map (fun c => Z.of_N c - 48) ds) = decimal ds.
Proof.
  unfold digits_value, decimal. generalize 0.
  induction ds as [|c ds IH]; intros acc; [reflexivity|].
  cbn [map fold_left]. apply IH.
Qed.

Lemma strip_sign_other (c : char) (r : jsstring) :
  c <> 45%N -> c <> 43%N -> strip_sign (c :: r) = (false, c :: r).
Proof.
  intros H45 H43. unfold strip_sign.
  destruct c as [|p]; [reflexivity|].
  repeat (destruct p as [p|p|]; try reflexivity; try congruence).
Qed.

(** The number at the start of a text. *)
Lemma parseInt_number (ws : jsstring) (sg : sign) (ds rest : jsstring) :
  forallb is_ws ws = true ->
  ds <> [] -> forallb is_digit ds = true ->
  no_digit_ahead rest = true ->
  parseInt (ws ++ sign_text sg ++ ds ++ rest)
  = double_of (signed sg (decimal ds)).
Proof.
  intros Hws Hne Hds Hrest. unfold parseInt.
  rewrite trimStart_ws by assumption.
  destruct ds as [|c ds]; [contradiction|].
  pose proof Hds as Hc. cbn [forallb] in Hc. apply andb_true_iff in Hc as [Hc _].
  destruct (is_digit_plain c Hc) as (Hcw & Hc45 & Hc43).
  assert (Hstrip : strip_sign (trimStart (sign_text sg ++ (c :: ds) ++ rest))
                   = (match sg with Minus => true | _ => false end,
                      (c :: ds) ++ rest)).
  { destruct sg; cbn [sign_text app].
    - cbn [trimStart]. rewrite Hcw. now apply strip_sign_other.
    - reflexivity.
    - reflexivity. }
  rewrite Hstrip. rewrite (leading_digits_run (c :: ds) rest Hds Hrest).
  cbn [map]. rewrite <- (digits_value_decimal (c :: ds)). cbn [map].
  assert (Hz : (if match sg with Minus => true | _ => false end then -1 else 1)
               * digits_value (Z.of_N c - 48 :: map (fun c0 => Z.of_N c0 - 48) ds)
               = signed sg (digits_value
                              (Z.of_N c - 48 :: map (fun c0 => Z.of_N c0 - 48) ds))).
  { destruct sg; unfold signed; lia. }
  rewrite Hz. reflexivity.
Qed.

(** A text that does not start with a number. *)
Lemma parseInt_no_number (ws : jsstring) (sg : sign) (rest : jsstring) :
  forallb is_ws ws = true ->
  no_number_ahead sg rest = true ->
  parseInt (ws ++ sign_text sg ++ rest) = NaN.
Proof.
  intros Hws Hrest. unfold parseInt.
  rewrite trimStart_ws by assumption.
  unfold no_number_ahead in Hrest. apply andb_true_iff in Hrest as [Hd Hs].
  assert (Hl : leading_digits rest = []).
  { destruct rest as [|c rest]; [reflexivity|].
    unfold no_digit_ahead in Hd. cbn [starts_with] in Hd.
    apply negb_true_iff in Hd. cbn [leading_digits].
    now rewrite (not_digit_val c Hd). }
  destruct sg; cbn [sign_text app].
  - apply negb_true_iff in Hs.
    destruct rest as [|c rest]; [reflexivity|].
    cbn [starts_with] in Hs.
    apply orb_false_iff in Hs as [Hs H45]. apply orb_false_iff in Hs as [Hw H43].
    cbn [trimStart]. rewrite Hw.
    apply N.eqb_neq in H45. apply N.eqb_neq in H43.
    rewrite (strip_sign_other c rest H45 H43), Hl. reflexivity.
  - change (trimStart (js "+" ++ rest)) with (43%N :: rest).
    cbn [strip_sign]. now rewrite Hl.
  - change (trimStart (js "-" ++ rest)) with (45%N :: rest).
    cbn [strip_sign]. now rewrite Hl.
Qed.

Lemma leading_digits_uint (u : Decimal.uint) :
  leading_digits (uint_chars u) = uint_digits u.
Proof.
  induction u; [reflexivity|..];
    cbn [uint_chars uint_digits]; rewrite <- IHu; reflexivity.
Qed.

Lemma digits_value_acc (u : Decimal.uint) (acc : positive) :
  fold_left (fun a d => 10 * a + d) (uint_digits u) (Z.pos acc)
  = Z.pos (Pos.of_uint_acc u acc).
Proof.
  revert acc. induction u; intros acc; cbn [uint_digits fold_left Pos.of_uint_acc];
    [reflexivity|..];
    rewrite <- IHu; f_equal; lia.
Qed.

Lemma digits_value_uint (u : Decimal.uint) :
  digits_value (uint_digits u) = Z.of_N (Pos.of_uint u).
Proof.
  unfold digits_value.
  induction u; cbn [uint_digits fold_left Pos.of_uint]; [reflexivity|exact IHu|..];
    cbn [Z.of_N]; rewrite <- digits_value_acc; f_equal.
Qed.

Lemma parseInt_unsigned (u : Decimal.uint) :
  u <> Decimal.Nil ->
  parseInt (uint_chars u) = double_of (Z.of_N (Pos.of_uint u))
  /\ parseInt (45%N :: uint_chars u) = double_of (- Z.of_N (Pos.of_uint u)).
Proof.
  intros Hu. unfold parseInt.
  assert (Ht : trimStart (uint_chars u) = uint_chars u) by (destruct u; reflexivity).
  assert (Hs : strip_sign (uint_chars u) = (false, uint_chars u))
    by (destruct u; reflexivity).
  change (trimStart (45%N :: uint_chars u)) with (45%N :: uint_chars u).
  change (strip_sign (45%N :: uint_chars u)) with (true, uint_chars u).
  rewrite Ht, Hs, leading_digits_uint, <- digits_value_uint.
  destruct (uint_digits u) as [|d ds] eqn:E.
  - destruct u; try discriminate. contradiction.
  - split; f_equal; lia.
Qed.

(** What [String(n)] writes, [parseInt] reads back. *)
Lemma parseInt_Z_chars (z : Z) : parseInt (Z_chars z) = double_of z.
Proof.
  unfold Z_chars. pose proof (DecimalZ.of_to z) as H.
  destruct z as [|p|p]; cbn [Z.to_int] in *.
  - reflexivity.
  - rewrite (proj1 (parseInt_unsigned _ (DecimalPos.Unsigned.to_uint_nonnil p))).
    exact (f_equal double_of H).
  - rewrite (proj2 (parseInt_unsigned _ (DecimalPos.Unsigned.to_uint_nonnil p))).
    exact (f_equal double_of H).
Qed.

Lemma double_of_safe (z : Z) : Z.abs z <= safe_integer -> double_of z = Num z.
Proof. intros H. unfold double_of. now destruct (Z.leb_spec (Z.abs z) safe_integer); [|lia]. Qed.

Lemma Z_chars_nonempty (z : Z) : Z_chars z <> [].
Proof.
  pose proof (parseInt_Z_chars z) as H. intros E. rewrite E in H.
  unfold double_of in H. change (parseInt []) with NaN in H.
  destruct (Z.abs z <=? safe_integer); discriminate.
Qed.

Lemma Z_chars_truthy (z : Z) : truthy (Some (QStr (Z_chars z))) = true.
Proof.
  pose proof (Z_chars_nonempty z) as H.
  destruct (Z_chars z); [contradiction|reflexivity].
Qed.

(* ===================================================================== *)
(** ** Properties of the service *)
(* ===================================================================== *)

Lemma listing_rows_bound (l : list message) (n : Z) :
  0 <= n -> Z.of_nat (List.length (map RMessage (apply_limit n l))) <= n.
Proof. intros H. rewrite length_map. now apply apply_limit_length. Qed.

Lemma issued_of_answer (w : World) (path sql : jsstring) (params : list jsval)
    (k : list row -> body) (P : issued -> Prop) :
  P {| issued_path := path; issued_sql := sql; issued_params := params |} ->
  Forall P (snd (answer (all w path sql params) k)).
Proof.
  intros H. rewrite answer_log, all_log.
  destruct (existsSync w path); repeat constructor. exact H.
Qed.

(** A limit or offset of the table dump that is absent, or a decimal
    number of magnitude up to 2^53, is read as that number. *)
Lemma plain_number_parsed (o : option qval) (d : jsstring) (default n : Z) :
  parseInt d = Num default ->
  plain_number o default n ->
  parseInt10 (or_default o d) = Returned (Num n).
Proof.
  intros Hd [[-> ->]|[-> Hn]].
  - unfold parseInt10. cbn. now rewrite Hd.
  - rewrite or_default_truthy by apply Z_chars_truthy.
    unfold parseInt10, String_of. cbn [toString].
    now rewrite parseInt_Z_chars, double_of_safe.
Qed.

(** C1: dump-a-table: every double quote of the supplied name is
    doubled and nothing else is changed; the statement issued is the
    fixed text [SELECT * FROM], the doubled name between double quotes,
    and the LIMIT/OFFSET tail with the two numbers read from the
    request (for a limit and an offset that are absent or plain
    decimals up to 2^53: these numbers in decimal); and SQLite's
    tokenizer reads that quoted text back as one identifier, the
    supplied name itself, followed by the untouched tail.  So no name,
    whatever quotes or SQL it carries, ends the identifier early.  (A
    name with a NUL character leaves the identifier unterminated: the
    statement is refused as a whole.) *)
Theorem C1_table_name_is_one_quoted_identifier :
  forall (w : World) (req : Request),
    let name := params_name req in
    (forall a b, safeName (a ++ [34%N] ++ b) = safeName a ++ [34%N; 34%N] ++ safeName b)
    /\ (forall s, existsb (N.eqb 34) s = false -> safeName s = s)
    /\ (forall limit offset,
          parseInt10 (or_default (query_limit req) (js "100")) = Returned limit ->
          parseInt10 (or_default (query_offset req) (js "0")) = Returned offset ->
          let tail := js " LIMIT " ++ num_toString (huge_toString w) limit
                      ++ js " OFFSET " ++ num_toString (huge_toString w) offset in
          Forall (fun i => issued_sql i
                           = js "SELECT * FROM " ++ [34%N] ++ safeName name
                             ++ [34%N] ++ tail)
                 (snd (get_table w req))
          /\ (existsSync w (resolveDbPath w) = true ->
              List.length (snd (get_table w req)) = 1%nat)
          /\ lex_quoted ([34%N] ++ safeName name ++ [34%N] ++ tail)
             = if existsb (N.eqb 0) name then None else Some (name, tail))
    /\ (forall n m,
          plain_number (query_limit req) 100 n ->
          plain_number (query_offset req) 0 m ->
          let tail := js " LIMIT " ++ Z_chars n ++ js " OFFSET " ++ Z_chars m in
          Forall (fun i => issued_sql i
                           = js "SELECT * FROM " ++ [34%N] ++ safeName name
                             ++ [34%N] ++ tail)
                 (snd (get_table w req))
          /\ (existsSync w (resolveDbPath w) = true ->
              List.length (snd (get_table w req)) = 1%nat)
          /\ lex_quoted ([34%N] ++ safeName name ++ [34%N] ++ tail)
             = if existsb (N.eqb 0) name then None else Some (name, tail)).
Proof.
  intros w req name.
  assert (Hgen : forall limit offset,
          parseInt10 (or_default (query_limit req) (js "100")) = Returned limit ->
          parseInt10 (or_default (query_offset req) (js "0")) = Returned offset ->
          let tail := js " LIMIT " ++ num_toString (huge_toString w) limit
                      ++ js " OFFSET " ++ num_toString (huge_toString w) offset in
          Forall (fun i => issued_sql i
                           = js "SELECT * FROM " ++ [34%N] ++ safeName name
                             ++ [34%N] ++ tail)
                 (snd (get_table w req))
          /\ (existsSync w (resolveDbPath w) = true ->
              List.length (snd (get_table w req)) = 1%nat)
          /\ lex_quoted ([34%N] ++ safeName name ++ [34%N] ++ tail)
             = if existsb (N.eqb 0) name then None else Some (name, tail)).
  { intros limit offset Hl Ho tail. split; [|split].
    - unfold get_table. rewrite Hl, Ho. cbn [caught].
      destruct (existsSync w (resolveDbPath w)) eqn:He; cbn [negb].
      + rewrite answer_log, all_log, He. constructor; [|constructor].
        reflexivity.
      + constructor.
    - intros He. unfold get_table. rewrite Hl, Ho. cbn [caught].
      rewrite He. cbn [negb]. now rewrite answer_log, all_log, He.
    - change ([34%N] ++ safeName name ++ [34%N] ++ tail)
        with (34%N :: (safeName name ++ 34%N :: tail)).
      unfold lex_quoted. rewrite N.eqb_refl.
      apply scan_quoted_safeName. discriminate. }
  split; [|split; [|split]].
  - intros a b. now rewrite !safeName_app.
  - apply safeName_no_quote.
  - exact Hgen.
  - intros n m Hn Hm.
    exact (Hgen (Num n) (Num m)
             (plain_number_parsed (query_limit req) (js "100") 100 n eq_refl Hn)
             (plain_number_parsed (query_offset req) (js "0") 0 m eq_refl Hm)).
Qed.

(** C3: with the store file missing, GET /stats/history-count answers
    with status 500 and the rejection message of [all] as the error,
    not with a 404; GET /tables, on the same world, answers 404 with the
    attempted path. *)
Theorem C3_missing_store_history_count_is_500 :
  get_history_count (a_world false 0) a_request
  = ({| status := 500;
        json := BError (js "DB file not found: /srv/danmaku.db") |}, [])
  /\ get_tables (a_world false 0) a_request
     = ({| status := 404; json := BDbNotFound (js "/srv/danmaku.db") |}, []).
Proof. split; reflexivity. Qed.

(** What each endpoint answers when the store file is missing, for a
    request whose parameters can be read. *)
Lemma missing_store_status (e : endpoint) (w : World) (req : Request) :
  existsSync w (resolveDbPath w) = false ->
  (forall v, In v (supplied (query_limit req) ++ supplied (query_offset req)
                   ++ supplied (query_hours req) ++ supplied (query_uname req)) ->
             toString v <> None) ->
  status (fst (handle e w req))
  = match e with
    | Tables | Table => 404
    | MessagesByUser =>
        if negb (truthy (query_openId req)) && negb (truthy (query_uname req))
        then 400 else 500
    | MessagesSearch =>
        match normalize_keywords (keywordsRaw req) with
        | Some [] => 400
        | _ => 500
        end
    | _ => 500
    end.
Proof.
  intros He Hconv.
  assert (Hp : forall o d, (forall v, In v (supplied o) -> toString v <> None) ->
                           exists n, parseInt10 (or_default o d) = Returned n).
  { intros o d Ho. unfold parseInt10, String_of, or_default, supplied in *.
    destruct o as [v|]; [|eexists; reflexivity].
    destruct (truthy (Some v)); [|eexists; reflexivity].
    destruct (toString v) eqn:E; [eexists; reflexivity|].
    exfalso. apply (Ho v); [now left|assumption]. }
  assert (Hlim : forall d f m, exists n,
             parseLimit (or_default (query_limit req) d) f m = Returned n).
  { intros d f m. unfold parseLimit.
    destruct (Hp (query_limit req) d) as [n ->].
    - intros v Hv. apply Hconv. apply in_or_app. now left.
    - destruct n; eexists; reflexivity. }
  destruct e; simpl handle.
  - unfold get_tables. now rewrite He.
  - unfold get_table.
    destruct (Hp (query_limit req) (js "100")) as [n ->].
    { intros v Hv. apply Hconv. apply in_or_app. now left. }
    destruct (Hp (query_offset req) (js "0")) as [m ->].
    { intros v Hv. apply Hconv. apply in_or_app. right. apply in_or_app. now left. }
    cbn [caught]. now rewrite He.
  - unfold get_history_count. now rewrite answer_missing.
  - unfold get_unique_users. now rewrite answer_missing.
  - unfold get_unique_users_24h. now rewrite answer_missing.
  - unfold get_top_users, top_users_limit, top_users_hours.
    destruct (Hlim (js "10") 10 100) as [n ->]. cbn [caught].
    destruct (parseHours (or_default (query_hours req) (js "24")) 24) as [h|m];
      cbn [caught]; [now rewrite answer_missing|reflexivity].
  - unfold get_messages_recent, recent_limit.
    destruct (Hlim (js "50") 50 200) as [n ->]. cbn [caught].
    now rewrite answer_missing.
  - unfold get_messages_by_user, by_user_limit.
    destruct (Hlim (js "100") 100 500) as [n ->]. cbn [caught].
    destruct (negb (truthy (query_openId req)) && negb (truthy (query_uname req)));
      [reflexivity|].
    destruct (by_user_where req) as [b|m]; cbn [caught];
      [now rewrite answer_missing|reflexivity].
  - unfold get_messages_search, search_limit.
    destruct (Hlim (js "100") 100 500) as [n ->]. cbn [caught].
    destruct (normalize_keywords (keywordsRaw req)) as [[|k ks]|];
      try reflexivity. now rewrite answer_missing.
Qed.

(** *** The limit *)

Lemma parseLimit_text (v : qval) (s : jsstring) (fallback max : Z) :
  toString v = Some s ->
  parseLimit v fallback max
  = Returned (match parseInt s with
              | NaN => fallback
              | Num n => if n <=? 0 then fallback else Math_min n max
              | Huge n => if n <=? 0 then fallback else max
              end).
Proof.
  unfold parseLimit, parseInt10, String_of. intros ->.
  destruct (parseInt s); reflexivity.
Qed.

Lemma toString_nonempty_truthy (v : qval) (s : jsstring) :
  toString v = Some s -> s <> [] -> truthy (Some v) = true.
Proof.
  intros Hv Hs. destruct v as [[|c t]|l|o]; try reflexivity.
  cbn in Hv. injection Hv as <-. contradiction.
Qed.

(** How [parseLimit] reads the limit of a request, for a default text
    that denotes the fallback. *)
Lemma parseLimit_reads (d : jsstring) (fallback max : Z) :
  0 < fallback <= max -> max <= safe_integer ->
  parseInt d = Num fallback ->
  reads_limit (fun req => parseLimit (or_default (query_limit req) d) fallback max)
              fallback max.
Proof.
  intros Hf Hmax Hd.
  assert (Hdef : parseLimit (QStr d) fallback max = Returned fallback).
  { rewrite (parseLimit_text (QStr d) d) by reflexivity. rewrite Hd.
    unfold Math_min. destruct (Z.leb_spec fallback 0); f_equal; lia. }
  split; [|split; [|split]].
  - intros req Ht. now rewrite parseInt10_default_empty.
  - intros req v ws sg ds rest Hv Hs Hws Hne Hds Hrest. rewrite Hv.
    rewrite or_default_truthy.
    + rewrite (parseLimit_text v _ fallback max Hs).
      rewrite parseInt_number by assumption.
      unfold double_of, clamp, Math_min.
      set (z := signed sg (decimal ds)).
      destruct (Z.leb_spec (Z.abs z) safe_integer);
        destruct (Z.leb_spec z 0); f_equal; lia.
    + apply (toString_nonempty_truthy v _ Hs).
      destruct ws; [|discriminate]. destruct sg; [|discriminate..].
      destruct ds; [contradiction|discriminate].
  - intros req v ws sg rest Hv Hs Hws Hrest. rewrite Hv.
    destruct (truthy (Some v)) eqn:Ht.
    + rewrite or_default_truthy by assumption.
      rewrite (parseLimit_text v _ fallback max Hs).
      now rewrite parseInt_no_number.
    + now rewrite parseInt10_default_empty.
  - intros req limit. now apply parseLimit_range.
Qed.

Lemma recent_rows_bound (w : World) (tbl : list message) (req : Request) :
  Z.of_nat (List.length
              (rows_sent (fst (get_messages_recent (sqlite_world w tbl) req))))
  <= 200.
Proof.
  destruct (recent_limit req) as [limit|m] eqn:Hl.
  - pose proof (parseLimit_range _ 50 200 limit ltac:(lia) Hl) as Hr.
    destruct (existsSync w (resolveDbPath w)) eqn:He.
    + rewrite (recent_on_sqlite w tbl req limit He Hl).
      unfold rows_sent. cbn [json fst ok].
      pose proof (listing_rows_bound
                    (order_by_effective_desc
                       (filter (room_matches (query_roomId req)) tbl)) limit
                    ltac:(lia)). lia.
    + unfold get_messages_recent. rewrite Hl. cbn [caught].
      rewrite answer_missing by exact He. simpl. lia.
  - unfold get_messages_recent. rewrite Hl. simpl. lia.
Qed.

Lemma by_user_rows_bound (w : World) (tbl : list message) (req : Request) :
  Z.of_nat (List.length
              (rows_sent (fst (get_messages_by_user (sqlite_world w tbl) req))))
  <= 500.
Proof.
  destruct (by_user_limit req) as [limit|m] eqn:Hl.
  - pose proof (parseLimit_range _ 100 500 limit ltac:(lia) Hl) as Hr.
    destruct (existsSync w (resolveDbPath w)) eqn:He.
    + destruct (truthy (query_openId req)) eqn:Ho.
      * destruct (supplied_truthy _ Ho) as (v & _ & Hv).
        rewrite (by_user_open_id_on_sqlite w tbl req v limit He Hl Hv).
        unfold rows_sent. cbn [json fst ok].
        pose proof (listing_rows_bound
                      (order_by_effective_desc
                         (filter (fun m => column_is (open_id m) v) tbl)) limit
                      ltac:(lia)). lia.
      * destruct (truthy (query_uname req)) eqn:Hu.
        -- destruct (supplied_truthy _ Hu) as (u & Hqu & Hsu).
           destruct (toString u) as [t|] eqn:Ht.
           ++ rewrite (by_user_uname_on_sqlite w tbl req u t limit He Hl
                         (supplied_falsy _ Ho) Hsu Ht).
              unfold rows_sent. cbn [json fst ok].
              pose proof (listing_rows_bound
                            (order_by_effective_desc
                               (filter (fun m => sql_like (uname m)
                                          (VText (js "%" ++ t ++ js "%"))) tbl))
                            limit ltac:(lia)). lia.
           ++ unfold get_messages_by_user. rewrite Hl. cbn [caught].
              rewrite Ho, Hu. cbn [negb andb].
              assert (Hw : by_user_where req = Thrown TypeError_primitive).
              { unfold by_user_where, uname_pattern, String_of. rewrite Hqu, Ht.
                destruct (query_openId req) as [o|]; [|reflexivity].
                now rewrite Ho. }
              rewrite Hw. simpl. lia.
        -- unfold get_messages_by_user. rewrite Hl. cbn [caught].
           rewrite Ho, Hu. simpl. lia.
    + unfold get_messages_by_user. rewrite Hl. cbn [caught].
      destruct (negb (truthy (query_openId req)) && negb (truthy (query_uname req)));
        [simpl; lia|].
      destruct (by_user_where req) as [b|m']; cbn [caught].
      * rewrite answer_missing by exact He. simpl. lia.
      * simpl. lia.
  - unfold get_messages_by_user. rewrite Hl. simpl. lia.
Qed.

Lemma top_users_rows_bound (w : World) (tbl : list message) (req : Request) :
  Z.of_nat (List.length
              (rows_sent (fst (get_top_users (sqlite_world w tbl) req))))
  <= 100.
Proof.
  destruct (top_users_limit req) as [limit|m] eqn:Hl.
  - pose proof (parseLimit_range _ 10 100 limit ltac:(lia) Hl) as Hr.
    destruct (top_users_hours req) as [hours|m] eqn:Hh.
    + destruct (existsSync w (resolveDbPath w)) eqn:He.
      * rewrite (top_users_on_sqlite w tbl req limit hours He Hl Hh).
        unfold rows_sent. cbn [json fst ok].
        pose proof (apply_limit_length limit
                      (top_users
                         (filter (fun m => sql_ge (effective_expr m)
                                             (bind (window_cutoff w hours))) tbl))
                      ltac:(lia)). lia.
      * unfold get_top_users. rewrite Hl, Hh. cbn [caught].
        rewrite answer_missing by exact He. simpl. lia.
    + unfold get_top_users. rewrite Hl, Hh. simpl. lia.
  - unfold get_top_users. rewrite Hl. simpl. lia.
Qed.

(** C4 (as amended): the limit of recent-messages, by-user and
    top-senders, with fallbacks 50, 100, 10 and maxima 200, 500, 100,
    is read off the start of the input as [parseInt] reads a number:
    white space, a sign, the longest run of decimal digits, whatever
    follows.  The fallback is used when the input is absent or empty,
    when it does not start with a number in this way, and when the
    number is not positive; else the number, capped at the maximum.
    The limit is bound to [LIMIT ?], so on any table the response
    carries at most the maximum number of rows. *)
Theorem C4_limit_fallback_and_clamp :
  reads_limit recent_limit 50 200
  /\ reads_limit by_user_limit 100 500
  /\ reads_limit top_users_limit 10 100
  /\ forall (w : World) (tbl : list message) (req : Request),
       Z.of_nat (List.length
                   (rows_sent (fst (get_messages_recent (sqlite_world w tbl) req))))
       <= 200
       /\ Z.of_nat (List.length
                      (rows_sent (fst (get_messages_by_user (sqlite_world w tbl) req))))
          <= 500
       /\ Z.of_nat (List.length
                      (rows_sent (fst (get_top_users (sqlite_world w tbl) req))))
          <= 100.
Proof.
  split; [|split; [|split]].
  - apply (parseLimit_reads (js "50") 50 200); [lia|unfold safe_integer; lia|reflexivity].
  - apply (parseLimit_reads (js "100") 100 500); [lia|unfold safe_integer; lia|reflexivity].
  - apply (parseLimit_reads (js "10") 10 100); [lia|unfold safe_integer; lia|reflexivity].
  - intros w tbl req. split; [apply recent_rows_bound|].
    split; [apply by_user_rows_bound|]. apply top_users_rows_bound.
Qed.

(** C4, refuted as stated: an input that is not a number does not
    always give the fallback, and a number is not always clamped as a
    number: the limit [12abc] of recent-messages is read as 12, not
    replaced by 50; the limit [1e3] of by-user is read as 1; and a limit
    that cannot be converted to a string ([?limit[toString]=x]) gives no
    fallback at all, the request is answered with status 500. *)
Lemma C4_counterexample :
  recent_limit (a_query (given "12abc") None None None None None None)
  = Returned 12
  /\ by_user_limit (a_query (given "1e3") None None None None None None)
     = Returned 1
  /\ get_messages_recent (a_world true 0) (with_limit (QObj true))
     = (fail 500 (BError (js "Cannot convert object to primitive value")), []).
Proof. repeat split. Qed.

(** *** Statement texts and bound values *)

Lemma question_marks_app (a b : jsstring) :
  question_marks (a ++ b) = (question_marks a + question_marks b)%nat.
Proof. apply count_occ_app. Qed.

Lemma question_marks_more_terms (n : nat) :
  question_marks (more_terms n) = S n.
Proof.
  induction n as [|n IH]; [reflexivity|].
  rewrite more_terms_S, !question_marks_app, IH. reflexivity.
Qed.

(** Every [?] of a statement text is a placeholder of its shape. *)
Lemma question_marks_render (q : statement) :
  question_marks (render q) = placeholders q.
Proof.
  destruct q as [| | | |w]; try reflexivity.
  destruct w as [| | | |room n]; try reflexivity.
  unfold render. rewrite render_keywords, !question_marks_app.
  rewrite question_marks_more_terms. destruct room; simpl; lia.
Qed.

Lemma supplied_length (o : option qval) :
  List.length (supplied o) = if truthy o then 1%nat else 0%nat.
Proof.
  unfold supplied. destruct o as [v|]; [|reflexivity].
  now destruct (truthy (Some v)).
Qed.

Lemma recent_params_supplied (req : Request) (limit : Z) :
  recent_params req limit = map JQuery (supplied (query_roomId req)) ++ [JNum limit].
Proof.
  unfold recent_params, recent_clauses, supplied.
  destruct (query_roomId req) as [v|]; [|reflexivity].
  now destruct (truthy (Some v)).
Qed.

Lemma search_params_supplied (roomId : option qval) (ks : list jsstring) (limit : Z) :
  search_params roomId ks limit
  = map JQuery (supplied roomId)
    ++ map (fun x => JStr (js "%" ++ x ++ js "%")) ks ++ [JNum limit].
Proof.
  unfold search_params, supplied.
  destruct roomId as [v|]; [|reflexivity]. now destruct (truthy (Some v)).
Qed.

(** The branch of GET /messages/by-user, when one is taken. *)
Lemma by_user_where_cases (req : Request) :
  negb (truthy (query_openId req)) && negb (truthy (query_uname req)) = false ->
  (exists v, supplied (query_openId req) = [v]
             /\ by_user_where req = Returned (js "open_id = ?", [JQuery v]))
  \/ (exists u, supplied (query_openId req) = []
                /\ supplied (query_uname req) = [u]
                /\ ((exists t, toString u = Some t
                               /\ by_user_where req
                                  = Returned (js "uname LIKE ? COLLATE NOCASE",
                                              [JStr (js "%" ++ t ++ js "%")]))
                    \/ (toString u = None
                        /\ by_user_where req = Thrown TypeError_primitive))).
Proof.
  intros Hb. destruct (truthy (query_openId req)) eqn:Ho.
  - left. destruct (supplied_truthy _ Ho) as (v & Hv & Hs).
    exists v. split; [exact Hs|]. unfold by_user_where. now rewrite Hv, <- Hv, Ho.
  - right. destruct (truthy (query_uname req)) eqn:Hu; [|discriminate].
    destruct (supplied_truthy _ Hu) as (u & Hqu & Hs).
    exists u. split; [now apply supplied_falsy|]. split; [exact Hs|].
    assert (Hw : forall r, match uname_pattern req with
                           | Returned p =>
                               Returned (js "uname LIKE ? COLLATE NOCASE", [JStr p])
                           | Thrown m => Thrown m
                           end = r -> by_user_where req = r).
    { intros r <-. unfold by_user_where.
      destruct (query_openId req) as [o|]; [|reflexivity]. now rewrite Ho. }
    unfold uname_pattern, String_of in Hw. rewrite Hqu in Hw.
    destruct (toString u) as [t|].
    + left. exists t. split; [reflexivity|]. now apply Hw.
    + right. split; [reflexivity|]. now apply Hw.
Qed.

(** In a statement over the message table there are as many [?] as
    bound values. *)
Lemma statement_form_placeholders (e : endpoint) (w : World) (req : Request)
    (i : issued) :
  statement_form e w req i -> e <> Table ->
  question_marks (issued_sql i) = List.length (issued_params i).
Proof.
  destruct e; cbn [statement_form]; intros H Hne.
  - destruct H as [-> ->]. reflexivity.
  - contradiction.
  - destruct H as [-> ->]. reflexivity.
  - destruct H as [-> ->]. reflexivity.
  - destruct H as [-> ->]. reflexivity.
  - destruct H as (limit & hours & _ & _ & -> & ->). reflexivity.
  - destruct H as (limit & _ & -> & ->).
    rewrite question_marks_render, length_app, length_map, supplied_length.
    now destruct (truthy (query_roomId req)).
  - destruct H as (limit & _ & [(v & _ & -> & ->)|(u & t & _ & _ & _ & -> & ->)]);
      reflexivity.
  - destruct H as (limit & k & ks & _ & _ & -> & ->).
    rewrite question_marks_render, !length_app, !length_map, supplied_length.
    destruct (truthy (query_roomId req)); reflexivity.
Qed.

(** The form of what each endpoint hands to the driver. *)
Lemma issued_statement_form (e : endpoint) (w : World) (req : Request) :
  Forall (statement_form e w req) (snd (handle e w req)).
Proof.
  destruct e; simpl handle; cbn [statement_form].
  - unfold get_tables. destruct (existsSync w (resolveDbPath w)); simpl;
      [|constructor]. apply issued_of_answer. now split.
  - unfold get_table.
    destruct (parseInt10 (or_default (query_limit req) (js "100")))
      as [limit|m] eqn:El; [|constructor].
    destruct (parseInt10 (or_default (query_offset req) (js "0")))
      as [offset|m] eqn:Eo; [|constructor].
    cbn [caught]. destruct (existsSync w (resolveDbPath w)); simpl;
      [|constructor]. apply issued_of_answer. exists limit, offset.
    repeat split; assumption.
  - apply issued_of_answer. now split.
  - apply issued_of_answer. now split.
  - apply issued_of_answer. now split.
  - unfold get_top_users.
    destruct (top_users_limit req) as [limit|m] eqn:El; [|constructor].
    destruct (top_users_hours req) as [hours|m] eqn:Eh; [|constructor].
    cbn [caught]. apply issued_of_answer. exists limit, hours.
    repeat split; assumption.
  - unfold get_messages_recent.
    destruct (recent_limit req) as [limit|m] eqn:El; [|constructor].
    cbn [caught]. apply issued_of_answer. exists limit.
    split; [exact El|]. cbn [issued_sql issued_params].
    split; [apply recent_sql_render|apply recent_params_supplied].
  - unfold get_messages_by_user.
    destruct (by_user_limit req) as [limit|m] eqn:El; [|constructor].
    cbn [caught].
    destruct (negb (truthy (query_openId req)) && negb (truthy (query_uname req)))
      eqn:Hb; [constructor|].
    destruct (by_user_where_cases req Hb)
      as [(v & Hv & ->)|(u & Ho & Hu & [(t & Ht & ->)|(_ & ->)])];
      cbn [caught fst snd app]; [| |constructor].
    + apply issued_of_answer. exists limit. split; [exact El|]. left.
      exists v. split; [exact Hv|].
      split; [exact (proj1 by_user_sql_render)|reflexivity].
    + apply issued_of_answer. exists limit. split; [exact El|]. right.
      exists u, t. split; [exact Ho|]. split; [exact Hu|]. split; [exact Ht|].
      split; [exact (proj2 by_user_sql_render)|reflexivity].
  - unfold get_messages_search.
    destruct (search_limit req) as [limit|m] eqn:El; [|constructor].
    cbn [caught].
    destruct (normalize_keywords (keywordsRaw req)) as [[|k ks]|] eqn:Hk;
      try constructor.
    apply issued_of_answer. exists limit, k, ks.
    split; [exact El|]. split; [exact Hk|].
    cbn [issued_sql issued_params].
    split; [apply search_sql_render|apply search_params_supplied].
Qed.

(** C2 (as amended): what each endpoint hands to the driver.  Over the
    message table the text is that of a statement shape: fixed SQL with
    the effective-time expression and one [?] per bound value, nothing
    of the request in it; the values of the request are bound: roomId
    and openId as they came, a name or keyword between two [%], the
    cutoff and the limit as numbers.  The schema listing is a constant.
    The table dump binds nothing: it writes the doubled name and the two
    numbers that parseInt read from limit and offset into the text. *)
Theorem C2_statement_text_and_bound_values :
  forall (e : endpoint) (w : World) (req : Request),
    Forall (fun i => statement_form e w req i
                     /\ (e <> Table ->
                         question_marks (issued_sql i)
                         = List.length (issued_params i)))
           (snd (handle e w req)).
Proof.
  intros e w req.
  eapply Forall_impl; [|apply issued_statement_form].
  intros i Hi. split; [exact Hi|]. now apply (statement_form_placeholders e w req).
Qed.

(** C2, refuted as stated: the table dump writes the limit and the
    offset of the request into the statement text and binds no value:
    with limit 5 and offset 7 the text ends in [LIMIT 5 OFFSET 7], and
    two requests for the same table that differ in the limit alone
    issue different texts. *)
Lemma C2_counterexample :
  snd (get_table (a_world true 0)
         (a_query (given "5") (given "7") None None None None None))
  = [{| issued_path := js "/srv/danmaku.db";
        issued_sql := js "SELECT * FROM " ++ [34%N] ++ js "danmaku_messages"
                      ++ [34%N] ++ js " LIMIT 5 OFFSET 7";
        issued_params := [] |}]
  /\ ~ (forall (w : World) (r1 r2 : Request),
          params_name r1 = params_name r2 ->
          map issued_sql (snd (get_table w r1))
          = map issued_sql (snd (get_table w r2))).
Proof.
  split; [reflexivity|].
  intros H.
  specialize (H (a_world true 0)
                (a_query (given "5") None None None None None None)
                (a_query (given "6") None None None None None None) eq_refl).
  vm_compute in H. discriminate H.
Qed.

(** *** The keyword list *)

(** C7: the keyword normaliser.  A single string is split on commas
    (the entries joined by commas are the string again, and no entry
    holds a comma); an array of strings is taken as it is; every entry
    is trimmed (white space removed at both ends and nowhere else) and
    the empty results are dropped, the rest keeping their order.  When
    nothing is left, the search endpoint runs no statement, and it
    answers 400 provided the limit of the request could be read.  The
    limit is read first: for a request without keywords whose limit
    cannot be converted to a string ([?limit[toString]=x]) the answer
    is status 500, a server error where a client error is due. *)
Theorem C7_keyword_list_normalizer :
  forall (w : World) (req : Request),
    (forall s, normalize_keywords (Some (QStr s))
               = Some (filter_nonempty (map trim (split 44%N s))))
    /\ (forall s, join (js ",") (split 44%N s) = s
                  /\ Forall (fun e => ~ In 44%N e) (split 44%N s))
    /\ (forall l, normalize_keywords (Some (QArr (map QStr l)))
                  = Some (filter_nonempty (map trim l)))
    /\ (forall l k, In k (filter_nonempty (map trim l))
                    <-> k <> [] /\ exists e, In e l /\ k = trim e)
    /\ (forall e, exists a b,
           e = a ++ trim e ++ b
           /\ forallb is_ws a = true /\ forallb is_ws b = true
           /\ (forall c, hd_error (trim e) = Some c -> is_ws c = false)
           /\ (forall c, hd_error (rev (trim e)) = Some c -> is_ws c = false))
    /\ (normalize_keywords (keywordsRaw req) = Some [] ->
        snd (get_messages_search w req) = []
        /\ (forall limit, search_limit req = Returned limit ->
              get_messages_search w req
              = (fail 400 (BError (js "Provide at least one keyword via keyword, keywords, or q query param.")),
                 [])))
    /\ (normalize_keywords (keywordsRaw (with_limit (QObj true))) = Some []
        /\ get_messages_search w (with_limit (QObj true))
           = (fail 500 (BError (js "Cannot convert object to primitive value")),
              [])).
Proof.
  intros w req. repeat match goal with |- _ /\ _ => split end.
  - intros s. unfold normalize_keywords, keyword_entries.
    now rewrite map_trim_strings.
  - intros s. split; [apply (join_split 44%N)|apply split_no_sep].
  - intros l. unfold normalize_keywords, keyword_entries.
    now rewrite map_trim_strings.
  - intros l k. unfold filter_nonempty. rewrite filter_In, in_map_iff. split.
    + intros [(e & He & Hin) Hk]. split.
      * intros ->. discriminate.
      * exists e. now split.
    + intros [Hk (e & Hin & He)]. split.
      * exists e. now split.
      * destruct k; [contradiction|reflexivity].
  - apply trim_spec.
  - intros H. split.
    + unfold get_messages_search. rewrite H.
      destruct (search_limit req); reflexivity.
    + intros limit Hl. unfold get_messages_search. now rewrite Hl, H.
  - reflexivity.
  - reflexivity.
Qed.

(** *** The two searches *)




(** C5 (as amended): GET /messages/by-user, for a request whose limit
    can be read, takes exactly one branch.  With a non-empty openId it
    issues one statement, [open_id = ?] bound to the openId, uname
    playing no part in the outcome, and the rows are the messages whose
    open_id is the text bound for it.  With no openId and a non-empty
    uname it issues one statement, [uname LIKE ? COLLATE NOCASE] bound
    to the pattern [%uname%]; the rows are the messages whose name
    matches that pattern, which for a uname without [%], [_] and NUL
    are the messages whose name contains it, letters A-Z compared
    without case.  With neither it answers 400 and issues nothing.  (In
    both branches the rows come in the order of the ORDER BY clause, cut
    at the limit.) *)
Theorem C5_by_user_takes_one_branch :
  forall (w : World) (tbl : list message) (req : Request) (limit : Z),
    by_user_limit req = Returned limit ->
    let path := resolveDbPath w in
    let rows := rows_sent (fst (get_messages_by_user (sqlite_world w tbl) req)) in
    let listed := fun keep => map RMessage
                                (apply_limit limit
                                   (order_by_effective_desc (filter keep tbl))) in
    (forall v, supplied (query_openId req) = [v] ->
       snd (get_messages_by_user w req)
       = (if existsSync w path
          then [{| issued_path := path;
                   issued_sql := sql_messages (js "WHERE open_id = ?");
                   issued_params := [JQuery v; JNum limit] |}]
          else [])
       /\ (forall u, get_messages_by_user w (set_uname u req)
                     = get_messages_by_user w req)
       /\ (existsSync w path = true ->
           rows = listed (fun m => column_is (open_id m) v)))
    /\ (forall u t, supplied (query_openId req) = [] ->
                    supplied (query_uname req) = [u] ->
                    toString u = Some t ->
       snd (get_messages_by_user w req)
       = (if existsSync w path
          then [{| issued_path := path;
                   issued_sql := sql_messages (js "WHERE uname LIKE ? COLLATE NOCASE");
                   issued_params := [JStr (js "%" ++ t ++ js "%"); JNum limit] |}]
          else [])
       /\ (existsSync w path = true ->
           rows = listed (fun m => sql_like (uname m)
                                     (VText (js "%" ++ t ++ js "%"))))
       /\ (literal t = true ->
           forall m, sql_like (uname m) (VText (js "%" ++ t ++ js "%"))
                     = contains_text t (uname m)))
    /\ (supplied (query_openId req) = [] -> supplied (query_uname req) = [] ->
        get_messages_by_user w req
        = (fail 400 (BError (js "Provide openId or uname query parameter.")), [])).
Proof.
  intros w tbl req limit Hl path rows listed. split; [|split].
  - intros v Hv. pose proof (supplied_some _ _ Hv) as [Hqv Ht].
    split; [|split].
    + unfold get_messages_by_user, by_user_where. rewrite Hl. cbn [caught].
      rewrite Ht, Hqv. cbn [negb andb caught fst snd app].
      rewrite answer_log, all_log. reflexivity.
    + intros u. unfold get_messages_by_user, by_user_where, by_user_limit.
      cbn [set_uname query_openId query_limit query_uname].
      fold (by_user_limit req). rewrite Hl. cbn [caught].
      rewrite Ht, Hqv. reflexivity.
    + intros He. unfold rows.
      now rewrite (by_user_open_id_on_sqlite w tbl req v limit He Hl Hv).
  - intros u t Ho Hu Ht.
    pose proof (supplied_none _ Ho) as Hfo.
    pose proof (supplied_some _ _ Hu) as [Hqu Htu].
    split; [|split].
    + unfold get_messages_by_user. rewrite Hl. cbn [caught].
      rewrite Hfo, Htu. cbn [negb andb].
      assert (Hw : by_user_where req
                   = Returned (js "uname LIKE ? COLLATE NOCASE",
                               [JStr (js "%" ++ t ++ js "%")])).
      { unfold by_user_where, uname_pattern, String_of. rewrite Hqu, Ht.
        destruct (query_openId req) as [o|]; [|reflexivity]. now rewrite Hfo. }
      rewrite Hw. cbn [caught fst snd app].
      rewrite answer_log, all_log. reflexivity.
    + intros He. unfold rows.
      now rewrite (by_user_uname_on_sqlite w tbl req u t limit He Hl Ho Hu Ht).
    + intros Hk m. now apply sql_like_contains.
  - intros Ho Hu. unfold get_messages_by_user. rewrite Hl. cbn [caught].
    now rewrite (supplied_none _ Ho), (supplied_none _ Hu).
Qed.

(** C5 at a request with both openId and uname: the rows are those of
    the identifier. *)
Lemma C5_witness :
  let w := a_world true 0 in
  let tbl := [a_message 1 "alice" "one" (Some 10) None;
              a_message 2 "bob" "two" (Some 20) None] in
  let req := a_query None None None None (given "alice") (given "bob") None in
  by_user_limit req = Returned 100
  /\ rows_sent (fst (get_messages_by_user (sqlite_world w tbl) req))
     = [RMessage (a_message 1 "alice" "one" (Some 10) None)].
Proof.
  intros w tbl req. split; [reflexivity|].
  rewrite (proj2 (proj2 (proj1 (C5_by_user_takes_one_branch w tbl req 100 eq_refl)
                           (QStr (js "alice")) eq_refl)) eq_refl).
  reflexivity.
Defined.

(** C5, refuted as stated: with only uname supplied the match is not
    a substring match: for uname [a_c] the message of the sender named
    [abc] is returned, and [abc] does not contain [a_c]. *)
Lemma C5_counterexample :
  ~ (forall (w : World) (tbl : list message) (req : Request)
            (u : jsstring) (m : message),
        existsSync w (resolveDbPath w) = true ->
        truthy (query_openId req) = false ->
        query_uname req = Some (QStr u) -> u <> [] ->
        In (RMessage m)
           (rows_sent (fst (get_messages_by_user (sqlite_world w tbl) req))) ->
        contains_ci u (uname m) = true).
Proof.
  intros H.
  specialize (H (a_world true 0)
                [a_message 1 "abc" "hello" (Some 10) None]
                (a_query None None None None None (given "a_c") None)
                (js "a_c")
                (a_message 1 "abc" "hello" (Some 10) None)
                eq_refl eq_refl eq_refl ltac:(discriminate)
                (or_introl eq_refl)).
  vm_compute in H. discriminate H.
Qed.





(** C10: the text of the request goes between two [%] into the LIKE
    pattern as it is, and [%] and [_] in it act as wildcards: the
    keyword [%] matches every message body and the pattern of [a_c]
    matches [abc]; so keyword search returns a message whose msg does
    not contain the keyword, and by-user search a message whose uname
    does not contain the supplied name. *)
Theorem C10_like_wildcards_are_not_escaped :
  let w := a_world true 0 in
  let abc := a_message 1 "abc" "abc" (Some 10) None in
  (forall roomId k ks limit,
      In (JStr (js "%" ++ k ++ js "%")) (search_params roomId (k :: ks) limit))
  /\ (forall req u t, query_uname req = Some u -> toString u = Some t ->
                      uname_pattern req = Returned (js "%" ++ t ++ js "%"))
  /\ (forall s, like (js "%" ++ js "%" ++ js "%") s = true)
  /\ like (js "%" ++ js "a_c" ++ js "%") (js "abc") = true
  /\ (rows_sent (fst (get_messages_search (sqlite_world w [abc])
                        (a_query None None None None None None (given "a_c"))))
      = [RMessage abc]
      /\ contains_ci (js "a_c") (msg abc) = false)
  /\ (rows_sent (fst (get_messages_by_user (sqlite_world w [abc])
                        (a_query None None None None None (given "%") None)))
      = [RMessage abc]
      /\ contains_ci (js "%") (uname abc) = false).
Proof.
  intros w abc. repeat match goal with |- _ /\ _ => split end; try reflexivity.
  - intros roomId k ks limit. unfold search_params.
    apply in_or_app. right. apply in_or_app. left. now left.
  - intros req u t Hu Ht. unfold uname_pattern, String_of. now rewrite Hu, Ht.
  - intros s. change (js "%" ++ js "%" ++ js "%") with (37%N :: 37%N :: [37%N]).
    induction s as [|c s IH].
    + reflexivity.
    + rewrite like_percent, IH. apply orb_true_r.
Qed.


(** The effective-time expression in the statement texts: after
    [ORDER BY] in the three message listings, before [>= ?] in the two
    windowed statistics. *)
Lemma effective_expression_in_texts (where_line : jsstring) :
  sql_messages where_line
  = ln (js "SELECT *") ++ ln (js "FROM danmaku_messages") ++ ln where_line
    ++ ln (js "ORDER BY " ++ buildTimestampOrderClause ++ js " DESC")
    ++ ln (js "LIMIT ?") ++ closing
  /\ sql_unique_users_24h
     = sql_unique_users ++ js " WHERE " ++ buildTimestampOrderClause ++ js " >= ?"
  /\ sql_top_users
     = ln (js "SELECT uname, open_id, COUNT(*) AS messageCount")
       ++ ln (js "FROM danmaku_messages")
       ++ ln (js "WHERE " ++ buildTimestampOrderClause ++ js " >= ?")
       ++ ln (js "GROUP BY open_id, uname")
       ++ ln (js "ORDER BY messageCount DESC")
       ++ ln (js "LIMIT ?") ++ closing.
Proof. repeat split. Qed.

Lemma order_by_timestamp (l : list message) :
  Forall (fun m => timestamp m <> None) l ->
  order_by_effective_desc l
  = sort_desc (fun a b => match timestamp a with Some t => t | None => 0 end
                          >? match timestamp b with Some t => t | None => 0 end) l.
Proof.
  intros H. apply sort_desc_ext. intros a b Ha Hb.
  rewrite Forall_forall in H.
  pose proof (H a Ha) as Hta. pose proof (H b Hb) as Htb.
  unfold effective_expr.
  destruct (timestamp a) as [ta|]; [|contradiction].
  destruct (timestamp b) as [tb|]; [|contradiction].
  reflexivity.
Qed.

(** Where every message carries a timestamp, the listing order is the
    descending order of the timestamps. *)
Lemma order_by_effective_desc_sorted (l : list message) :
  Forall (fun m => timestamp m <> None) l ->
  StronglySorted
    (fun a b => match effective_time a, effective_time b with
                | Some ta, Some tb => tb <= ta
                | _, _ => False
                end)
    (order_by_effective_desc l).
Proof.
  intros H. rewrite order_by_timestamp by assumption.
  set (ts := fun m => match timestamp m with Some t => t | None => 0 end).
  pose proof (sort_desc_sorted ts l) as Hs.
  assert (Hall : Forall (fun m => timestamp m <> None)
                        (sort_desc (fun a b => ts a >? ts b) l)).
  { rewrite Forall_forall in *. intros m Hm. apply H.
    now apply (sort_desc_In (fun a b => ts a >? ts b)). }
  change (sort_desc _ l) with (sort_desc (fun a b => ts a >? ts b) l).
  set (s := sort_desc (fun a b => ts a >? ts b) l) in *. clearbody s. clear H.
  induction Hs as [|a r Hs IH Ha]; constructor.
  - apply IH. now inversion Hall.
  - inversion Hall as [|? ? Hta Hr]; subst.
    rewrite Forall_forall in *. intros b Hb.
    specialize (Ha b Hb). specialize (Hr b Hb).
    unfold effective_time, ts in *.
    destruct (timestamp a); [|contradiction].
    destruct (timestamp b); [|contradiction]. exact Ha.
Qed.

(** C8: a message without timestamp, created at second 100, and a
    message with timestamp 200: recent-messages lists the older message
    first.  The expression yields the TEXT of strftime for the first and
    an INTEGER for the second, and under ORDER BY every TEXT is above
    every INTEGER. *)
Theorem C8_recent_lists_fallback_rows_first :
  let w := a_world true 0 in
  let older := a_message 1 "alice" "first" None (Some 100) in
  let newer := a_message 2 "bob" "second" (Some 200) None in
  effective_time older = Some 100
  /\ effective_time newer = Some 200
  /\ rows_sent (fst (get_messages_recent (sqlite_world w [newer; older]) a_request))
     = [RMessage older; RMessage newer]
  /\ rows_sent (fst (get_messages_recent (sqlite_world w [older; newer]) a_request))
     = [RMessage older; RMessage newer].
Proof. repeat split. Qed.

(** *** The windowed statistics *)

Lemma ge_in_window (w : World) (hours : Z) (m : message) :
  timestamp m <> None ->
  sql_ge (effective_expr m) (VInt (cutoff_of w hours))
  = in_window (Date_now w / 1000) hours m.
Proof.
  intros H. unfold effective_expr, in_window, effective_time, cutoff_of.
  destruct (timestamp m) as [t|]; [|contradiction].
  unfold sql_ge, value_compare.
  destruct (Z.compare_spec t (Date_now w / 1000 - hours * 3600));
    destruct (Z.leb_spec (Date_now w / 1000 - hours * 3600) t);
    try reflexivity; lia.
Qed.

Lemma window_filter (w : World) (hours : Z) (tbl : list message) :
  Forall (fun m => timestamp m <> None) tbl ->
  filter (fun m => sql_ge (effective_expr m) (VInt (cutoff_of w hours))) tbl
  = filter (in_window (Date_now w / 1000) hours) tbl.
Proof.
  intros H. apply filter_ext_in. intros m Hm. apply ge_in_window.
  rewrite Forall_forall in H. now apply H.
Qed.

(** A message without timestamp passes every window: the text of
    strftime is above every number. *)
Lemma fallback_row_passes_window (m : message) (e c : Z) :
  timestamp m = None -> created_at m = Some e ->
  sql_ge (effective_expr m) (VInt c) = true.
Proof. intros Ht Hc. unfold effective_expr. now rewrite Ht, Hc. Qed.

(** C9: the window filter lets a message without timestamp through,
    whatever its age.  At the current second 1 000 000 000, a message
    created at second 100 with no timestamp, and a message with a
    timestamp a thousand seconds old: only the second lies within the
    last 24 hours, so one sender is in the window; the windowed
    unique-user count answers 2, and top-senders lists both senders.
    The expression yields the TEXT of strftime for the first message,
    and under [>=] every TEXT is above every number. *)
Theorem C9_window_counts_rows_without_timestamp :
  let w := a_world true 1000000000000 in
  let now := 1000000000 in
  let stale := a_message 1 "alice" "long ago" None (Some 100) in
  let fresh := a_message 2 "bob" "just now" (Some 999999000) None in
  Date_now w / 1000 = now
  /\ effective_time stale = Some 100
  /\ in_window now 24 stale = false
  /\ in_window now 24 fresh = true
  /\ window_unique_users now 24 [stale; fresh] = 1
  /\ fst (get_unique_users_24h (sqlite_world w [stale; fresh]) a_request)
     = ok (BUniqueUsers24h 2)
  /\ fst (get_top_users (sqlite_world w [stale; fresh]) a_request)
     = ok (BTopUsers (Num 24) 10
             [RTopUser (Some (js "alice")) (Some (js "alice")) 1;
              RTopUser (Some (js "bob")) (Some (js "bob")) 1])
  /\ (forall c, sql_ge (effective_expr stale) (VInt c) = true).
Proof.
  intros w now stale fresh.
  repeat match goal with |- _ /\ _ => split end; try reflexivity.
Qed.

(* ===================================================================== *)
(** ** Sample evaluations *)
(* ===================================================================== *)

Example parseInt_numeric_prefix : parseInt (js " 12abc") = Num 12.
Proof. reflexivity. Qed.

Example parseInt_negative : parseInt (js "-7") = Num (-7).
Proof. reflexivity. Qed.

Example parseInt_no_digit : parseInt (js "abc") = NaN.
Proof. reflexivity. Qed.

Example parseInt_beyond_safe :
  parseInt (js "9007199254740992") = Num 9007199254740992
  /\ parseInt (js "9007199254740993") = Huge 9007199254740993.
Proof. split; reflexivity. Qed.

Example parseLimit_samples :
  parseLimit (QStr (js "0")) 50 200 = Returned 50
  /\ parseLimit (QStr (js "1000")) 50 200 = Returned 200
  /\ parseLimit (QStr (js "17")) 50 200 = Returned 17
  /\ parseLimit (QArr [QStr (js "3"); QStr (js "9")]) 50 200 = Returned 3
  /\ parseLimit (QStr (js "1000000000000000000000")) 50 200 = Returned 200
  /\ parseLimit (QObj false) 50 200 = Returned 50
  /\ parseLimit (QObj true) 50 200
     = Thrown (js "Cannot convert object to primitive value").
Proof. repeat split. Qed.

Example bound_text_samples :
  bind (JQuery (QStr (js "7"))) = VText (js "7")
  /\ bind (JQuery (QArr [QStr (js "1"); QStr (js "2")]))
     = VText (js "[object Object]").
Proof. split; reflexivity. Qed.

Example like_stops_at_nul :
  sql_like (Some (js "anything")) (VText (js "%" ++ [0%N] ++ js "%")) = true.
Proof. reflexivity. Qed.

Example like_underscore_is_one_character :
  sql_like (Some [55357%N; 56832%N]) (VText (js "_")) = true.
Proof. reflexivity. Qed.

Example normalize_sample :
  normalize_keywords (Some (QStr (js " foo, ,bar ,,")))
  = Some [js "foo"; js "bar"].
Proof. reflexivity. Qed.

Example normalize_not_a_string :
  normalize_keywords (Some (QArr [QStr (js "foo"); QObj false])) = None.
Proof. reflexivity. Qed.

Example injection_payload_is_a_name :
  let payload := js "x" ++ [34%N] ++ js "; DROP TABLE danmaku_messages; --" in
  lex_quoted ([34%N] ++ safeName payload ++ [34%N] ++ js " LIMIT 100 OFFSET 0")
  = Some (payload, js " LIMIT 100 OFFSET 0").
Proof. reflexivity. Qed.

Example search_statement_sample :
  recognise (search_sql (Some (QStr (js "7"))) [js "foo"; js "bar"; js "baz"])
  = Some (SMessages (WKeywords true 2)).
Proof. reflexivity. Qed.

Example top_users_sample :
  rows_sent (fst (get_top_users
    (sqlite_world (a_world true 1000000000)
       [a_message 1 "alice" "one" (Some 999000) None;
        a_message 2 "bob" "two" (Some 998000) None;
        a_message 3 "alice" "three" (Some 997000) None;
        a_message 4 "carol" "long ago" (Some 100) None])
    a_request))
  = [RTopUser (Some (js "alice")) (Some (js "alice")) 2;
     RTopUser (Some (js "bob")) (Some (js "bob")) 1].
Proof. reflexivity. Qed.

Example top_users_ties_in_key_order :
  rows_sent (fst (get_top_users
    (sqlite_world (a_world true 1000000000)
       [a_message 1 "carol" "one" (Some 999000) None;
        a_message 2 "bob" "two" (Some 998000) None])
    a_request))
  = [RTopUser (Some (js "bob")) (Some (js "bob")) 1;
     RTopUser (Some (js "carol")) (Some (js "carol")) 1].
Proof. reflexivity. Qed.

(* ===================================================================== *)
(** ** Further properties: every endpoint *)
(* ===================================================================== *)

(** An endpoint either answers at once, with a status other than 200
    and without a statement, or answers from one call of [all] on the
    resolved store. *)
Lemma handle_cases (e : endpoint) (w : World) (req : Request) :
  (exists r, handle e w req = (r, [])
             /\ (status r = 400 \/ status r = 404 \/ status r = 500))
  \/ (exists sql params k,
        handle e w req = answer (all w (resolveDbPath w) sql params) k).
Proof.
  assert (Hthrow : forall m : jsstring,
             exists r, (fail 500 (BError m), @nil issued) = (r, [])
                       /\ (status r = 400 \/ status r = 404 \/ status r = 500)).
  { intros m. eexists. split; [reflexivity|]. simpl. auto. }
  destruct e; simpl handle.
  - unfold get_tables. destruct (existsSync w (resolveDbPath w)); simpl.
    + right. now eexists _, _, _.
    + left. eexists. split; [reflexivity|]. simpl. auto.
  - unfold get_table.
    destruct (parseInt10 (or_default (query_limit req) (js "100"))) as [l|m];
      cbn [caught]; [|left; apply Hthrow].
    destruct (parseInt10 (or_default (query_offset req) (js "0"))) as [o|m];
      cbn [caught]; [|left; apply Hthrow].
    destruct (existsSync w (resolveDbPath w)); simpl.
    + right. now eexists _, _, _.
    + left. eexists. split; [reflexivity|]. simpl. auto.
  - right. now eexists _, _, _.
  - right. now eexists _, _, _.
  - right. now eexists _, _, _.
  - unfold get_top_users.
    destruct (top_users_limit req) as [l|m]; cbn [caught]; [|left; apply Hthrow].
    destruct (top_users_hours req) as [h|m]; cbn [caught]; [|left; apply Hthrow].
    right. now eexists _, _, _.
  - unfold get_messages_recent.
    destruct (recent_limit req) as [l|m]; cbn [caught]; [|left; apply Hthrow].
    right. now eexists _, _, _.
  - unfold get_messages_by_user.
    destruct (by_user_limit req) as [l|m]; cbn [caught]; [|left; apply Hthrow].
    destruct (negb (truthy (query_openId req)) && negb (truthy (query_uname req))).
    + left. eexists. split; [reflexivity|]. simpl. auto.
    + destruct (by_user_where req) as [b|m]; cbn [caught]; [|left; apply Hthrow].
      right. now eexists _, _, _.
  - unfold get_messages_search.
    destruct (search_limit req) as [l|m]; cbn [caught]; [|left; apply Hthrow].
    destruct (normalize_keywords (keywordsRaw req)) as [[|k ks]|].
    + left. eexists. split; [reflexivity|]. simpl. auto.
    + right. now eexists _, _, _.
    + left. eexists. split; [reflexivity|]. simpl. auto.
Qed.

Lemma answer_all_cases (w : World) (path sql : jsstring) (params : list jsval)
    (k : list row -> body) :
  let i := {| issued_path := path; issued_sql := sql; issued_params := params |} in
  (existsSync w path = false
   /\ answer (all w path sql params) k
      = (fail 500 (BError (js "DB file not found: " ++ path)), []))
  \/ (existsSync w path = true
      /\ exists m, db_all w path sql params = SqlError m
                   /\ answer (all w path sql params) k = (fail 500 (BError m), [i]))
  \/ (existsSync w path = true
      /\ exists rows, db_all w path sql params = Rows rows
                      /\ answer (all w path sql params) k = (ok (k rows), [i])).
Proof.
  intros i. unfold answer, all.
  destruct (existsSync w path); simpl; [|now left].
  right. destruct (db_all w path sql params) as [rows|m]; simpl.
  - right. split; [reflexivity|]. now exists rows.
  - left. split; [reflexivity|]. now exists m.
Qed.

(** X1: the store a request reaches is fixed by the environment alone:
    the path is [path.resolve(cwd, DB_PATH)] when DB_PATH is set and not
    empty, the default path otherwise, and every statement of every
    endpoint is run on that path, whatever the request holds. *)
Theorem store_path_is_fixed_by_the_environment :
  forall (e : endpoint) (w : World) (req : Request),
    Forall (fun i => issued_path i = resolveDbPath w) (snd (handle e w req))
    /\ (forall p c, env_DB_PATH w = Some (c :: p) ->
                    resolveDbPath w = path_resolve w (cwd w) (c :: p))
    /\ (env_DB_PATH w = None \/ env_DB_PATH w = Some [] ->
        resolveDbPath w = DEFAULT_DB_PATH w).
Proof.
  intros e w req. split; [|split].
  - destruct (handle_cases e w req) as [(r & -> & _)|(sql & params & k & ->)].
    + constructor.
    + now apply issued_of_answer.
  - intros p c H. unfold resolveDbPath. now rewrite H.
  - intros [H|H]; unfold resolveDbPath; now rewrite H.
Qed.

(** X2: a request runs at most one statement, and none at all while the
    store file is missing: the file is never opened (and so never
    created) by a request that cannot find it. *)
Theorem at_most_one_statement_per_request :
  forall (e : endpoint) (w : World) (req : Request),
    (List.length (snd (handle e w req)) <= 1)%nat
    /\ (existsSync w (resolveDbPath w) = false -> snd (handle e w req) = []).
Proof.
  intros e w req.
  destruct (handle_cases e w req) as [(r & -> & _)|(sql & params & k & ->)].
  - split; [simpl; lia|reflexivity].
  - rewrite answer_log, all_log.
    destruct (existsSync w (resolveDbPath w)); split; simpl; try lia;
      try reflexivity; try discriminate.
Qed.

(** X3: the status is one of 200, 400, 404 and 500, and it is 200
    exactly when the request ran a statement and the driver returned
    its rows: there is no success without a completed query and no
    failure after one. *)
Theorem status_200_iff_rows_returned :
  forall (e : endpoint) (w : World) (req : Request),
    let r := fst (handle e w req) in
    (status r = 200 \/ status r = 400 \/ status r = 404 \/ status r = 500)
    /\ (status r = 200 <->
        exists i rows,
          snd (handle e w req) = [i]
          /\ db_all w (issued_path i) (issued_sql i) (issued_params i) = Rows rows).
Proof.
  intros e w req r. unfold r. clear r.
  destruct (handle_cases e w req) as [(r & -> & Hr)|(sql & params & k & ->)].
  - simpl fst. simpl snd. split; [auto|].
    split; [intros H; destruct Hr as [Hr|[Hr|Hr]]; rewrite Hr in H; discriminate|].
    intros (i & rows & Hi & _). discriminate.
  - destruct (answer_all_cases w (resolveDbPath w) sql params k)
      as [(He & ->)|[(He & m & Hm & ->)|(He & rows & Hrows & ->)]];
      simpl fst; simpl snd.
    + split; [simpl; auto|]. split; [discriminate|].
      intros (i & rows & Hi & _). discriminate.
    + split; [simpl; auto|]. split; [discriminate|].
      intros (i & rows & [= <-] & Hi). simpl in Hi. rewrite Hm in Hi. discriminate.
    + split; [simpl; auto|]. split; [|reflexivity].
      intros _. eexists _, rows. split; [reflexivity|exact Hrows].
Qed.

(** X4: when the driver fails on the statement of a request, the answer
    is status 500 with the driver's own message as the error, for every
    endpoint alike. *)
Theorem driver_error_is_reported_as_500 :
  forall (e : endpoint) (w : World) (req : Request) (i : issued) (m : jsstring),
    snd (handle e w req) = [i] ->
    db_all w (issued_path i) (issued_sql i) (issued_params i) = SqlError m ->
    fst (handle e w req) = fail 500 (BError m).
Proof.
  intros e w req i m Hi Hm.
  destruct (handle_cases e w req) as [(r & He & _)|(sql & params & k & He)];
    rewrite He in *.
  - discriminate.
  - destruct (answer_all_cases w (resolveDbPath w) sql params k)
      as [(_ & Ha)|[(_ & m' & Hm' & Ha)|(_ & rows & Hrows & Ha)]];
      rewrite Ha in *; simpl in Hi.
    + discriminate.
    + injection Hi as <-. simpl in Hm. rewrite Hm' in Hm. now injection Hm as ->.
    + injection Hi as <-. simpl in Hm. rewrite Hrows in Hm. discriminate.
Qed.

(** X4 at a driver that fails with [database is locked]. *)
Lemma driver_error_is_reported_as_500_witness :
  let w := a_driver_world (SqlError (js "SQLITE_BUSY: database is locked")) in
  let i := {| issued_path := js "/srv/app/data/chat.db";
              issued_sql := sql_unique_users;
              issued_params := [] |} in
  (snd (handle UniqueUsers w a_request) = [i]
   /\ db_all w (issued_path i) (issued_sql i) (issued_params i)
      = SqlError (js "SQLITE_BUSY: database is locked"))
  /\ fst (handle UniqueUsers w a_request)
     = fail 500 (BError (js "SQLITE_BUSY: database is locked")).
Proof.
  intros w i. split; [split; reflexivity|].
  exact (driver_error_is_reported_as_500 UniqueUsers w a_request i _
           eq_refl eq_refl).
Defined.

(** The text of every statement: the schema listing, the table dump,
    or the text of a statement shape. *)
Lemma issued_sql_cases (e : endpoint) (w : World) (req : Request) :
  Forall (fun i => (e = Tables /\ issued_sql i = sql_tables)
                   \/ (e = Table /\ exists l o,
                         issued_sql i = sql_table w (params_name req) l o)
                   \/ (e <> Table /\ exists q, issued_sql i = render q))
         (snd (handle e w req)).
Proof.
  eapply Forall_impl; [|apply (issued_statement_form e w req)].
  intros i Hi. destruct e; cbn [statement_form] in Hi.
  - left. now destruct Hi.
  - right. left. split; [reflexivity|].
    destruct Hi as (l & o & _ & _ & H & _). now exists l, o.
  - right. right. split; [discriminate|]. destruct Hi as [H _]. eexists; exact H.
  - right. right. split; [discriminate|]. destruct Hi as [H _]. eexists; exact H.
  - right. right. split; [discriminate|]. destruct Hi as [H _]. eexists; exact H.
  - right. right. split; [discriminate|].
    destruct Hi as (l & h & _ & _ & H & _). eexists; exact H.
  - right. right. split; [discriminate|].
    destruct Hi as (l & _ & H & _). eexists; exact H.
  - right. right. split; [discriminate|].
    destruct Hi as (l & _ & [(v & _ & H & _)|(u & t & _ & _ & _ & H & _)]);
      eexists; exact H.
  - right. right. split; [discriminate|].
    destruct Hi as (l & k & ks & _ & _ & H & _). eexists; exact H.
Qed.

Lemma no_semicolon_more_terms (n : nat) :
  existsb (N.eqb 59) (more_terms n) = false.
Proof.
  induction n as [|n IH]; [reflexivity|].
  rewrite more_terms_S.
  rewrite (existsb_app _ (js " OR ")), (existsb_app _ text_like_msg).
  unfold char in *. rewrite IH. reflexivity.
Qed.

Lemma render_is_one_select (q : statement) :
  (exists rest, trimStart (render q) = js "SELECT " ++ rest)
  /\ existsb (N.eqb 59) (render q) = false.
Proof.
  split.
  - destruct q as [| | | |w]; try (eexists; reflexivity).
  - destruct q as [| | | |w]; try reflexivity.
    destruct w as [| | | |room n]; try reflexivity.
    unfold render. rewrite render_keywords.
    rewrite (existsb_app _ text_messages_head), (existsb_app _ (js "WHERE ")).
    rewrite (existsb_app _ (if room then js "room_id = ? AND " else [])).
    rewrite (existsb_app _ (js "(" ++ text_like_msg)).
    unfold char in *. rewrite no_semicolon_more_terms. now destruct room.
Qed.

(** X5: the service only reads: every statement an endpoint hands to the
    driver begins, after white space, with [SELECT]; and except for the
    table dump (whose quoted name may hold any character) no statement
    text holds a semicolon, so each is a single statement. *)
Theorem every_statement_is_a_select :
  forall (e : endpoint) (w : World) (req : Request),
    Forall (fun i => (exists rest, trimStart (issued_sql i) = js "SELECT " ++ rest)
                     /\ (e <> Table -> existsb (N.eqb 59) (issued_sql i) = false))
           (snd (handle e w req)).
Proof.
  intros e w req.
  eapply Forall_impl; [|apply issued_sql_cases].
  intros i [(He & ->)|[(He & l & o & ->)|(He & q & ->)]].
  - split; [eexists; reflexivity|reflexivity].
  - split; [eexists; reflexivity|contradiction].
  - destruct (render_is_one_select q) as [H1 H2]. split; [exact H1|now intros _].
Qed.

(** *** Counting endpoints *)

Lemma history_count_on_sqlite (w : World) (tbl : list message) (req : Request) :
  existsSync w (resolveDbPath w) = true ->
  fst (get_history_count (sqlite_world w tbl) req)
  = ok (BTotalMessages (Z.of_nat (List.length tbl))).
Proof.
  intros He. unfold get_history_count. rewrite resolveDbPath_sqlite.
  change sql_history_count with (render SCountAll).
  now rewrite (answer_sqlite w tbl _ SCountAll [] _ _ He eq_refl).
Qed.

Lemma unique_users_on_sqlite (w : World) (tbl : list message) (req : Request) :
  existsSync w (resolveDbPath w) = true ->
  fst (get_unique_users (sqlite_world w tbl) req)
  = ok (BUniqueUsers (count_distinct_open_id tbl)).
Proof.
  intros He. unfold get_unique_users. rewrite resolveDbPath_sqlite.
  change sql_unique_users with (render SCountUsers).
  now rewrite (answer_sqlite w tbl _ SCountUsers [] _ _ He eq_refl).
Qed.

Lemma nonnull_In {A : Type} (l : list (option A)) (a : A) :
  In a (nonnull l) <-> In (Some a) l.
Proof.
  induction l as [|[x|] l IH]; simpl.
  - reflexivity.
  - rewrite IH. split; intros [H|H]; auto; left; congruence.
  - rewrite IH. split; [auto|]. intros [H|H]; [discriminate|assumption].
Qed.

Lemma nonnull_length {A : Type} (l : list (option A)) :
  (List.length (nonnull l) <= List.length l)%nat.
Proof. induction l as [|[x|] l IH]; simpl; lia. Qed.

Lemma count_distinct_le_length (l : list message) :
  count_distinct_open_id l <= Z.of_nat (List.length l).
Proof.
  unfold count_distinct_open_id.
  pose proof (NoDup_incl_length (NoDup_nodup jsstring_eq_dec (nonnull (map open_id l)))
                (l' := nonnull (map open_id l))) as H.
  assert (Hincl : incl (nodup jsstring_eq_dec (nonnull (map open_id l)))
                       (nonnull (map open_id l))).
  { intros x Hx. now apply nodup_In in Hx. }
  specialize (H Hincl).
  pose proof (nonnull_length (map open_id l)) as H2. rewrite length_map in H2. lia.
Qed.

Lemma count_distinct_filter (f : message -> bool) (l : list message) :
  count_distinct_open_id (filter f l) <= count_distinct_open_id l.
Proof.
  unfold count_distinct_open_id. apply inj_le. apply NoDup_incl_length.
  - apply NoDup_nodup.
  - intros x Hx. apply nodup_In. apply nodup_In in Hx.
    apply nonnull_In in Hx. apply nonnull_In.
    apply in_map_iff in Hx as (m & Hm & Hin). apply in_map_iff.
    exists m. split; [exact Hm|]. now apply filter_In in Hin.
Qed.

(** X6: over a message table, the total count is the number of messages
    and the unique-user count the number of distinct non-NULL open_id;
    the three counters are ordered: senders of the last 24 hours are at
    most the senders of all time, who are at most the messages. *)
Theorem counters_are_ordered :
  forall (w : World) (tbl : list message) (req : Request),
    existsSync w (resolveDbPath w) = true ->
    exists total users users24h,
      fst (get_history_count (sqlite_world w tbl) req) = ok (BTotalMessages total)
      /\ fst (get_unique_users (sqlite_world w tbl) req) = ok (BUniqueUsers users)
      /\ fst (get_unique_users_24h (sqlite_world w tbl) req)
         = ok (BUniqueUsers24h users24h)
      /\ total = Z.of_nat (List.length tbl)
      /\ users = Z.of_nat (List.length
                   (nodup jsstring_eq_dec (nonnull (map open_id tbl))))
      /\ 0 <= users24h <= users /\ users <= total.
Proof.
  intros w tbl req He.
  eexists _, _, _. split; [|split; [|split]].
  - now apply history_count_on_sqlite.
  - now apply unique_users_on_sqlite.
  - rewrite unique_users_24h_on_sqlite by assumption. reflexivity.
  - split; [reflexivity|]. split; [reflexivity|]. split; [split|].
    + unfold count_distinct_open_id. lia.
    + apply count_distinct_filter.
    + apply count_distinct_le_length.
Qed.

(** X6 at a table of three messages by two senders, one of them a day
    and more old. *)
Lemma counters_are_ordered_witness :
  let w := a_world true 1000000000 in
  let tbl := [a_message 1 "alice" "one" (Some 999000) None;
              a_message 2 "bob" "two" (Some 100) None;
              a_message 3 "alice" "three" (Some 997000) None] in
  existsSync w (resolveDbPath w) = true
  /\ exists total users users24h,
      fst (get_history_count (sqlite_world w tbl) a_request) = ok (BTotalMessages total)
      /\ fst (get_unique_users (sqlite_world w tbl) a_request) = ok (BUniqueUsers users)
      /\ fst (get_unique_users_24h (sqlite_world w tbl) a_request)
         = ok (BUniqueUsers24h users24h)
      /\ total = Z.of_nat (List.length tbl)
      /\ users = Z.of_nat (List.length
                   (nodup jsstring_eq_dec (nonnull (map open_id tbl))))
      /\ 0 <= users24h <= users /\ users <= total.
Proof.
  intros w tbl. split; [reflexivity|].
  exact (counters_are_ordered w tbl a_request eq_refl).
Defined.

(** X7: doubling the quotes loses nothing: two different names never
    give the same text between the quotes, so never the same
    statement. *)
Theorem safeName_is_injective :
  forall a b : jsstring, safeName a = safeName b -> a = b.
Proof.
  induction a as [|c a IH]; intros [|d b] H.
  - reflexivity.
  - change (safeName (d :: b))
      with ((if char_eqb d 34%N then [34%N; 34%N] else [d]) ++ safeName b) in H.
    destruct (char_eqb d 34%N); discriminate.
  - change (safeName (c :: a))
      with ((if char_eqb c 34%N then [34%N; 34%N] else [c]) ++ safeName a) in H.
    destruct (char_eqb c 34%N); discriminate.
  - change (safeName (c :: a))
      with ((if char_eqb c 34%N then [34%N; 34%N] else [c]) ++ safeName a) in H.
    change (safeName (d :: b))
      with ((if char_eqb d 34%N then [34%N; 34%N] else [d]) ++ safeName b) in H.
    unfold char_eqb in H.
    destruct (N.eqb_spec c 34) as [->|Hc]; destruct (N.eqb_spec d 34) as [->|Hd];
      simpl in H.
    + injection H as H. f_equal. now apply IH.
    + injection H as Hd' _. congruence.
    + injection H as Hc' _. congruence.
    + injection H as -> H. f_equal. now apply IH.
Qed.

(** X7 at a name with a quote in it. *)
Lemma safeName_is_injective_witness :
  let name := js "a" ++ [34%N] ++ js "b" in
  safeName name = safeName name /\ name = name.
Proof.
  intros name. split; [reflexivity|].
  exact (safeName_is_injective name name eq_refl).
Defined.

(* ===================================================================== *)
(** ** Further properties: numbers written and read back *)
(* ===================================================================== *)

(** An integer that parseInt returns as such is within 2^53. *)
Lemma parseInt_Num_safe (s : jsstring) (z : Z) :
  parseInt s = Num z -> Z.abs z <= safe_integer.
Proof.
  unfold parseInt. destruct (strip_sign (trimStart s)) as [neg r].
  destruct (leading_digits r) as [|d ds]; [discriminate|].
  unfold double_of.
  destruct (Z.leb_spec (Z.abs ((if neg then -1 else 1) * digits_value (d :: ds)))
              safe_integer) as [H|H]; [|discriminate].
  now intros [= <-].
Qed.

Lemma parseInt_Huge_beyond (s : jsstring) (z : Z) :
  parseInt s = Huge z -> safe_integer < Z.abs z.
Proof.
  unfold parseInt. destruct (strip_sign (trimStart s)) as [neg r].
  destruct (leading_digits r) as [|d ds]; [discriminate|].
  unfold double_of.
  destruct (Z.leb_spec (Z.abs ((if neg then -1 else 1) * digits_value (d :: ds)))
              safe_integer) as [H|H]; [discriminate|].
  now intros [= <-].
Qed.

(** The window is a positive number of hours: an integer up to 2^53,
    or a number beyond. *)
Lemma parseHours_positive (raw : qval) (fallback : Z) (hours : jsnum) :
  0 < fallback <= safe_integer ->
  parseHours raw fallback = Returned hours ->
  (exists h, hours = Num h /\ 1 <= h <= safe_integer)
  \/ (exists h, hours = Huge h /\ safe_integer < h).
Proof.
  intros Hf. unfold parseHours, parseInt10.
  destruct (String_of raw) as [s|m]; [|discriminate].
  destruct (parseInt s) as [|n|n] eqn:E.
  - intros [= <-]. left. exists fallback. split; [reflexivity|lia].
  - apply parseInt_Num_safe in E.
    destruct (Z.leb_spec n 0); intros [= <-]; left.
    + exists fallback. split; [reflexivity|lia].
    + exists n. split; [reflexivity|lia].
  - apply parseInt_Huge_beyond in E.
    destruct (Z.leb_spec n 0); intros [= <-].
    + left. exists fallback. split; [reflexivity|lia].
    + right. exists n. split; [reflexivity|lia].
Qed.

(** X8: the table dump takes the limit and the offset as they are: for
    any two integers of magnitude up to 2^53 sent in decimal, zero and
    negative ones included, the statement carries exactly these two
    numbers; no fallback and no maximum applies to this endpoint. *)
Theorem table_dump_limit_is_not_clamped :
  forall (w : World) (req : Request) (n m : Z),
    Z.abs n <= safe_integer -> Z.abs m <= safe_integer ->
    query_limit req = Some (QStr (Z_chars n)) ->
    query_offset req = Some (QStr (Z_chars m)) ->
    Forall (fun i => issued_sql i
                     = js "SELECT * FROM " ++ [34%N] ++ safeName (params_name req)
                       ++ [34%N] ++ js " LIMIT " ++ Z_chars n
                       ++ js " OFFSET " ++ Z_chars m)
           (snd (get_table w req))
    /\ (existsSync w (resolveDbPath w) = true ->
        List.length (snd (get_table w req)) = 1%nat).
Proof.
  intros w req n m Hn Hm Hqn Hqm. unfold get_table.
  rewrite (plain_number_parsed (query_limit req) (js "100") 100 n eq_refl
             (or_intror (conj Hqn Hn))).
  rewrite (plain_number_parsed (query_offset req) (js "0") 0 m eq_refl
             (or_intror (conj Hqm Hm))).
  cbn [caught].
  destruct (existsSync w (resolveDbPath w)) eqn:He; simpl.
  - split.
    + now apply issued_of_answer.
    + intros _. now rewrite answer_log, all_log, He.
  - split; [constructor|discriminate].
Qed.

(** X8 at limit -1 and offset 0. *)
Lemma table_dump_limit_is_not_clamped_witness :
  let w := a_world true 0 in
  let req := a_query (given "-1") (given "0") None None None None None in
  (Z.abs (-1) <= safe_integer /\ Z.abs 0 <= safe_integer
   /\ query_limit req = Some (QStr (Z_chars (-1)))
   /\ query_offset req = Some (QStr (Z_chars 0)))
  /\ Forall (fun i => issued_sql i
                      = js "SELECT * FROM " ++ [34%N] ++ js "danmaku_messages"
                        ++ [34%N] ++ js " LIMIT -1 OFFSET 0")
            (snd (get_table w req)).
Proof.
  intros w req.
  assert (H1 : Z.abs (-1) <= safe_integer) by (unfold safe_integer; lia).
  assert (H0 : Z.abs 0 <= safe_integer) by (unfold safe_integer; lia).
  split; [repeat split; assumption|].
  exact (proj1 (table_dump_limit_is_not_clamped w req (-1) 0 H1 H0
                  eq_refl eq_refl)).
Defined.

(** X9: the limit a response reports is accepted as it is when sent
    back, and so is the window as long as it is an integer up to 2^53:
    [parseLimit] and [parseHours] return their own result, written in
    decimal, unchanged. *)
Theorem reported_limit_and_hours_are_stable :
  forall (raw : qval) (fallback max : Z),
    0 < fallback <= max -> max <= safe_integer ->
    (forall limit,
        parseLimit raw fallback max = Returned limit ->
        parseLimit (QStr (Z_chars limit)) fallback max = Returned limit)
    /\ (forall hours,
           parseHours raw fallback = Returned (Num hours) ->
           parseHours (QStr (Z_chars hours)) fallback = Returned (Num hours)).
Proof.
  intros raw fallback max H Hmax. split.
  - intros limit Hl.
    pose proof (parseLimit_range raw fallback max limit H Hl) as Hr.
    rewrite (parseLimit_text (QStr (Z_chars limit)) (Z_chars limit)) by reflexivity.
    rewrite parseInt_Z_chars, double_of_safe by lia.
    destruct (Z.leb_spec limit 0); [lia|]. unfold Math_min. f_equal. lia.
  - intros hours Hh.
    destruct (parseHours_positive raw fallback (Num hours) ltac:(lia) Hh)
      as [(h & [= <-] & Hr)|(h & Hc & _)]; [|discriminate].
    unfold parseHours, parseInt10, String_of. cbn [toString].
    rewrite parseInt_Z_chars, double_of_safe by lia.
    destruct (Z.leb_spec hours 0); [lia|reflexivity].
Qed.

(** X9 at the limit 1000 for recent-messages. *)
Lemma reported_limit_and_hours_are_stable_witness :
  (0 < 50 <= 200 /\ 200 <= safe_integer)
  /\ parseLimit (QStr (js "1000")) 50 200 = Returned 200
  /\ parseLimit (QStr (Z_chars 200)) 50 200 = Returned 200.
Proof.
  assert (H : 0 < 50 <= 200) by lia.
  assert (Hm : 200 <= safe_integer) by (unfold safe_integer; lia).
  split; [split; assumption|]. split; [reflexivity|].
  exact (proj1 (reported_limit_and_hours_are_stable (QStr (js "1000")) 50 200
                  H Hm) 200 eq_refl).
Defined.



(* ===================================================================== *)
(** ** Further properties: keywords *)
(* ===================================================================== *)

Lemma trimStart_id (s : jsstring) :
  (forall c, hd_error s = Some c -> is_ws c = false) -> trimStart s = s.
Proof.
  destruct s as [|c s]; [reflexivity|]. intros H. simpl.
  now rewrite (H c eq_refl).
Qed.

Lemma trim_idempotent (s : jsstring) : trim (trim s) = trim s.
Proof.
  destruct (trim_spec s) as (a & b & _ & _ & _ & Hhd & Hlast).
  set (t := trim s) in *. unfold trim at 1, trimEnd.
  rewrite (trimStart_id t Hhd), (trimStart_id (rev t) Hlast).
  apply rev_involutive.
Qed.

Lemma trim_incl (s : jsstring) (c : char) : In c (trim s) -> In c s.
Proof.
  destruct (trim_spec s) as (a & b & Hs & _). intros H. rewrite Hs.
  apply in_or_app. right. apply in_or_app. now left.
Qed.

Lemma map_trim_inv (l : list qval) (ks : list jsstring) :
  map_trim l = Some ks -> exists ss, l = map QStr ss /\ ks = map trim ss.
Proof.
  revert ks. induction l as [|v l IH]; simpl; intros ks H.
  - injection H as <-. now exists [].
  - destruct v as [s| |]; try discriminate.
    destruct (map_trim l) as [ks'|]; [|discriminate].
    injection H as <-. destruct (IH ks' eq_refl) as (ss & -> & ->).
    now exists (s :: ss).
Qed.

(** What the normaliser returns holds only normal keywords. *)
Lemma normalize_keywords_normal (raw : option qval) (kws : list jsstring) :
  normalize_keywords raw = Some kws -> Forall normal_keyword kws.
Proof.
  unfold normalize_keywords. intros H.
  destruct (map_trim (keyword_entries raw)) as [ks|] eqn:E; [|discriminate].
  injection H as <-. apply map_trim_inv in E as (ss & _ & ->).
  apply Forall_forall. intros k Hk. unfold filter_nonempty in Hk.
  apply filter_In in Hk as [Hin Hne]. apply in_map_iff in Hin as (e & <- & _).
  split; [|apply trim_idempotent]. intros E. now rewrite E in Hne.
Qed.

Lemma normal_keywords_fixed (kws : list jsstring) :
  Forall normal_keyword kws -> filter_nonempty (map trim kws) = kws.
Proof.
  induction 1 as [|k kws [Hne Ht] _ IH]; [reflexivity|].
  cbn [map]. rewrite Ht. unfold filter_nonempty in *. cbn [filter].
  destruct k; [contradiction|]. now rewrite IH.
Qed.

Lemma split_without_sep (sep : char) (x : jsstring) :
  ~ In sep x -> split sep x = [x].
Proof.
  induction x as [|c x IH]; intros H; [reflexivity|]. simpl.
  unfold char_eqb. destruct (N.eqb_spec c sep) as [->|Hc].
  - exfalso. apply H. now left.
  - rewrite IH; [reflexivity|]. intros Hin. apply H. now right.
Qed.

Lemma split_app_sep (sep : char) (x r : jsstring) :
  ~ In sep x -> split sep (x ++ sep :: r) = x :: split sep r.
Proof.
  induction x as [|c x IH]; intros H; simpl.
  - unfold char_eqb. now rewrite N.eqb_refl.
  - unfold char_eqb. destruct (N.eqb_spec c sep) as [->|Hc].
    + exfalso. apply H. now left.
    + rewrite IH; [reflexivity|]. intros Hin. apply H. now right.
Qed.

(** Joining entries that hold no separator and splitting again gives
    the entries back. *)
Lemma split_join (sep : char) (l : list jsstring) :
  l <> [] -> Forall (fun e => ~ In sep e) l -> split sep (join [sep] l) = l.
Proof.
  intros Hne H. induction H as [|x l Hx Hl IH]; [contradiction|].
  destruct l as [|y l].
  - simpl. now apply split_without_sep.
  - rewrite join_cons_cons. cbn [app].
    rewrite split_app_sep by assumption. f_equal. now apply IH.
Qed.

(** X10: the keyword list a search reports is a fixed point of the
    normaliser: every keyword in it is non-empty and unchanged by
    trimming; sent back as an array it gives the same list, and when
    it came from a comma-separated string, so does the list joined by
    commas. *)
Theorem reported_keywords_are_stable :
  forall (raw : option qval) (kws : list jsstring),
    normalize_keywords raw = Some kws ->
    Forall normal_keyword kws
    /\ normalize_keywords (Some (QArr (map QStr kws))) = Some kws
    /\ (forall s, raw = Some (QStr s) ->
                  normalize_keywords (Some (QStr (join (js ",") kws))) = Some kws).
Proof.
  intros raw kws H.
  pose proof (normalize_keywords_normal raw kws H) as Hn.
  split; [exact Hn|]. split.
  - unfold normalize_keywords, keyword_entries. rewrite map_trim_strings.
    cbn [option_map]. now rewrite normal_keywords_fixed.
  - intros s ->. unfold normalize_keywords, keyword_entries in *.
    rewrite map_trim_strings in *. cbn [option_map] in *. injection H as H.
    destruct kws as [|k kws]; [reflexivity|].
    change (js ",") with [44%N]. rewrite split_join.
    + now rewrite normal_keywords_fixed.
    + discriminate.
    + apply Forall_forall. intros e He. rewrite <- H in He.
      unfold filter_nonempty in He. apply filter_In in He as [He _].
      apply in_map_iff in He as (x & <- & Hx). intros Hc.
      apply trim_incl in Hc.
      pose proof (split_no_sep 44%N s) as Hs. rewrite Forall_forall in Hs.
      now apply (Hs x Hx).
Qed.

(** X10 at the string [" foo, ,bar ,,"]. *)
Lemma reported_keywords_are_stable_witness :
  normalize_keywords (Some (QStr (js " foo, ,bar ,,"))) = Some [js "foo"; js "bar"]
  /\ normalize_keywords (Some (QArr (map QStr [js "foo"; js "bar"])))
     = Some [js "foo"; js "bar"].
Proof.
  split; [reflexivity|].
  exact (proj1 (proj2 (reported_keywords_are_stable
                         (Some (QStr (js " foo, ,bar ,,"))) [js "foo"; js "bar"]
                         eq_refl))).
Defined.

(** X11: keyword search never binds an empty pattern: a statement is
    run only for a non-empty list of normal keywords, and the values
    bound are the roomId (when one is given), one pattern [%k%] per
    keyword [k], each around a non-empty trimmed text, and the limit. *)
Theorem search_binds_one_pattern_per_keyword :
  forall (w : World) (req : Request),
    Forall (fun i =>
              exists k ks limit,
                normalize_keywords (keywordsRaw req) = Some (k :: ks)
                /\ Forall normal_keyword (k :: ks)
                /\ search_limit req = Returned limit
                /\ issued_params i
                   = (if truthy (query_roomId req)
                      then match query_roomId req with
                           | Some r => [JQuery r]
                           | None => []
                           end
                      else [])
                     ++ map (fun x => JStr (js "%" ++ x ++ js "%")) (k :: ks)
                     ++ [JNum limit])
           (snd (get_messages_search w req)).
Proof.
  intros w req. unfold get_messages_search.
  destruct (search_limit req) as [limit|m] eqn:El; cbn [caught]; [|constructor].
  destruct (normalize_keywords (keywordsRaw req)) as [[|k ks]|] eqn:E;
    try constructor.
  apply issued_of_answer. exists k, ks, limit. split; [reflexivity|].
  split; [now apply (normalize_keywords_normal (keywordsRaw req))|].
  split; [reflexivity|].
  cbn [issued_params]. unfold search_params.
  destruct (query_roomId req) as [r|]; [|reflexivity].
  destruct (truthy (Some r)); reflexivity.
Qed.

(** X12: [keyword] shadows [keywords] and [q]: when the request has a
    [keyword] key, whatever its value, the other two keys have no
    effect on the answer; in particular an empty [keyword] beside a
    usable [q] runs no statement, and is answered with status 400 when
    the limit of the request can be read. *)
Theorem keyword_shadows_keywords_and_q :
  forall (w : World) (req : Request) (v : qval) (a b : option qval),
    query_keyword req = Some v ->
    get_messages_search w (set_keywords_q a b req) = get_messages_search w req
    /\ (v = QStr [] ->
        snd (get_messages_search w req) = []
        /\ (forall limit, search_limit req = Returned limit ->
                          status (fst (get_messages_search w req)) = 400)).
Proof.
  intros w req v a b Hv. split.
  - unfold get_messages_search, keywordsRaw, search_limit.
    cbn [set_keywords_q query_keyword query_keywords query_q query_limit
         query_roomId].
    now rewrite Hv.
  - intros ->. unfold get_messages_search, keywordsRaw. rewrite Hv. split.
    + destruct (search_limit req); reflexivity.
    + intros limit ->. reflexivity.
Qed.

(** X12 at [?keyword=&q=foo]. *)
Lemma keyword_shadows_keywords_and_q_witness :
  let req := {| params_name := []; query_limit := None; query_offset := None;
                query_hours := None; query_roomId := None; query_openId := None;
                query_uname := None; query_keyword := Some (QStr []);
                query_keywords := None; query_q := Some (QStr (js "foo")) |} in
  query_keyword req = Some (QStr [])
  /\ status (fst (get_messages_search (a_world true 0) req)) = 400.
Proof.
  intros req. split; [reflexivity|].
  exact (proj2 (proj2 (keyword_shadows_keywords_and_q (a_world true 0) req (QStr [])
                         None None eq_refl) eq_refl) 100 eq_refl).
Defined.

(* ===================================================================== *)
(** ** Further properties: listings and the leaderboard *)
(* ===================================================================== *)

Lemma StronglySorted_app_inv {A : Type} (R : A -> A -> Prop) (a b : list A) :
  StronglySorted R (a ++ b) ->
  StronglySorted R a /\ (forall x y, In x a -> In y b -> R x y).
Proof.
  induction a as [|h a IH]; simpl; intros H.
  - split; [constructor|intros x y []].
  - inversion H as [|? ? Hs Hall]; subst.
    destruct (IH Hs) as [Ha Hab]. split.
    + constructor; [assumption|].
      rewrite Forall_forall in *. intros x Hx. apply Hall.
      apply in_or_app. now left.
    + intros x y [<-|Hx] Hy.
      * rewrite Forall_forall in Hall. apply Hall. apply in_or_app. now right.
      * now apply Hab.
Qed.

(** X13: where every message carries a timestamp, recent-messages
    returns the newest messages of the room (of the table, without
    roomId): the rows are in descending order of effective time, they
    are min(limit, number of candidates) many, and every candidate left
    out is at most as recent as every row returned. *)
Theorem recent_returns_the_newest :
  forall (w : World) (tbl : list message) (req : Request) (limit : Z),
    existsSync w (resolveDbPath w) = true ->
    Forall (fun m => timestamp m <> None) tbl ->
    recent_limit req = Returned limit ->
    let candidates := filter (room_matches (query_roomId req)) tbl in
    exists shown rest,
      rows_sent (fst (get_messages_recent (sqlite_world w tbl) req))
      = map RMessage shown
      /\ Permutation (shown ++ rest) candidates
      /\ StronglySorted at_least_as_recent shown
      /\ (forall a b, In a shown -> In b rest -> at_least_as_recent a b)
      /\ List.length shown
         = Nat.min (Z.to_nat limit) (List.length candidates).
Proof.
  intros w tbl req limit He Hts Hl candidates.
  pose proof (parseLimit_range _ 50 200 limit ltac:(lia) Hl) as Hlim.
  assert (Hc : Forall (fun m => timestamp m <> None) candidates).
  { rewrite Forall_forall in *. intros m Hm. apply Hts.
    now apply filter_In in Hm. }
  pose proof (order_by_effective_desc_sorted candidates Hc) as Hs.
  pose proof (sort_desc_perm
                (fun a b => is_Gt (value_compare (effective_expr a) (effective_expr b)))
                candidates) as Hp.
  fold (order_by_effective_desc candidates) in Hp.
  set (sorted := order_by_effective_desc candidates) in *.
  exists (firstn (Z.to_nat limit) sorted), (skipn (Z.to_nat limit) sorted).
  rewrite <- (firstn_skipn (Z.to_nat limit) sorted) in Hs.
  apply StronglySorted_app_inv in Hs as [Hs1 Hs2].
  split; [|split; [|split; [|split]]].
  - rewrite (recent_on_sqlite w tbl req limit He Hl).
    unfold rows_sent. cbn [json fst ok].
    now rewrite apply_limit_firstn by lia.
  - now rewrite firstn_skipn.
  - exact Hs1.
  - exact Hs2.
  - rewrite length_firstn. now rewrite (Permutation_length Hp).
Qed.

(** X13 at three messages and limit 2. *)
Lemma recent_returns_the_newest_witness :
  let w := a_world true 0 in
  let tbl := [a_message 1 "alice" "one" (Some 10) None;
              a_message 2 "bob" "two" (Some 30) None;
              a_message 3 "carol" "three" (Some 20) None] in
  let req := a_query (given "2") None None None None None None in
  (existsSync w (resolveDbPath w) = true
   /\ Forall (fun m => timestamp m <> None) tbl
   /\ recent_limit req = Returned 2)
  /\ exists shown rest,
      rows_sent (fst (get_messages_recent (sqlite_world w tbl) req))
      = map RMessage shown
      /\ Permutation (shown ++ rest) (filter (room_matches (query_roomId req)) tbl)
      /\ StronglySorted at_least_as_recent shown
      /\ (forall a b, In a shown -> In b rest -> at_least_as_recent a b)
      /\ List.length shown
         = Nat.min (Z.to_nat 2)
                   (List.length (filter (room_matches (query_roomId req)) tbl)).
Proof.
  intros w tbl req.
  assert (Hts : Forall (fun m => timestamp m <> None) tbl)
    by (repeat constructor; discriminate).
  split; [split; [reflexivity|split; [exact Hts|reflexivity]]|].
  exact (recent_returns_the_newest w tbl req 2 eq_refl Hts eq_refl).
Defined.

Lemma search_reported_limit (w : World) (tbl : list message) (req : Request) :
  match json (fst (get_messages_search (sqlite_world w tbl) req)) with
  | BSearch _ l rows =>
      search_limit req = Returned l /\ Z.of_nat (List.length rows) <= l
  | _ => True
  end.
Proof.
  destruct (search_limit req) as [limit|m] eqn:Hl.
  - pose proof (parseLimit_range _ 100 500 limit ltac:(lia) Hl) as Hr.
    destruct (normalize_keywords (keywordsRaw req)) as [[|k ks]|] eqn:E.
    + unfold get_messages_search. now rewrite Hl, E.
    + destruct (existsSync w (resolveDbPath w)) eqn:He.
      * rewrite (search_on_sqlite w tbl req k ks limit He Hl E). cbn [json fst ok].
        split; [reflexivity|]. apply listing_rows_bound. lia.
      * unfold get_messages_search. rewrite Hl, E. cbn [caught].
        now rewrite answer_missing.
    + unfold get_messages_search. now rewrite Hl, E.
  - unfold get_messages_search. now rewrite Hl.
Qed.

Lemma recent_reported_limit (w : World) (tbl : list message) (req : Request) :
  match json (fst (get_messages_recent (sqlite_world w tbl) req)) with
  | BMessages rows l =>
      recent_limit req = Returned l /\ Z.of_nat (List.length rows) <= l
  | _ => True
  end.
Proof.
  destruct (recent_limit req) as [limit|m] eqn:Hl.
  - pose proof (parseLimit_range _ 50 200 limit ltac:(lia) Hl) as Hr.
    destruct (existsSync w (resolveDbPath w)) eqn:He.
    + rewrite (recent_on_sqlite w tbl req limit He Hl). cbn [json fst ok].
      split; [reflexivity|]. apply listing_rows_bound. lia.
    + unfold get_messages_recent. rewrite Hl. cbn [caught].
      now rewrite answer_missing.
  - unfold get_messages_recent. now rewrite Hl.
Qed.

Lemma by_user_reported_limit (w : World) (tbl : list message) (req : Request) :
  match json (fst (get_messages_by_user (sqlite_world w tbl) req)) with
  | BMessages rows l =>
      by_user_limit req = Returned l /\ Z.of_nat (List.length rows) <= l
  | _ => True
  end.
Proof.
  destruct (by_user_limit req) as [limit|m] eqn:Hl.
  - pose proof (parseLimit_range _ 100 500 limit ltac:(lia) Hl) as Hr.
    destruct (negb (truthy (query_openId req)) && negb (truthy (query_uname req)))
      eqn:Hb.
    + unfold get_messages_by_user. now rewrite Hl, Hb.
    + destruct (existsSync w (resolveDbPath w)) eqn:He.
      * destruct (by_user_where_cases req Hb)
          as [(v & Hv & _)|(u & Ho & Hu & [(t & Ht & _)|(_ & Hw)])].
        -- rewrite (by_user_open_id_on_sqlite w tbl req v limit He Hl Hv).
           cbn [json fst ok]. split; [reflexivity|].
           apply listing_rows_bound. lia.
        -- rewrite (by_user_uname_on_sqlite w tbl req u t limit He Hl Ho Hu Ht).
           cbn [json fst ok]. split; [reflexivity|].
           apply listing_rows_bound. lia.
        -- unfold get_messages_by_user. rewrite Hl. cbn [caught].
           now rewrite Hb, Hw.
      * unfold get_messages_by_user. rewrite Hl. cbn [caught]. rewrite Hb.
        destruct (by_user_where req) as [b|m']; cbn [caught];
          [now rewrite answer_missing|exact I].
  - unfold get_messages_by_user. now rewrite Hl.
Qed.

(** X14: keyword search reads its limit as the other listings do, with
    fallback 100 and maximum 500, and in each of the three listings the
    [limit] a response reports is the limit used and bounds the rows
    beside it. *)
Theorem reported_limit_bounds_the_rows :
  forall (w : World) (tbl : list message) (req : Request),
    reads_limit search_limit 100 500
    /\ match json (fst (get_messages_search (sqlite_world w tbl) req)) with
       | BSearch _ l rows =>
           search_limit req = Returned l /\ Z.of_nat (List.length rows) <= l
       | _ => True
       end
    /\ match json (fst (get_messages_recent (sqlite_world w tbl) req)) with
       | BMessages rows l =>
           recent_limit req = Returned l /\ Z.of_nat (List.length rows) <= l
       | _ => True
       end
    /\ match json (fst (get_messages_by_user (sqlite_world w tbl) req)) with
       | BMessages rows l =>
           by_user_limit req = Returned l /\ Z.of_nat (List.length rows) <= l
       | _ => True
       end.
Proof.
  intros w tbl req. split; [|split; [|split]].
  - apply (parseLimit_reads (js "100") 100 500);
      [lia|unfold safe_integer; lia|reflexivity].
  - apply search_reported_limit.
  - apply recent_reported_limit.
  - apply by_user_reported_limit.
Qed.

(** *** The leaderboard's counts *)

Lemma sum_of_zeros {K : Type} (ks : list K) :
  fold_right (fun (_ : K) acc => 0 + acc) 0 ks = 0.
Proof. induction ks as [|k ks IH]; simpl; [reflexivity|]. rewrite IH. lia. Qed.

(** Counting the pairs (element of [xs], equal key of [ks]) by key or
    by element gives the same number. *)
Lemma double_count (xs ks : list group_key) :
  fold_right (fun k acc => Z.of_nat (count_occ group_key_eq_dec xs k) + acc) 0 ks
  = fold_right (fun x acc => Z.of_nat (count_occ group_key_eq_dec ks x) + acc) 0 xs.
Proof.
  revert xs. induction ks as [|k ks IH]; intros xs.
  - simpl. induction xs as [|x xs IHx]; simpl; [reflexivity|]. rewrite <- IHx. lia.
  - cbn [fold_right]. rewrite IH. clear IH.
    induction xs as [|x xs IHx]; [reflexivity|].
    cbn [fold_right]. rewrite <- IHx. cbn [count_occ].
    destruct (group_key_eq_dec x k) as [Hxk|Hxk];
      destruct (group_key_eq_dec k x) as [Hkx|Hkx]; try congruence; lia.
Qed.

Lemma count_sum_le (xs ks : list group_key) :
  NoDup ks ->
  fold_right (fun k acc => Z.of_nat (count_occ group_key_eq_dec xs k) + acc) 0 ks
  <= Z.of_nat (List.length xs).
Proof.
  intros Hnd. rewrite double_count.
  induction xs as [|x xs IH]; [simpl; lia|].
  cbn [fold_right List.length].
  pose proof (proj1 (NoDup_count_occ group_key_eq_dec ks) Hnd x). lia.
Qed.

Lemma count_sum_eq (xs ks : list group_key) :
  NoDup ks -> incl xs ks ->
  fold_right (fun k acc => Z.of_nat (count_occ group_key_eq_dec xs k) + acc) 0 ks
  = Z.of_nat (List.length xs).
Proof.
  intros Hnd Hincl. rewrite double_count.
  induction xs as [|x xs IH]; [reflexivity|].
  cbn [fold_right List.length].
  rewrite IH by (intros y Hy; apply Hincl; now right).
  rewrite (proj1 (NoDup_count_occ' group_key_eq_dec ks) Hnd x)
    by (apply Hincl; now left).
  lia.
Qed.

Lemma total_count_top_rows (l : list message) (ks : list group_key) :
  total_count (map (top_row l) ks)
  = fold_right (fun k acc => Z.of_nat (count_occ group_key_eq_dec (map key_of l) k)
                             + acc) 0 ks.
Proof. induction ks as [|k ks IH]; simpl; [reflexivity|]. now rewrite <- IH. Qed.

Lemma NoDup_firstn {A : Type} (n : nat) (l : list A) : NoDup l -> NoDup (firstn n l).
Proof.
  intros H. rewrite <- (firstn_skipn n l) in H. now apply NoDup_app_remove_r in H.
Qed.

Lemma In_firstn {A : Type} (n : nat) (l : list A) (x : A) :
  In x (firstn n l) -> In x l.
Proof.
  intros H. rewrite <- (firstn_skipn n l). apply in_or_app. now left.
Qed.

(** The sender groups of a window, in the order of the leaderboard. *)
Lemma leaderboard_keys (window : list message) :
  let keys := sort_desc (fun a b => group_count window a >? group_count window b)
                        (groups window) in
  NoDup keys
  /\ (forall k, In k keys <-> In k (map key_of window))
  /\ List.length keys
     = List.length (nodup group_key_eq_dec (map key_of window)).
Proof.
  intros keys. unfold keys, groups. split; [|split].
  - eapply Permutation_NoDup; [symmetry; apply sort_desc_perm|].
    eapply Permutation_NoDup; [symmetry; apply sort_desc_perm|].
    apply NoDup_nodup.
  - intros k. rewrite !sort_desc_In. apply nodup_In.
  - rewrite (Permutation_length (sort_desc_perm _ _)).
    now rewrite (Permutation_length (sort_desc_perm _ _)).
Qed.

(** X15: where every message carries a timestamp and the window is
    one the arithmetic keeps exact, each row of top-senders counts at
    least one message, the counts of the rows add up to at most the
    number of messages in the window, and to exactly that number when
    the sender groups are no more than the limit: no message is counted
    twice. *)
Theorem top_users_counts_add_up :
  forall (w : World) (tbl : list message) (req : Request) (limit hours : Z),
    existsSync w (resolveDbPath w) = true ->
    Forall (fun m => timestamp m <> None) tbl ->
    top_users_limit req = Returned limit ->
    top_users_hours req = Returned (Num hours) ->
    hours * 3600 <= exact_seconds ->
    let window := filter (in_window (Date_now w / 1000) hours) tbl in
    let rows := rows_sent (fst (get_top_users (sqlite_world w tbl) req)) in
    Forall (fun r => 1 <= message_count r) rows
    /\ total_count rows <= Z.of_nat (List.length window)
    /\ (Z.of_nat (List.length (nodup group_key_eq_dec (map key_of window)))
        <= limit ->
        total_count rows = Z.of_nat (List.length window)).
Proof.
  intros w tbl req limit hours He Hts Hl Hh Hx window rows.
  pose proof (parseLimit_range _ 10 100 limit ltac:(lia) Hl) as Hlim.
  set (keys := sort_desc (fun a b => group_count window a >? group_count window b)
                 (groups window)).
  assert (Hrows : rows = map (top_row window) (firstn (Z.to_nat limit) keys)).
  { unfold rows. rewrite (top_users_on_sqlite w tbl req limit (Num hours) He Hl Hh).
    rewrite (window_cutoff_exact w hours Hx). cbn [bind].
    unfold rows_sent. cbn [json fst ok]. rewrite window_filter by assumption.
    fold window. rewrite apply_limit_firstn by lia. unfold top_users.
    now rewrite firstn_map. }
  destruct (leaderboard_keys window) as (Hnd & Hin & Hlen). fold keys in Hnd, Hin, Hlen.
  rewrite Hrows. split; [|split].
  - apply Forall_forall. intros r Hr. apply in_map_iff in Hr as (k & <- & Hk).
    apply In_firstn, Hin in Hk. cbn [top_row message_count]. unfold group_count.
    apply (count_occ_In group_key_eq_dec) in Hk. lia.
  - rewrite total_count_top_rows.
    rewrite <- (length_map key_of window).
    apply count_sum_le. now apply NoDup_firstn.
  - intros Hfew. rewrite firstn_all2.
    + rewrite total_count_top_rows. rewrite <- (length_map key_of window).
      apply count_sum_eq; [assumption|]. intros k Hk. now apply Hin.
    + rewrite Hlen. lia.
Qed.

(** X15 at three recent messages by two senders. *)
Lemma top_users_counts_add_up_witness :
  let w := a_world true 1000000000 in
  let tbl := [a_message 1 "alice" "one" (Some 999000) None;
              a_message 2 "bob" "two" (Some 998000) None;
              a_message 3 "alice" "three" (Some 997000) None] in
  (existsSync w (resolveDbPath w) = true
   /\ Forall (fun m => timestamp m <> None) tbl
   /\ top_users_limit a_request = Returned 10
   /\ top_users_hours a_request = Returned (Num 24)
   /\ 24 * 3600 <= exact_seconds)
  /\ total_count (rows_sent (fst (get_top_users (sqlite_world w tbl) a_request)))
     <= 3.
Proof.
  intros w tbl.
  assert (Hts : Forall (fun m => timestamp m <> None) tbl)
    by (repeat constructor; discriminate).
  assert (Hx : 24 * 3600 <= exact_seconds) by (unfold exact_seconds; lia).
  split; [repeat split; try assumption; reflexivity|].
  exact (proj1 (proj2 (top_users_counts_add_up w tbl a_request 10 24 eq_refl Hts
                         eq_refl eq_refl Hx))).
Defined.

(* ===================================================================== *)
(** ** Further properties: the dashboard's user search *)
(* ===================================================================== *)

(** X16: the dashboard's user search and GET /messages/by-user fit
    together: the dashboard sends nothing exactly when both fields are
    blank; what it sends is never answered with status 400, is served
    with limit 200, and takes the open_id branch, bound to the trimmed
    user ID, when that is not blank, else the name branch, bound to the
    pattern around the trimmed name. *)
Theorem dashboard_user_search_is_never_rejected :
  forall (w : World) (searchOpenId searchUname : jsstring),
    match handleUserSearch searchOpenId searchUname with
    | None => trim searchOpenId = [] /\ trim searchUname = []
    | Some req =>
        (trim searchOpenId <> [] \/ trim searchUname <> [])
        /\ status (fst (get_messages_by_user w req)) <> 400
        /\ by_user_limit req = Returned 200
        /\ Forall (fun i =>
                     match trim searchOpenId with
                     | _ :: _ =>
                         issued_sql i = sql_messages (js "WHERE open_id = ?")
                         /\ issued_params i = [JStr (trim searchOpenId); JNum 200]
                     | [] =>
                         issued_sql i
                         = sql_messages (js "WHERE uname LIKE ? COLLATE NOCASE")
                         /\ issued_params i
                            = [JStr (js "%" ++ trim searchUname ++ js "%"); JNum 200]
                     end)
                  (snd (get_messages_by_user w req))
    end.
Proof.
  intros w o u. unfold handleUserSearch.
  destruct (trim o) as [|c t] eqn:Eo; [destruct (trim u) as [|d t'] eqn:Eu|].
  - now split.
  - split; [right; discriminate|].
    match goal with |- context [get_messages_by_user w ?r] => set (req := r) end.
    assert (Hl : by_user_limit req = Returned 200) by reflexivity.
    assert (Hrun : get_messages_by_user w req
                   = answer (all w (resolveDbPath w)
                               (sql_messages (js "WHERE uname LIKE ? COLLATE NOCASE"))
                               [JStr (js "%" ++ d :: t' ++ js "%"); JNum 200])
                            (fun rows => BMessages rows 200)).
    { unfold get_messages_by_user. rewrite Hl. reflexivity. }
    rewrite Hrun. split; [|split].
    + match goal with |- context [answer (all w ?p ?s ?ps) ?k] =>
        destruct (answer_all_cases w p s ps k)
          as [(_ & ->)|[(_ & m & _ & ->)|(_ & rows & _ & ->)]] end;
        simpl; discriminate.
    + exact Hl.
    + now apply issued_of_answer.
  - split; [left; discriminate|].
    match goal with |- context [get_messages_by_user w ?r] => set (req := r) end.
    assert (Hl : by_user_limit req = Returned 200) by reflexivity.
    assert (Hrun : get_messages_by_user w req
                   = answer (all w (resolveDbPath w)
                               (sql_messages (js "WHERE open_id = ?"))
                               [JStr (c :: t); JNum 200])
                            (fun rows => BMessages rows 200)).
    { unfold get_messages_by_user. rewrite Hl. reflexivity. }
    rewrite Hrun. split; [|split].
    + match goal with |- context [answer (all w ?p ?s ?ps) ?k] =>
        destruct (answer_all_cases w p s ps k)
          as [(_ & ->)|[(_ & m & _ & ->)|(_ & rows & _ & ->)]] end;
        simpl; discriminate.
    + exact Hl.
    + now apply issued_of_answer.
Qed.

(* ===================================================================== *)
(** ** Further properties: keywords that are not strings *)
(* ===================================================================== *)

Lemma map_trim_not_a_string (l : list qval) :
  Exists (fun v => match v with QStr _ => False | _ => True end) l ->
  map_trim l = None.
Proof.
  induction 1 as [v l Hv|v l _ IH].
  - destruct v; [contradiction|reflexivity|reflexivity].
  - simpl. destruct v; try reflexivity. now rewrite IH.
Qed.

(** X18: when the keywords arrive as an array and one entry is not a
    string (a nested array or an object), trimming throws: the answer is
    status 500 and no statement is run, however many usable keywords
    stand beside it. *)
Theorem non_string_keyword_is_a_server_error :
  forall (w : World) (req : Request) (l : list qval),
    keywordsRaw req = Some (QArr l) ->
    Exists (fun v => match v with QStr _ => False | _ => True end) l ->
    status (fst (get_messages_search w req)) = 500
    /\ snd (get_messages_search w req) = [].
Proof.
  intros w req l Hraw Hl. unfold get_messages_search, normalize_keywords.
  rewrite Hraw. cbn [keyword_entries]. rewrite (map_trim_not_a_string l Hl).
  destruct (search_limit req); split; reflexivity.
Qed.

(** X18 at [?keyword[]=foo&keyword[][a]=b]. *)
Lemma non_string_keyword_is_a_server_error_witness :
  let req := {| params_name := []; query_limit := None; query_offset := None;
                query_hours := None; query_roomId := None; query_openId := None;
                query_uname := None;
                query_keyword := Some (QArr [QStr (js "foo"); QObj false]);
                query_keywords := None; query_q := None |} in
  (keywordsRaw req = Some (QArr [QStr (js "foo"); QObj false])
   /\ Exists (fun v => match v with QStr _ => False | _ => True end)
             [QStr (js "foo"); QObj false])
  /\ status (fst (get_messages_search (a_world true 0) req)) = 500
  /\ snd (get_messages_search (a_world true 0) req) = [].
Proof.
  intros req.
  assert (H : Exists (fun v => match v with QStr _ => False | _ => True end)
                     [QStr (js "foo"); QObj false])
    by (apply Exists_cons_tl, Exists_cons_hd; exact I).
  split; [split; [reflexivity|exact H]|].
  exact (non_string_keyword_is_a_server_error (a_world true 0) req _ eq_refl H).
Defined.
